(** * txid_block_lookup: resumable, rate-limited block lookup for TXIDs

    A shallow embedding of [txid_block_lookup.py] and the properties of
    its retry policy, rate limiter, field extraction and batch engine.

    Conventions of the embedding:
    - Python values that reach the code from JSON are the type [pyval];
    - a Python [str] is a [string] read as a sequence of code points
      below 256 (Latin-1), which covers hexadecimal TXIDs;
    - a Python [float] that measures time is a rational [Q]: clock
      readings, sleep durations and the backoff formula are computed in
      exact arithmetic, rounding is not modelled; what the floats and
      [time.sleep] cannot hold raises [OverflowError], at bounds that
      are taken exactly;
    - a call that may raise returns a [result]; [try]/[except] and
      [try]/[finally] are functions on results;
    - the network, the wall clock and asynchronous interrupts are
      oracles handed to the functions that consult them. *)

From Stdlib Require Import ZArith QArith Qabs Qpower List String Ascii Bool.
From Stdlib Require Import Lia Lqa.
From Stdlib Require Import DecimalString.
From Equations Require Import Equations.
Import ListNotations.

Set Warnings "-register-all".

Local Open Scope string_scope.
Local Open Scope list_scope.
Local Open Scope Z_scope.

(* ================================================================= *)
(** ** Python layer: exceptions, values, built-ins *)

Module Py.

(** Exception classes that occur in the program.  [Other] stands for
    any further subclass of [Exception], by class name. *)
Inductive exn_class :=
| TypeError | ValueError | OverflowError | KeyError | AttributeError
| ZeroDivisionError
| KeyboardInterrupt               (* a BaseException, not an Exception *)
| Other (name : string).

Record exn := Exn { exn_cls : exn_class; exn_msg : string }.

Definition class_name (c : exn_class) : string :=
  match c with
  | TypeError => "TypeError" | ValueError => "ValueError"
  | OverflowError => "OverflowError" | KeyError => "KeyError"
  | AttributeError => "AttributeError"
  | ZeroDivisionError => "ZeroDivisionError"
  | KeyboardInterrupt => "KeyboardInterrupt"
  | Other n => n
  end.

(** [isinstance(e, Exception)] *)
Definition is_Exception (e : exn) : bool :=
  match exn_cls e with KeyboardInterrupt => false | _ => true end.

Inductive result (A : Type) :=
| Ret (a : A)
| Raise (e : exn).
Arguments Ret {A} a.
Arguments Raise {A} e.

Definition bind {A B} (m : result A) (k : A -> result B) : result B :=
  match m with Ret a => k a | Raise e => Raise e end.

(** [try: m  except Exception: h] *)
Definition try_except_Exception {A} (m : result A) (h : exn -> result A)
  : result A :=
  match m with
  | Ret a => Ret a
  | Raise e => if is_Exception e then h e else Raise e
  end.

Inductive pyfloat :=
| FNaN
| FInf (negative : bool)
| FFin (q : Q).

Inductive pyval :=
| PNone
| PBool (b : bool)
| PInt (z : Z)
| PFloat (f : pyfloat)
| PStr (s : string)
| PList (l : list pyval)
| PDict (d : list (string * pyval)).

Definition type_name (v : pyval) : string :=
  match v with
  | PNone => "NoneType" | PBool _ => "bool" | PInt _ => "int"
  | PFloat _ => "float" | PStr _ => "str" | PList _ => "list"
  | PDict _ => "dict"
  end.

(** Truth value of an object, as [not x] and [if x] use it. *)
Definition truthy (v : pyval) : bool :=
  match v with
  | PNone => false
  | PBool b => b
  | PInt z => negb (z =? 0)
  | PFloat FNaN => true
  | PFloat (FInf _) => true
  | PFloat (FFin q) => negb (Qeq_bool q 0)
  | PStr s => negb (String.eqb s "")
  | PList l => match l with [] => false | _ => true end
  | PDict d => match d with [] => false | _ => true end
  end.

(** A dict is an association list with distinct keys. *)
Fixpoint assoc {A} (k : string) (d : list (string * A)) : option A :=
  match d with
  | [] => None
  | (k', v) :: d' => if String.eqb k k' then Some v else assoc k d'
  end.

(** [d.get(k)]: the value, or [None] where the key is absent. *)
Definition dict_get (k : string) (d : list (string * pyval)) : pyval :=
  match assoc k d with Some v => v | None => PNone end.

(** [v.get(k)] on an arbitrary object: only a dict has the method. *)
Definition method_get (v : pyval) (k : string) : result pyval :=
  match v with
  | PDict d => Ret (dict_get k d)
  | _ => Raise (Exn AttributeError
                  ("'" ++ type_name v ++ "' object has no attribute 'get'")%string)
  end.

(** *** Strings *)

Definition code (c : ascii) : Z := Z.of_nat (nat_of_ascii c).

(** [c.isspace()], the characters [str.strip()] removes. *)
Definition isspace (c : ascii) : bool :=
  let n := code c in
  ((9 <=? n) && (n <=? 13)) || ((28 <=? n) && (n <=? 32))
  || (n =? 133) || (n =? 160).

(** The characters [int()] skips around a numeral: ASCII white space
    and the non-ASCII spaces. *)
Definition int_space (c : ascii) : bool :=
  let n := code c in
  ((9 <=? n) && (n <=? 13)) || (n =? 32) || (n =? 133) || (n =? 160).

Definition lower_char (c : ascii) : ascii :=
  let n := code c in
  if ((65 <=? n) && (n <=? 90))
     || ((192 <=? n) && (n <=? 222) && negb (n =? 215))
  then ascii_of_nat (Z.to_nat (n + 32)) else c.

Fixpoint str_lower (s : string) : string :=
  match s with
  | EmptyString => EmptyString
  | String c s' => String (lower_char c) (str_lower s')
  end.

Fixpoint lstrip_with (sp : ascii -> bool) (s : string) : string :=
  match s with
  | EmptyString => EmptyString
  | String c s' => if sp c then lstrip_with sp s' else s
  end.

Fixpoint rstrip_with (sp : ascii -> bool) (s : string) : string :=
  match s with
  | EmptyString => EmptyString
  | String c s' =>
      match rstrip_with sp s' with
      | EmptyString => if sp c then EmptyString else String c EmptyString
      | r => String c r
      end
  end.

Definition str_strip (s : string) : string :=
  rstrip_with isspace (lstrip_with isspace s).

(** [str(z)] for an int. *)
Definition str_of_int (z : Z) : string :=
  NilZero.string_of_int (Z.to_int z).

(** *** int() *)

Definition digit_val (c : ascii) : option Z :=
  let n := code c in
  if (48 <=? n) && (n <=? 57) then Some (n - 48) else None.

(** Digits of a numeral, underscores allowed between two digits only.
    [prev_digit] tells whether the previous character was a digit;
    the result is the value and the number of digits read. *)
Fixpoint scan_digits (s : string) (prev_digit : bool) (acc : Z) (count : nat)
  : option (Z * nat) :=
  match s with
  | EmptyString => if prev_digit then Some (acc, count) else None
  | String c s' =>
      match digit_val c with
      | Some d => scan_digits s' true (10 * acc + d) (S count)
      | None =>
          if (code c =? 95) && prev_digit
          then scan_digits s' false acc count
          else None
      end
  end.

(** Default of [sys.get_int_max_str_digits()]. *)
Definition int_max_str_digits : nat := 4300.

Definition invalid_literal : exn :=
  Exn ValueError "invalid literal for int() with base 10".

Definition int_of_str (s : string) : result Z :=
  let body := rstrip_with int_space (lstrip_with int_space s) in
  let '(neg, numeral) :=
    match body with
    | String c rest =>
        if code c =? 45 then (true, rest)
        else if code c =? 43 then (false, rest)
        else (false, body)
    | EmptyString => (false, body)
    end in
  match scan_digits numeral false 0 0 with
  | Some (n, count) =>
      if (int_max_str_digits <? count)%nat
      then Raise (Exn ValueError
                    "Exceeds the limit (4300 digits) for integer string conversion")
      else Ret (if neg then - n else n)
  | None => Raise invalid_literal
  end.

(** Rounding toward zero, as [int(float)] does. *)
Definition trunc (q : Q) : Z := Z.quot (Qnum q) (Z.pos (Qden q)).

(** [int(v)] *)
Definition int (v : pyval) : result Z :=
  match v with
  | PBool b => Ret (if b then 1 else 0)
  | PInt z => Ret z
  | PFloat FNaN =>
      Raise (Exn ValueError "cannot convert float NaN to integer")
  | PFloat (FInf _) =>
      Raise (Exn OverflowError "cannot convert float infinity to integer")
  | PFloat (FFin q) => Ret (trunc q)
  | PStr s => int_of_str s
  | PNone | PList _ | PDict _ =>
      Raise (Exn TypeError
               ("int() argument must be a string, a bytes-like object or a real number, not '"
                  ++ type_name v ++ "'")%string)
  end.

End Py.

Import Py.

Notation "x <- m ;; k" := (Py.bind m (fun x => k))
  (at level 61, m at next level, right associativity).

(* ================================================================= *)
(** ** Library calls used by [iso_utc] *)

Module Datetime.

(** An aware [datetime] in UTC with zero microseconds, which is what
    [datetime.fromtimestamp(n, tz=timezone.utc)] gives for an int [n]. *)
Record datetime := {
  year : Z; month : Z; day : Z;
  hour : Z; minute : Z; second : Z
}.

(** Proleptic Gregorian date of a day count relative to 1970-01-01. *)
Definition civil_from_days (days : Z) : Z * Z * Z :=
  let z := days + 719468 in
  let era := z / 146097 in
  let doe := z - era * 146097 in
  let yoe := (doe - doe / 1460 + doe / 36524 - doe / 146096) / 365 in
  let doy := doe - (365 * yoe + yoe / 4 - yoe / 100) in
  let mp := (5 * doy + 2) / 153 in
  let d := doy - (153 * mp + 2) / 5 + 1 in
  let m := if mp <? 10 then mp + 3 else mp - 9 in
  let y := yoe + era * 400 + (if m <=? 2 then 1 else 0) in
  (y, m, d).

(** Timestamps of 0001-01-01T00:00:00 and 9999-12-31T23:59:59. *)
Definition MIN_TIMESTAMP : Z := -62135596800.
Definition MAX_TIMESTAMP : Z := 253402300799.

(** [datetime.fromtimestamp(n, tz=timezone.utc)] on a POSIX platform:
    years outside 1..9999 raise. *)
Definition fromtimestamp_utc (n : Z) : result datetime :=
  if (MIN_TIMESTAMP <=? n) && (n <=? MAX_TIMESTAMP) then
    let '(y, m, d) := civil_from_days (n / 86400) in
    let s := n mod 86400 in
    Ret {| year := y; month := m; day := d;
           hour := s / 3600; minute := (s mod 3600) / 60; second := s mod 60 |}
  else Raise (Exn ValueError "year is out of range").

Definition pad2 (z : Z) : string :=
  ((if (z <? 10)%Z then "0" else "") ++ str_of_int z)%string.

Definition pad4 (z : Z) : string :=
  ((if (z <? 10)%Z then "000" else if (z <? 100)%Z then "00"
    else if (z <? 1000)%Z then "0" else "") ++ str_of_int z)%string.

(** [dt.isoformat()] *)
Definition isoformat (dt : datetime) : string :=
  (pad4 (year dt) ++ "-" ++ pad2 (month dt) ++ "-" ++ pad2 (day dt) ++ "T"
   ++ pad2 (hour dt) ++ ":" ++ pad2 (minute dt) ++ ":" ++ pad2 (second dt)
   ++ "+00:00")%string.

End Datetime.

Module Pandas.

(** Missing-value test on one object. *)
Definition checknull (v : pyval) : bool :=
  match v with
  | PNone => true
  | PFloat FNaN => true
  | _ => false
  end.

Fixpoint common_prefix (a b : list nat) : list nat :=
  match a, b with
  | x :: a', y :: b' => if Nat.eqb x y then x :: common_prefix a' b' else []
  | _, _ => []
  end.

Definition common_prefix_all (shapes : list (list nat)) : list nat :=
  match shapes with
  | [] => []
  | s :: rest => fold_left common_prefix rest s
  end.

(** Shape of [np.asarray(v, dtype=object)]: nesting is followed as long
    as all lists of a level have one length. *)
Fixpoint np_shape (v : pyval) : list nat :=
  match v with
  | PList l => List.length l :: common_prefix_all (map np_shape l)
  | _ => []
  end.

(** Elements of the array, in order, for a number of dimensions. *)
Fixpoint np_ravel (ndim : nat) (v : pyval) : list pyval :=
  match ndim with
  | O => [v]
  | S n =>
      match v with
      | PList l => flat_map (np_ravel n) l
      | _ => [v]
      end
  end.

(** What [pd.isna] returns: one bool for a scalar, an array of bools,
    element by element, for a list. *)
Inductive isna_result :=
| IsnaScalar (b : bool)
| IsnaArray (elems : list bool).

Definition isna (v : pyval) : isna_result :=
  match v with
  | PList _ =>
      IsnaArray (map checknull (np_ravel (List.length (np_shape v)) v))
  | _ => IsnaScalar (checknull v)
  end.

Definition ambiguous_truth : exn :=
  Exn ValueError
    "The truth value of an array with more than one element is ambiguous. Use a.any() or a.all()".

(** Truth value of that result, as [or] and [if] ask for it.  An
    array of one element has the truth value of the element, an empty
    array is false (NumPy before 2.2), a longer one raises. *)
Definition truth (r : isna_result) : result bool :=
  match r with
  | IsnaScalar b => Ret b
  | IsnaArray [] => Ret false
  | IsnaArray [b] => Ret b
  | IsnaArray _ => Raise ambiguous_truth
  end.

End Pandas.

(* ================================================================= *)
(** ** HELPERS *)

(** [API_BASES] *)
Definition API_BASES : list (string * string) :=
  [ ("blockstream", "https://blockstream.info/api");
    ("mempool", "https://mempool.space/api") ].

(** [iso_utc(ts_unix)].  The test of the first line sits outside the
    [try]; the conversion sits inside it. *)
Definition iso_utc (ts_unix : pyval) : result (option string) :=
  missing <- match ts_unix with
             | PNone => Ret true
             | _ => Pandas.truth (Pandas.isna ts_unix)
             end ;;
  if missing : bool then Ret None
  else
    try_except_Exception
      (n <- Py.int ts_unix ;;
       dt <- Datetime.fromtimestamp_utc n ;;
       Ret (Some (Datetime.isoformat dt)))
      (fun _ => Ret None).

(* ================================================================= *)
(** ** FETCH FUNCTIONS *)

(** What one call of [fetch_tx_info_esplora] does: it returns the
    parsed body, or raises.  The network decides which. *)
Inductive fetch_outcome :=
| Response (tx_json : pyval)
| HTTPError (status_code : option Z)   (* [None]: the error has no response *)
| ConnectionError
| Timeout
| Failure (e : exn).                   (* anything else that is raised *)

(** The dict [extract_block_fields_from_esplora] returns. *)
Record block_fields := {
  block_height : pyval;
  block_time_unix : pyval;
  block_time_utc_iso : option string;
  block_hash : pyval
}.

Definition no_block : block_fields :=
  {| block_height := PNone; block_time_unix := PNone;
     block_time_utc_iso := None; block_hash := PNone |}.

Definition extract_block_fields_from_esplora (tx_json : pyval)
  : result block_fields :=
  let status :=
    match tx_json with
    | PDict d => match assoc "status" d with Some v => v | None => PDict [] end
    | _ => PDict []
    end in
  unconfirmed <- (if negb (truthy status) then Ret true
                  else c <- method_get status "confirmed" ;;
                       Ret (negb (truthy c))) ;;
  if unconfirmed : bool then Ret no_block
  else
    bh <- method_get status "block_height" ;;
    bt <- method_get status "block_time" ;;
    iso <- iso_utc bt ;;
    h <- method_get status "block_hash" ;;
    Ret {| block_height := bh; block_time_unix := bt;
           block_time_utc_iso := iso; block_hash := h |}.

(** The dict [robust_lookup] returns: the block fields together with
    [txid], [api_source] and [error]. *)
Record lookup_record := {
  txid : string;
  fields : block_fields;
  api_source : string;
  error : option string
}.

Definition failure_record (txid api_source err : string) : lookup_record :=
  {| txid := txid; fields := no_block;
     api_source := api_source; error := Some err |}.

Definition success_record (txid api_source : string) (f : block_fields)
  : lookup_record :=
  {| txid := txid; fields := f; api_source := api_source; error := None |}.

(** The longest duration that [time.sleep] takes, in seconds: CPython
    turns the seconds into a count of nanoseconds held in a signed word
    of 64 bits. *)
Definition SLEEP_MAX : Q := 9223372036854775807 # 1000000000.

(** [time.sleep(d)]: a duration whose count of nanoseconds does not fit
    is refused with [OverflowError], whatever its sign; a negative
    duration that fits is refused with [ValueError]. *)
Definition time_sleep (d : Q) : result unit :=
  if negb (Qle_bool (- SLEEP_MAX) d && Qle_bool d SLEEP_MAX)
  then Raise (Exn OverflowError
                "timestamp too large to convert to C _PyTime_t")
  else if Qle_bool 0 d then Ret tt
  else Raise (Exn ValueError "sleep length must be non-negative").

(** The largest finite float. *)
Definition FLOAT_MAX : Q := inject_Z (2 ^ 1024 - 2 ^ 971).

(** [x ** n] on a float [x] and an int [n >= 1]: a result beyond the
    finite floats raises [OverflowError]. *)
Definition float_pow (x : Q) (n : Z) : result Q :=
  if Qle_bool (Qabs (Qpower x n)) FLOAT_MAX then Ret (Qpower x n)
  else Raise (Exn OverflowError "(34, 'Numerical result out of range')").

(** [(backoff_base ** attempt) * (1.5 + (attempt % 3) * 0.2)] *)
Definition sleep_s (backoff_base : Q) (attempt : Z) : Q :=
  (Qpower backoff_base attempt
   * ((3 # 2) + inject_Z (attempt mod 3) * (1 # 5)))%Q.

(** The two lines of a retry:
    [sleep_s = (backoff_base ** attempt) * (1.5 + (attempt % 3) * 0.2)]
    and [time.sleep(sleep_s)].  Either may raise. *)
Definition backoff_sleep (backoff_base : Q) (attempt : Z) : result unit :=
  _ <- float_pow backoff_base attempt ;;
  time_sleep (sleep_s backoff_base attempt).

(** [status_code and 400 <= status_code < 500 and status_code != 429] *)
Definition client_error_final (status_code : option Z) : bool :=
  match status_code with
  | None => false
  | Some c => negb (c =? 0) && (400 <=? c) && (c <? 500) && negb (c =? 429)
  end.

Definition status_repr (status_code : option Z) : string :=
  match status_code with Some c => str_of_int c | None => "None" end.

(** One run of [robust_lookup]: what it returned or raised, how many
    times it called the fetch function, and the sleeps between. *)
Record lookup_run := {
  outcome : result lookup_record;
  calls : nat;
  sleeps : list Q
}.

Section RetryLoop.

(** The arguments of [robust_lookup], fixed while it loops.  [fetch k]
    is the outcome of the call number [k] (from 0) of
    [fetch_tx_info_esplora] for this key. *)
Variable fetch : nat -> fetch_outcome.
Variables txid api_source : string.
Variable max_retries : Z.
Variable backoff_base : Q.

Definition unexpected (e : exn) : lookup_record :=
  failure_record txid api_source
    ("Unexpected: " ++ class_name (exn_cls e) ++ ": " ++ exn_msg e)%string.

(** The body of [while True], from the state [attempt] of the retry
    counter, after [ncalls] calls and the sleeps [slept].  The loop goes
    round only after [attempt] grew without passing [max_retries],
    which bounds it. *)
Equations retry_loop (attempt : Z) (ncalls : nat) (slept : list Q) : lookup_run
    by wf (Z.to_nat (max_retries - attempt)) lt :=
  retry_loop attempt ncalls slept :=
    let done r := {| outcome := r; calls := S ncalls; sleeps := slept |} in
    match fetch ncalls with
    | Response tx_json =>
        done (try_except_Exception
                (f <- extract_block_fields_from_esplora tx_json ;;
                 Ret (success_record txid api_source f))
                (fun e => Ret (unexpected e)))
    | HTTPError status_code =>
        if match status_code with Some c => c =? 404 | None => false end
        then done (Ret (failure_record txid api_source "404 Not Found"))
        else if client_error_final status_code
        then done (Ret (failure_record txid api_source
                          ("HTTP " ++ status_repr status_code)%string))
        else
          match Z_gt_le_dec (attempt + 1) max_retries with
          | left _ =>
              done (Ret (failure_record txid api_source
                           ("HTTP error after " ++ str_of_int max_retries
                              ++ " retries")%string))
          | right _ =>
              match backoff_sleep backoff_base (attempt + 1) with
              | Raise e => done (Raise e)
              | Ret _ =>
                  retry_loop (attempt + 1) (S ncalls)
                             (slept ++ [sleep_s backoff_base (attempt + 1)])
              end
          end
    | ConnectionError | Timeout =>
        match Z_gt_le_dec (attempt + 1) max_retries with
        | left _ =>
            done (Ret (failure_record txid api_source
                         ("Network/Timeout after " ++ str_of_int max_retries
                            ++ " retries")%string))
        | right _ =>
            match backoff_sleep backoff_base (attempt + 1) with
            | Raise e => done (Raise e)
            | Ret _ =>
                retry_loop (attempt + 1) (S ncalls)
                           (slept ++ [sleep_s backoff_base (attempt + 1)])
            end
        end
    | Failure e =>
        done (if is_Exception e then Ret (unexpected e) else Raise e)
    end.
Next Obligation. lia. Qed.
Next Obligation. lia. Qed.
Next Obligation. lia. Qed.

End RetryLoop.

(** [robust_lookup(txid, api_source, session, max_retries, backoff_base)].
    [fetch_tx_info_esplora api_base txid k] is the outcome of the call
    number [k] for that endpoint and key. *)
Definition robust_lookup
    (fetch_tx_info_esplora : string -> string -> nat -> fetch_outcome)
    (txid api_source : string) (max_retries : Z) (backoff_base : Q)
  : lookup_run :=
  match assoc api_source API_BASES with
  | None =>
      {| outcome := Raise (Exn KeyError ("'" ++ api_source ++ "'")%string);
         calls := 0; sleeps := [] |}
  | Some api_base =>
      retry_loop (fetch_tx_info_esplora api_base txid) txid api_source
                 max_retries backoff_base 0 0 []
  end.

(** Defaults of the two keyword arguments. *)
Definition default_max_retries : Z := 5.
Definition default_backoff_base : Q := 8 # 10.

(* ================================================================= *)
(** ** HELPERS on tables and time *)

(** A cell of a column of strings: [None] is the missing value NaN. *)
Definition cell := option string.

(** A table read by [pd.read_csv]: columns by name. *)
Definition dataframe := list (string * list cell).

Fixpoint dropna (col : list cell) : list string :=
  match col with
  | [] => []
  | Some s :: rest => s :: dropna rest
  | None :: rest => dropna rest
  end.

Definition mem (s : string) (l : list string) : bool :=
  existsb (String.eqb s) l.

(** [Series.drop_duplicates()]: the first occurrence of a value stays. *)
Fixpoint drop_duplicates_seen (seen l : list string) : list string :=
  match l with
  | [] => []
  | x :: rest =>
      if mem x seen then drop_duplicates_seen seen rest
      else x :: drop_duplicates_seen (x :: seen) rest
  end.

Definition drop_duplicates (l : list string) : list string :=
  drop_duplicates_seen [] l.

(** [list(df.columns)] as text, for names without quotes and
    backslashes. *)
Definition repr_names (names : list string) : string :=
  ("[" ++ String.concat ", " (map (fun n => "'" ++ n ++ "'") names)
       ++ "]")%string.

Definition unique_txids_from_csv (df : dataframe) (txid_column : string)
  : result (list string) :=
  match assoc txid_column df with
  | None =>
      Raise (Exn ValueError
               ("Column '" ++ txid_column ++ "' not found. Columns: "
                  ++ repr_names (map fst df))%string)
  | Some col =>
      Ret (drop_duplicates
             (map (fun s => str_lower (str_strip s)) (dropna col)))
  end.

(** [Series.astype(str)] on a cell: NaN becomes the string "nan". *)
Definition astype_str (c : cell) : string :=
  match c with Some s => s | None => "nan" end.

(** [rate_limit_sleep(last_call_ts, rate_limit_per_sec)], where [now]
    is what [time.time()] reads inside it: the duration handed to
    [time.sleep], or [None] where it does not sleep. *)
Definition rate_limit_sleep (last_call_ts rate_limit_per_sec now : Q)
  : option Q :=
  if Qle_bool rate_limit_per_sec 0 then None
  else
    let min_interval := (1 / rate_limit_per_sec)%Q in
    let elapsed := (now - last_call_ts)%Q in
    if negb (Qle_bool min_interval elapsed)
    then Some (min_interval - elapsed)%Q
    else None.

(* ================================================================= *)
(** ** MAIN ENRICHMENT FUNCTION *)

(** Places of the loop body where an asynchronous [KeyboardInterrupt]
    may arrive, besides the lookup itself (there the fetch outcome
    carries it). *)
Inductive interrupt_point :=
| InRateLimit      (* inside [rate_limit_sleep] *)
| BeforeSave       (* in the checkpoint, before the write *)
| AfterSave.       (* in the checkpoint, after the write, before [clear] *)

(** What the engine does not decide: the network, the clock and
    interrupts.  The index [i] is the loop counter of [enumerate]. *)
Record environment := {
  net : string -> string -> nat -> fetch_outcome;
  start_time : Q;
  (** time that passes in iteration [i] between the reading of the
      clock in [rate_limit_sleep] and the reading that sets
      [last_call_ts], on top of the sleep asked for *)
  gate_delay : nat -> Q;
  (** time that passes from that reading to the next iteration *)
  work_time : nat -> Q;
  interrupt : nat -> option interrupt_point
}.

Inductive event :=
| Called (txid : string) (ts : Q)            (* [robust_lookup] entered *)
| Resolved (rec : lookup_record)             (* its record joined the batch *)
| Saved (batch : list lookup_record).        (* [save_results_incremental] *)

Record engine_state := {
  clock : Q;
  last_call_ts : Q;
  results_batch : list lookup_record;
  trace : list event
}.

(** Computations of the engine: state passing with exceptions. *)
Definition M (A : Type) : Type := engine_state -> result A * engine_state.

Definition ret {A} (a : A) : M A := fun st => (Ret a, st).

Definition raise {A} (e : exn) : M A := fun st => (Raise e, st).

Definition mbind {A B} (m : M A) (k : A -> M B) : M B :=
  fun st =>
    match m st with
    | (Ret a, st') => k a st'
    | (Raise e, st') => (Raise e, st')
    end.

Notation "x <~ m ;; k" := (mbind m (fun x => k))
  (at level 61, m at next level, right associativity).
Notation "m ;;; k" := (mbind m (fun _ => k))
  (at level 61, right associativity).

(** [try: body  finally: fin] *)
Definition try_finally (body fin : M unit) : M unit :=
  fun st =>
    let '(r, st1) := body st in
    match fin st1 with
    | (Ret _, st2) => (r, st2)
    | (Raise e, st2) => (Raise e, st2)
    end.

Definition log (ev : event) : M unit :=
  fun st => (Ret tt, {| clock := clock st; last_call_ts := last_call_ts st;
                        results_batch := results_batch st;
                        trace := trace st ++ [ev] |}).

Definition pass_time (d : Q) : M unit :=
  fun st => (Ret tt, {| clock := (clock st + d)%Q;
                        last_call_ts := last_call_ts st;
                        results_batch := results_batch st;
                        trace := trace st |}).

Definition set_batch (b : list lookup_record) : M unit :=
  fun st => (Ret tt, {| clock := clock st; last_call_ts := last_call_ts st;
                        results_batch := b; trace := trace st |}).

(** [last_call_ts = time.time()] *)
Definition stamp : M unit :=
  fun st => (Ret tt, {| clock := clock st; last_call_ts := clock st;
                        results_batch := results_batch st;
                        trace := trace st |}).

Definition get : M engine_state := fun st => (Ret st, st).

(** [time.sleep(d)] in the engine: the time passes, or the call
    raises. *)
Definition sleep (d : Q) : M unit :=
  match time_sleep d with
  | Ret _ => pass_time d
  | Raise e => raise e
  end.

Definition keyboard_interrupt : exn := Exn KeyboardInterrupt "".

(** [save_results_incremental(pd.DataFrame(results_batch), output_csv)] *)
Definition save_results_incremental : M unit :=
  st <~ get ;; log (Saved (results_batch st)).

Definition interrupt_point_eqb (p q : interrupt_point) : bool :=
  match p, q with
  | InRateLimit, InRateLimit | BeforeSave, BeforeSave
  | AfterSave, AfterSave => true
  | _, _ => false
  end.

Section Engine.

Variable env : environment.
Variable api_source : string.
Variable rate_limit_per_sec : Q.
Variable checkpoint_every : Z.

Definition interruptible (p : interrupt_point) (i : nat) : M unit :=
  match interrupt env i with
  | Some q =>
      if interrupt_point_eqb p q then raise keyboard_interrupt else ret tt
  | None => ret tt
  end.

(** [rate_limit_sleep(last_call_ts, rate_limit_per_sec)] followed by
    [last_call_ts = time.time()].  The limiter hands its duration to
    [time.sleep], which may refuse it. *)
Definition gate (i : nat) : M unit :=
  st <~ get ;;
  interruptible InRateLimit i ;;;
  match rate_limit_sleep (last_call_ts st) rate_limit_per_sec (clock st) with
  | Some d => sleep d
  | None => ret tt
  end ;;;
  pass_time (gate_delay env i) ;;;
  stamp.

(** [rec = robust_lookup(txid, api_source=api_source, session=session)] *)
Definition lookup (i : nat) (txid : string) : M lookup_record :=
  st <~ get ;;
  log (Called txid (last_call_ts st)) ;;;
  pass_time (work_time env i) ;;;
  match outcome (robust_lookup (net env) txid api_source
                               default_max_retries default_backoff_base) with
  | Ret rec => ret rec
  | Raise e => raise e
  end.

(** [results_batch.append(rec)] *)
Definition append (rec : lookup_record) : M unit :=
  st <~ get ;;
  set_batch (results_batch st ++ [rec]) ;;;
  log (Resolved rec).

(** The periodic checkpoint; [n] is [len(to_fetch)]. *)
Definition checkpoint (i n : nat) : M unit :=
  if checkpoint_every =? 0
  then raise (Exn ZeroDivisionError "integer division or modulo by zero")
  else if (Z.of_nat i mod checkpoint_every =? 0) || (i =? n)%nat
  then
    interruptible BeforeSave i ;;;
    save_results_incremental ;;;
    interruptible AfterSave i ;;;
    set_batch []
  else ret tt.

Definition loop_body (i n : nat) (txid : string) : M unit :=
  gate i ;;;
  rec <~ lookup i txid ;;
  append rec ;;;
  checkpoint i n.

(** [for i, txid in enumerate(to_fetch, 1)], from the counter [i]. *)
Fixpoint for_loop (i n : nat) (items : list string) : M unit :=
  match items with
  | [] => ret tt
  | txid :: rest => loop_body i n txid ;;; for_loop (S i) n rest
  end.

(** The [finally] block. *)
Definition final_flush : M unit :=
  st <~ get ;;
  match results_batch st with
  | [] => ret tt
  | _ :: _ => save_results_incremental
  end.

Definition initial_state : engine_state :=
  {| clock := start_time env; last_call_ts := 0%Q;
     results_batch := []; trace := [] |}.

Definition run_loop (to_fetch : list string) : result unit * engine_state :=
  try_finally (for_loop 1 (List.length to_fetch) to_fetch) final_flush
              initial_state.

End Engine.

(** The keys a run has to fetch: the unique keys of the input that are
    not in the [txid] column of the Progress Store, lower-cased. *)
Definition to_fetch (txids : list string) (existing_txid : list cell)
  : list string :=
  let have := map (fun c => str_lower (astype_str c)) existing_txid in
  filter (fun t => negb (mem t have)) txids.

(** [enrich_txids_with_block_info], up to the end of [try]/[finally].
    [input_csv] is the table read from the input file and
    [existing_txid] the [txid] column of [load_existing_results]. *)
Definition enrich_txids_with_block_info (env : environment)
    (input_csv : dataframe) (txid_column : string)
    (existing_txid : list cell) (api_source : string)
    (rate_limit_per_sec : Q) (checkpoint_every : Z)
  : result unit * engine_state :=
  let api_source := str_strip (str_lower api_source) in
  if negb (mem api_source (map fst API_BASES))
  then (Raise (Exn ValueError
                 "api_source must be one of ['blockstream', 'mempool']"),
        initial_state env)
  else
    match unique_txids_from_csv input_csv txid_column with
    | Raise e => (Raise e, initial_state env)
    | Ret txids =>
        run_loop env api_source rate_limit_per_sec checkpoint_every
                 (to_fetch txids existing_txid)
    end.

(** *** What a trace shows *)

Fixpoint lookups (tr : list event) : list string :=
  match tr with
  | [] => []
  | Called t _ :: rest => t :: lookups rest
  | _ :: rest => lookups rest
  end.

Fixpoint call_times (tr : list event) : list Q :=
  match tr with
  | [] => []
  | Called _ ts :: rest => ts :: call_times rest
  | _ :: rest => call_times rest
  end.

Fixpoint resolved (tr : list event) : list lookup_record :=
  match tr with
  | [] => []
  | Resolved r :: rest => r :: resolved rest
  | _ :: rest => resolved rest
  end.

(** The rows appended to the Progress Store, in order. *)
Fixpoint stored (tr : list event) : list lookup_record :=
  match tr with
  | [] => []
  | Saved b :: rest => b ++ stored rest
  | _ :: rest => stored rest
  end.

(** For every write, the number of resolutions before it and the batch
    written. *)
Fixpoint writes_from (count : nat) (tr : list event)
  : list (nat * list lookup_record) :=
  match tr with
  | [] => []
  | Resolved _ :: rest => writes_from (S count) rest
  | Saved b :: rest => (count, b) :: writes_from count rest
  | Called _ _ :: rest => writes_from count rest
  end.

Definition writes (tr : list event) : list (nat * list lookup_record) :=
  writes_from 0 tr.

(* ================================================================= *)
(** ** Notions used in the statements *)

(** The sleeps of [k] successive retries after the attempt [attempt]. *)
Definition backoffs (backoff_base : Q) (attempt : Z) (k : nat) : list Q :=
  map (fun j => sleep_s backoff_base (attempt + Z.of_nat j)) (seq 1 k).

(** A failure with a status code of the 5xx class. *)
Definition server_error (o : fetch_outcome) : Prop :=
  exists c, o = HTTPError (Some c) /\ 500 <= c < 600.

(** The [try] block of [iso_utc] with its handler. *)
Definition convert (ts_unix : pyval) : result (option string) :=
  try_except_Exception
    (n <- Py.int ts_unix ;;
     dt <- Datetime.fromtimestamp_utc n ;;
     Ret (Some (Datetime.isoformat dt)))
    (fun _ => Ret None).

(** The [status] object and the body of a confirmed transaction. *)
Definition confirmed_status : list (string * pyval) :=
  [("confirmed", PBool true); ("block_height", PInt 423000);
   ("block_time", PInt 1470150000); ("block_hash", PStr "00ab")].

Definition confirmed_example : pyval :=
  PDict [("status", PDict confirmed_status)].

(** A response whose [status] object is missing, is empty, or says
    that the transaction is not confirmed. *)
Inductive unconfirmed_response : pyval -> Prop :=
| status_missing (d : list (string * pyval)) :
    assoc "status" d = None -> unconfirmed_response (PDict d)
| status_empty (d : list (string * pyval)) :
    assoc "status" d = Some (PDict []) -> unconfirmed_response (PDict d)
| status_not_confirmed (d s : list (string * pyval)) :
    assoc "status" d = Some (PDict s) ->
    assoc "confirmed" s = Some (PBool false) ->
    unconfirmed_response (PDict d).

(** The timestamp an object stands for, if [int()] accepts the object
    and the date is one of the years 1 to 9999. *)
Definition valid_timestamp (v : pyval) : option Z :=
  match Py.int v with
  | Ret n =>
      if (Datetime.MIN_TIMESTAMP <=? n) && (n <=? Datetime.MAX_TIMESTAMP)
      then Some n else None
  | Raise _ => None
  end.

(** Between two checkpoints, the rows of the store followed by the
    pending batch are the records resolved so far. *)
Definition pending_or_stored (st : engine_state) : Prop :=
  stored (trace st) ++ results_batch st = resolved (trace st).

(** Right after a write, the store alone has them all. *)
Definition all_stored (st : engine_state) : Prop :=
  stored (trace st) = resolved (trace st).

(** An environment in which no interrupt arrives and the network
    raises nothing beyond [Exception]. *)
Definition quiet (env : environment) : Prop :=
  (forall i, interrupt env i = None) /\
  (forall api_base txid k e,
      net env api_base txid k = Failure e -> is_Exception e = true).

(** The backoff sleeps of the attempts 1 to [n] are durations that
    [time.sleep] takes: the base is not negative and none of them is
    longer than [SLEEP_MAX]. *)
Definition backoffs_fit (backoff_base : Q) (n : Z) : Prop :=
  (0 <= backoff_base)%Q
  /\ forall attempt, 1 <= attempt <= n ->
                     (sleep_s backoff_base attempt <= SLEEP_MAX)%Q.

(** The limiter asks [time.sleep] for no more than it takes: the rate
    is not positive (it never sleeps), or an interval of [1/rate] fits
    and the clock does not run backwards, that is, it starts at 0 or
    later and no lookup takes a negative time. *)
Definition limiter_fits (env : environment) (rate : Q) : Prop :=
  (rate <= 0)%Q
  \/ ((1 / rate <= SLEEP_MAX)%Q
      /\ (0 <= start_time env)%Q
      /\ forall i, (0 <= work_time env i)%Q).

(** The test of the periodic checkpoint, for a divisor that is not 0. *)
Definition checkpoint_due (checkpoint_every : Z) (n i : nat) : bool :=
  (Z.of_nat i mod checkpoint_every =? 0) || (i =? n)%nat.

(** The writes that checkpoints make while the records [recs] are
    resolved from the counter [i] on, starting with the batch
    [pending]: the counter at each write and the batch written. *)
Fixpoint expected_writes (checkpoint_every : Z) (n i : nat)
    (pending recs : list lookup_record) : list (nat * list lookup_record) :=
  match recs with
  | [] => []
  | r :: rest =>
      if checkpoint_due checkpoint_every n i
      then (i, pending ++ [r])
             :: expected_writes checkpoint_every n (S i) [] rest
      else expected_writes checkpoint_every n (S i) (pending ++ [r]) rest
  end.

(** The batch that is pending after them. *)
Fixpoint pending_after (checkpoint_every : Z) (n i : nat)
    (pending recs : list lookup_record) : list lookup_record :=
  match recs with
  | [] => pending
  | r :: rest =>
      if checkpoint_due checkpoint_every n i
      then pending_after checkpoint_every n (S i) [] rest
      else pending_after checkpoint_every n (S i) (pending ++ [r]) rest
  end.

(** The pieces of a list between successive positions. *)
Fixpoint split_at {A : Type} (prev : nat) (points : list nat) (l : list A)
  : list (list A) :=
  match points with
  | [] => []
  | p :: rest =>
      firstn (p - prev) l :: split_at p rest (skipn (p - prev) l)
  end.

(** Successive instants at least [gap] apart. *)
Fixpoint spaced (gap : Q) (l : list Q) : Prop :=
  match l with
  | a :: (b :: _) as rest => (a + gap <= b)%Q /\ spaced gap rest
  | _ => True
  end.

(** The calls made so far are [gap] apart and none is later than
    [last_call_ts]. *)
Definition times_ok (gap : Q) (st : engine_state) : Prop :=
  spaced gap (call_times (trace st)) /\
  forall t, In t (call_times (trace st)) -> (t <= last_call_ts st)%Q.

(** An environment and an input for examples: every key is unknown to
    the service, the clock starts at 1000 s, a lookup takes 0.1 s. *)
Definition example_env : environment :=
  {| net := fun _ _ _ => HTTPError (Some 404);
     start_time := 1000;
     gate_delay := fun _ => 0%Q;
     work_time := fun _ => (1 # 10)%Q;
     interrupt := fun _ => None |}.

Definition example_input : dataframe :=
  [("txid", [Some "A"; Some " b "; None; Some "a"; Some "c"; Some "d";
             Some "e"; Some "f"; Some "g"; Some "h"])].

(** The same environment with an interrupt in the rate limiter of the
    fifth iteration. *)
Definition interrupted_env : environment :=
  {| net := net example_env;
     start_time := start_time example_env;
     gate_delay := gate_delay example_env;
     work_time := work_time example_env;
     interrupt := fun i => if (i =? 5)%nat then Some InRateLimit else None |}.

(** The same with an interrupt between the write and [clear] of the
    checkpoint of the third iteration. *)
Definition interrupted_after_save_env : environment :=
  {| net := net example_env;
     start_time := start_time example_env;
     gate_delay := gate_delay example_env;
     work_time := work_time example_env;
     interrupt := fun i => if (i =? 3)%nat then Some AfterSave else None |}.

(** A failure after which [robust_lookup] goes round its loop again:
    an HTTP error that is neither 404 nor another final 4xx, a
    connection error or a timeout. *)
Definition retryable (o : fetch_outcome) : bool :=
  match o with
  | HTTPError status_code =>
      negb (match status_code with Some c => c =? 404 | None => false end)
      && negb (client_error_final status_code)
  | ConnectionError | Timeout => true
  | Response _ | Failure _ => false
  end.

(** The error text after the last retry, by the kind of the failure
    that used the retries up. *)
Definition exhaustion_message (last_failure : fetch_outcome) (max_retries : Z)
  : string :=
  match last_failure with
  | HTTPError _ =>
      ("HTTP error after " ++ str_of_int max_retries ++ " retries")%string
  | _ =>
      ("Network/Timeout after " ++ str_of_int max_retries ++ " retries")%string
  end.

(** The batches written to the store, in order. *)
Fixpoint batches (tr : list event) : list (list lookup_record) :=
  match tr with
  | [] => []
  | Saved b :: rest => b :: batches rest
  | _ :: rest => batches rest
  end.

(** A record that [robust_lookup] returns for some key, with the
    defaults of the engine. *)
Definition looked_up (env : environment) (source0 : string)
    (r : lookup_record) : Prop :=
  exists t,
    outcome (robust_lookup (net env) t source0
                           default_max_retries default_backoff_base) = Ret r.

(** What holds of the records of a run for the source [source0]:
    the keys looked up are those of the records resolved, followed by
    [in_flight]; every record was returned by [robust_lookup]; the
    pending batch and the rows of the store are records resolved in
    this run; no batch written is empty. *)
Definition records_ok (env : environment) (source0 : string)
    (in_flight : list string) (st : engine_state) : Prop :=
  lookups (trace st) = map txid (resolved (trace st)) ++ in_flight
  /\ Forall (looked_up env source0) (resolved (trace st))
  /\ incl (results_batch st) (resolved (trace st))
  /\ incl (stored (trace st)) (resolved (trace st))
  /\ Forall (fun b => b <> []) (batches (trace st)).

(* ================================================================= *)
(** ** The Progress Store file and the merged output *)

(** The keys of the dict that [robust_lookup] returns, in the order in
    which they were inserted: a dict without error is the dict of the
    block fields updated with [txid], [api_source] and [error]; a dict
    with an error is written out with [txid] first. *)
Definition success_keys : list string :=
  ["block_height"; "block_time_unix"; "block_time_utc_iso"; "block_hash";
   "txid"; "api_source"; "error"].

Definition failure_keys : list string :=
  ["txid"; "block_height"; "block_time_unix"; "block_time_utc_iso";
   "block_hash"; "api_source"; "error"].

Definition record_keys (r : lookup_record) : list string :=
  match error r with
  | None => success_keys
  | Some _ => failure_keys
  end.

Definition of_option (o : option string) : pyval :=
  match o with Some s => PStr s | None => PNone end.

(** [r[key]] *)
Definition record_value (r : lookup_record) (key : string) : pyval :=
  if String.eqb key "txid" then PStr (txid r)
  else if String.eqb key "block_height" then block_height (fields r)
  else if String.eqb key "block_time_unix" then block_time_unix (fields r)
  else if String.eqb key "block_time_utc_iso"
       then of_option (block_time_utc_iso (fields r))
  else if String.eqb key "block_hash" then block_hash (fields r)
  else if String.eqb key "api_source" then PStr (api_source r)
  else if String.eqb key "error" then of_option (error r)
  else PNone.

(** [pd.DataFrame(results_batch)]: the columns are the keys of the
    records in the order of their first appearance, which is the order
    of the keys of the first record (pandas 0.25 and later), and a row
    holds the values of a record under these columns. *)
Definition batch_columns (batch : list lookup_record) : list string :=
  match batch with
  | [] => []
  | r :: _ => record_keys r
  end.

Definition batch_rows (batch : list lookup_record) : list (list pyval) :=
  map (fun r => map (record_value r) (batch_columns batch)) batch.

(** The file [output_csv]: missing, of size 0, not empty and such
    that [pd.read_csv] raises an [Exception], or a header line followed
    by lines of cells.  A cell holds the value that was written. *)
Inductive store_file :=
| Absent
| Empty
| Unreadable
| Table (header : list string) (rows : list (list pyval)).

(** [load_existing_results(output_csv)]: the columns and the rows. *)
Definition load_existing_results (output_csv : store_file)
  : list string * list (list pyval) :=
  match output_csv with
  | Table header rows => (header, rows)
  | Absent | Empty | Unreadable => (failure_keys, [])
  end.

(** The texts that [pd.read_csv] reads as a missing value. *)
Definition na_values : list string :=
  [""; "#N/A"; "#N/A N/A"; "#NA"; "-1.#IND"; "-1.#QNAN"; "-NaN"; "-nan";
   "1.#IND"; "1.#QNAN"; "<NA>"; "N/A"; "NA"; "NULL"; "NaN"; "None"; "n/a";
   "nan"; "null"].

(** A cell of a column read with [dtype=str].  [render] is the text
    that [to_csv] wrote for a value that is neither [None] nor a
    string. *)
Definition read_str_cell (render : pyval -> string) (v : pyval) : cell :=
  match v with
  | PNone => None
  | PStr s => if mem s na_values then None else Some s
  | _ => if mem (render v) na_values then None else Some (render v)
  end.

Fixpoint index_of (k : string) (l : list string) : option nat :=
  match l with
  | [] => None
  | x :: rest =>
      if String.eqb k x then Some O
      else match index_of k rest with Some i => Some (S i) | None => None end
  end.

(** [existing["txid"]] where the frame is not empty, and no column
    where it is: what [have] is computed from. *)
Definition existing_txid_column (render : pyval -> string)
    (existing : list string * list (list pyval)) : result (list cell) :=
  match snd existing with
  | [] => Ret []
  | _ :: _ =>
      match index_of "txid" (fst existing) with
      | None => Raise (Exn KeyError "'txid'")
      | Some i =>
          Ret (map (fun row => read_str_cell render (nth i row PNone))
                   (snd existing))
      end
  end.

(** What [save_results_incremental(pd.DataFrame(batch), output_csv)]
    makes of the file: a header and the rows where the file was missing
    or of size 0, the rows alone under the header that is there
    otherwise.  Not modelled ([None]): an empty batch, an unreadable
    file, and a header that has not the seven columns of a row. *)
Definition append_to_csv (output_csv : store_file)
    (batch : list lookup_record) : option store_file :=
  match batch with
  | [] => None
  | _ :: _ =>
      match output_csv with
      | Absent | Empty => Some (Table (batch_columns batch) (batch_rows batch))
      | Table header rows =>
          if (List.length header =? 7)%nat
          then Some (Table header (rows ++ batch_rows batch))
          else None
      | Unreadable => None
      end
  end.

(** The file after the writes of a run. *)
Fixpoint file_after (output_csv : store_file)
    (written : list (list lookup_record)) : option store_file :=
  match written with
  | [] => Some output_csv
  | batch :: rest =>
      match append_to_csv output_csv batch with
      | Some f => file_after f rest
      | None => None
      end
  end.

(** [enrich_txids_with_block_info] with the file [output_csv] in the
    place of the column read from it, up to the end of
    [try]/[finally]. *)
Definition enrich_with_store (render : pyval -> string) (env : environment)
    (input_csv : dataframe) (txid_column : string)
    (output_csv : store_file) (api_source : string)
    (rate_limit_per_sec : Q) (checkpoint_every : Z)
  : result unit * engine_state :=
  let api_source := str_strip (str_lower api_source) in
  if negb (mem api_source (map fst API_BASES))
  then (Raise (Exn ValueError
                 "api_source must be one of ['blockstream', 'mempool']"),
        initial_state env)
  else
    match unique_txids_from_csv input_csv txid_column with
    | Raise e => (Raise e, initial_state env)
    | Ret txids =>
        match existing_txid_column render
                (load_existing_results output_csv) with
        | Raise e => (Raise e, initial_state env)
        | Ret existing_txid =>
            run_loop env api_source rate_limit_per_sec checkpoint_every
                     (to_fetch txids existing_txid)
        end
    end.

(** A left join by rows: for every row of the input, in order, the rows
    of the store with an equal key (two missing keys are equal), in
    order, or no row of the store.  A row of the result is the number
    of the input row and the row of the store joined to it. *)
Definition cell_eqb (a b : cell) : bool :=
  match a, b with
  | Some x, Some y => String.eqb x y
  | None, None => true
  | _, _ => false
  end.

Definition matches_of (key : cell) (store_rows : list (cell * list pyval))
  : list (list pyval) :=
  map snd (filter (fun kr => cell_eqb key (fst kr)) store_rows).

Fixpoint merge_left (i : nat) (input_keys : list cell)
    (store_rows : list (cell * list pyval))
  : list (nat * option (list pyval)) :=
  match input_keys with
  | [] => []
  | key :: rest =>
      match matches_of key store_rows with
      | [] => [(i, None)]
      | ms => map (fun r => (i, Some r)) ms
      end ++ merge_left (S i) rest store_rows
  end.

(** A column of the input in which every cell is missing is read by
    [pd.read_csv] as a column of floats, not of strings. *)
Definition all_missing (col : list cell) : bool :=
  forallb (fun c => match c with None => true | Some _ => false end) col.

(** [src.merge(final_df, how="left", left_on=txid_column,
    right_on="txid")] for an input column of strings.  The keys are
    looked up first ([KeyError]); then, where both tables have rows,
    the types of the two key columns are compared, and a column of
    floats against the column of strings of the store is refused
    ([ValueError], with the text of pandas 1). *)
Definition merged_output (render : pyval -> string) (input_csv : dataframe)
    (txid_column : string) (final_df : list string * list (list pyval))
  : result (list (nat * option (list pyval))) :=
  match assoc txid_column input_csv with
  | None => Raise (Exn KeyError ("'" ++ txid_column ++ "'")%string)
  | Some input_keys =>
      match index_of "txid" (fst final_df) with
      | None => Raise (Exn KeyError "'txid'")
      | Some i =>
          let joined :=
            merge_left 0 input_keys
              (map (fun row => (read_str_cell render (nth i row PNone), row))
                   (snd final_df)) in
          match input_keys, snd final_df with
          | _ :: _, _ :: _ =>
              if all_missing input_keys
              then Raise (Exn ValueError
                            ("You are trying to merge on float64 and object "
                               ++ "columns. If you wish to proceed you should "
                               ++ "use pd.concat")%string)
              else Ret joined
          | _, _ => Ret joined
          end
      end
  end.

(** The [txid] read back for the row of the record [r], written in the
    batch [batch], from a file with the header [header]. *)
Definition txid_cell (render : pyval -> string) (header : list string)
    (batch : list lookup_record) (r : lookup_record) : cell :=
  match index_of "txid" header with
  | Some i =>
      read_str_cell render
        (nth i (map (record_value r) (batch_columns batch)) PNone)
  | None => None
  end.

(** Batches whose columns are all in the order of the first. *)
Definition aligned (written : list (list lookup_record)) : Prop :=
  match written with
  | [] => True
  | first :: _ =>
      Forall (fun b => batch_columns b = batch_columns first) written
  end.

(** A service that knows the key "a" only. *)
Definition mixed_env : environment :=
  {| net := fun _ t _ =>
              if String.eqb t "a" then Response confirmed_example
              else HTTPError (Some 404);
     start_time := 1000;
     gate_delay := fun _ => 0%Q;
     work_time := fun _ => (1 # 10)%Q;
     interrupt := fun _ => None |}.

(** The [txid] column of [example_input], and the rows of a store that
    holds a failure for ["a"] and one for ["c"]. *)
Definition example_keys : list cell :=
  [Some "A"; Some " b "; None; Some "a"; Some "c"; Some "d";
   Some "e"; Some "f"; Some "g"; Some "h"].

Definition example_store_rows : list (list pyval) :=
  [[PStr "a"; PNone; PNone; PNone; PNone; PStr "blockstream";
    PStr "404 Not Found"];
   [PStr "c"; PNone; PNone; PNone; PNone; PStr "blockstream";
    PStr "HTTP 400"]].

(** *** The calendar of [datetime] *)

(** The arithmetic by which CPython's [datetime] counts the days of a
    date ([_is_leap], [_days_before_year], [_days_in_month],
    [_days_before_month], [_ymd2ord]): day 1 is 0001-01-01, and
    1970-01-01 is day 719163. *)
Definition is_leap (year : Z) : bool :=
  (year mod 4 =? 0) && (negb (year mod 100 =? 0) || (year mod 400 =? 0)).

Definition days_before_year (year : Z) : Z :=
  let y := year - 1 in y * 365 + y / 4 - y / 100 + y / 400.

Definition DAYS_IN_MONTH : list Z :=
  [-1; 31; 28; 31; 30; 31; 30; 31; 31; 30; 31; 30; 31].

Definition DAYS_BEFORE_MONTH : list Z :=
  [-1; 0; 31; 59; 90; 120; 151; 181; 212; 243; 273; 304; 334].

Definition days_in_month (year month : Z) : Z :=
  if (month =? 2) && is_leap year then 29
  else nth (Z.to_nat month) DAYS_IN_MONTH 0.

Definition days_before_month (year month : Z) : Z :=
  nth (Z.to_nat month) DAYS_BEFORE_MONTH 0
  + (if (2 <? month) && is_leap year then 1 else 0).

Definition ymd2ord (year month day : Z) : Z :=
  days_before_year year + days_before_month year month + day.

(** The fields that [datetime] accepts. *)
Definition valid_datetime (dt : Datetime.datetime) : Prop :=
  1 <= Datetime.year dt <= 9999
  /\ 1 <= Datetime.month dt <= 12
  /\ 1 <= Datetime.day dt
     <= days_in_month (Datetime.year dt) (Datetime.month dt)
  /\ 0 <= Datetime.hour dt <= 23
  /\ 0 <= Datetime.minute dt <= 59
  /\ 0 <= Datetime.second dt <= 59.

(** [dt.timestamp()] of an aware [dt] in UTC: the seconds from
    1970-01-01T00:00:00 to [dt]. *)
Definition timestamp_of (dt : Datetime.datetime) : Z :=
  (ymd2ord (Datetime.year dt) (Datetime.month dt) (Datetime.day dt) - 719163)
  * 86400
  + Datetime.hour dt * 3600 + Datetime.minute dt * 60 + Datetime.second dt.

(** The number that a text of decimal digits stands for. *)
Definition decimal (s : string) : option Z :=
  option_map Z.of_int (NilZero.int_of_string s).

(** [P] on the [count] integers from [z] on. *)
Fixpoint all_from (P : Z -> bool) (z : Z) (count : nat) : bool :=
  match count with
  | O => true
  | S c => P z && all_from P (z + 1) c
  end.

(* ================================================================= *)
(** * Properties *)

(** ** Retry policy *)

Lemma sleep_s_nonneg (backoff_base : Q) (attempt : Z) :
  (0 <= backoff_base)%Q -> (0 <= sleep_s backoff_base attempt)%Q.
Proof.
  intros Hb. unfold sleep_s.
  apply Qmult_le_0_compat.
  - now apply Qpower_0_le.
  - assert (Hm : (0 <= inject_Z (attempt mod 3))%Q).
    { change 0%Q with (inject_Z 0). rewrite <- Zle_Qle.
      apply Z.mod_pos_bound. lia. }
    lra.
Qed.

Lemma SLEEP_MAX_finite : (SLEEP_MAX <= FLOAT_MAX)%Q.
Proof. unfold Qle. vm_compute. discriminate. Qed.

Lemma SLEEP_MAX_pos : (0 < SLEEP_MAX)%Q.
Proof. reflexivity. Qed.

(** A duration that fits is slept. *)
Lemma time_sleep_fits (d : Q) :
  (0 <= d <= SLEEP_MAX)%Q -> time_sleep d = Ret tt.
Proof.
  intros [Hlo Hhi]. unfold time_sleep.
  pose proof SLEEP_MAX_pos as Hpos.
  assert (H1 : Qle_bool (- SLEEP_MAX) d = true)
    by (apply Qle_bool_iff; lra).
  assert (H2 : Qle_bool d SLEEP_MAX = true) by (now apply Qle_bool_iff).
  assert (H3 : Qle_bool 0 d = true) by (now apply Qle_bool_iff).
  now rewrite H1, H2, H3.
Qed.

(** A duration that does not fit is refused with [OverflowError]. *)
Lemma time_sleep_overflows (d : Q) :
  (d < - SLEEP_MAX)%Q \/ (SLEEP_MAX < d)%Q ->
  time_sleep d
  = Raise (Exn OverflowError "timestamp too large to convert to C _PyTime_t").
Proof.
  intros Hd. unfold time_sleep.
  assert (H : Qle_bool (- SLEEP_MAX) d && Qle_bool d SLEEP_MAX = false).
  { apply andb_false_iff. destruct Hd as [Hd | Hd]; [ left | right ].
    - destruct (Qle_bool (- SLEEP_MAX) d) eqn:E; [ | reflexivity ].
      apply Qle_bool_iff in E. lra.
    - destruct (Qle_bool d SLEEP_MAX) eqn:E; [ | reflexivity ].
      apply Qle_bool_iff in E. lra. }
  now rewrite H.
Qed.

(** A negative duration that fits is refused with [ValueError]. *)
Lemma time_sleep_negative (d : Q) :
  (- SLEEP_MAX <= d < 0)%Q ->
  time_sleep d = Raise (Exn ValueError "sleep length must be non-negative").
Proof.
  intros [Hlo Hhi]. unfold time_sleep.
  pose proof SLEEP_MAX_pos as Hpos.
  assert (H1 : Qle_bool (- SLEEP_MAX) d = true) by (now apply Qle_bool_iff).
  assert (H2 : Qle_bool d SLEEP_MAX = true) by (apply Qle_bool_iff; lra).
  assert (H3 : Qle_bool 0 d = false).
  { destruct (Qle_bool 0 d) eqn:E; [ | reflexivity ].
    apply Qle_bool_iff in E. lra. }
  now rewrite H1, H2, H3.
Qed.

Lemma power_le_sleep_s (backoff_base : Q) (attempt : Z) :
  (0 <= backoff_base)%Q ->
  (0 <= backoff_base ^ attempt <= sleep_s backoff_base attempt)%Q.
Proof.
  intros Hb. unfold sleep_s.
  assert (Hp : (0 <= backoff_base ^ attempt)%Q) by (now apply Qpower_0_le).
  assert (Hm : (0 <= inject_Z (attempt mod 3))%Q).
  { change 0%Q with (inject_Z 0). rewrite <- Zle_Qle.
    apply Z.mod_pos_bound. lia. }
  set (p := (backoff_base ^ attempt)%Q) in *.
  set (m := inject_Z (attempt mod 3)) in *.
  split; [ assumption | ].
  assert (Hpm : (0 <= p * m)%Q) by (now apply Qmult_le_0_compat).
  lra.
Qed.

(** Within the bound, a backoff sleep is slept. *)
Lemma backoff_sleep_fits (backoff_base : Q) (n attempt : Z) :
  backoffs_fit backoff_base n -> 1 <= attempt <= n ->
  backoff_sleep backoff_base attempt = Ret tt.
Proof.
  intros [Hb Hfit] Ha. specialize (Hfit attempt Ha).
  destruct (power_le_sleep_s backoff_base attempt Hb) as [Hp Hps].
  pose proof SLEEP_MAX_finite as Hfin.
  unfold backoff_sleep, float_pow.
  assert (Hpow : Qle_bool (Qabs (backoff_base ^ attempt)) FLOAT_MAX = true).
  { apply Qle_bool_iff. rewrite (Qabs_pos _ Hp).
    apply Qle_trans with (sleep_s backoff_base attempt); [ assumption | ].
    now apply Qle_trans with SLEEP_MAX. }
  rewrite Hpow. cbn [Py.bind].
  apply time_sleep_fits. split; [ | assumption ].
  now apply Qle_trans with (backoff_base ^ attempt)%Q.
Qed.

(** The defaults of the engine are within the bound. *)
Lemma default_backoffs_fit :
  backoffs_fit default_backoff_base default_max_retries.
Proof.
  split; [ discriminate | ].
  unfold default_max_retries. intros attempt Ha.
  assert (Hcase : attempt = 1 \/ attempt = 2 \/ attempt = 3 \/ attempt = 4
                  \/ attempt = 5) by lia.
  destruct Hcase as [-> | [-> | [-> | [-> | ->]]]];
    unfold Qle; vm_compute; discriminate.
Qed.

Lemma method_get_raises (v : pyval) (k : string) (e : exn) :
  method_get v k = Raise e -> is_Exception e = true.
Proof. destruct v; cbn; intros H; inversion H; reflexivity. Qed.

Lemma int_raises (v : pyval) (e : exn) :
  Py.int v = Raise e -> is_Exception e = true.
Proof.
  destruct v as [ | b | z | [ | n | q ] | s | l | d ]; cbn;
    try discriminate; try (intros H; inversion H; reflexivity).
  unfold int_of_str.
  destruct (rstrip_with _ _) as [ | c rest ];
    [ | destruct (code c =? 45); [ | destruct (code c =? 43) ] ];
    (destruct (scan_digits _ _ _ _) as [ [n count] | ];
     [ destruct (int_max_str_digits <? count)%nat | ]);
    try discriminate; intros H; inversion H; reflexivity.
Qed.

Lemma fromtimestamp_raises (n : Z) (e : exn) :
  Datetime.fromtimestamp_utc n = Raise e -> is_Exception e = true.
Proof.
  unfold Datetime.fromtimestamp_utc.
  destruct (_ && _).
  - destruct (Datetime.civil_from_days _) as [[y m] d]. discriminate.
  - intros H; inversion H; reflexivity.
Qed.

Lemma convert_returns (v : pyval) : exists r, convert v = Ret r.
Proof.
  unfold convert.
  destruct (Py.int v) as [n | e] eqn:Hn; cbn.
  - destruct (Datetime.fromtimestamp_utc n) as [dt | e] eqn:Hd; cbn.
    + eauto.
    + rewrite (fromtimestamp_raises _ _ Hd). eauto.
  - rewrite (int_raises _ _ Hn). eauto.
Qed.

Lemma iso_utc_raises (v : pyval) (e : exn) :
  iso_utc v = Raise e -> is_Exception e = true.
Proof.
  unfold iso_utc. fold (convert v).
  destruct (convert_returns v) as [r ->].
  destruct v as [ | b | z | [ | n | q ] | s | l | d ];
    try (cbn; discriminate).
  unfold Pandas.isna.
  destruct (List.map Pandas.checknull _) as [ | b [ | c bs ] ]; cbn.
  - discriminate.
  - destruct b; discriminate.
  - intros H; inversion H; reflexivity.
Qed.

Lemma extract_raises (tx_json : pyval) (e : exn) :
  extract_block_fields_from_esplora tx_json = Raise e ->
  is_Exception e = true.
Proof.
  unfold extract_block_fields_from_esplora.
  set (status := match tx_json with PDict d => _ | _ => _ end).
  destruct (negb (truthy status)); cbn; [ discriminate | ].
  destruct (method_get status "confirmed") eqn:Hc; cbn;
    [ | intros H; inversion H; subst; eauto using method_get_raises ].
  destruct (negb (truthy a)); cbn; [ discriminate | ].
  destruct (method_get status "block_height") eqn:Hh; cbn;
    [ | intros H; inversion H; subst; eauto using method_get_raises ].
  destruct (method_get status "block_time") eqn:Ht; cbn;
    [ | intros H; inversion H; subst; eauto using method_get_raises ].
  destruct (iso_utc a1) eqn:Hi; cbn;
    [ | intros H; inversion H; subst; eauto using iso_utc_raises ].
  destruct (method_get status "block_hash") eqn:Hx; cbn;
    [ discriminate | intros H; inversion H; subst; eauto using method_get_raises ].
Qed.

(** ** The calendar *)

Lemma is_leap_true (y : Z) :
  is_leap y = true -> y mod 4 = 0 /\ (y mod 100 <> 0 \/ y mod 400 = 0).
Proof.
  unfold is_leap. intros H. apply andb_true_iff in H. destruct H as [H4 H].
  apply Z.eqb_eq in H4. split; [ exact H4 | ].
  apply orb_true_iff in H. destruct H as [H | H].
  - left. apply negb_true_iff in H. now apply Z.eqb_neq in H.
  - right. now apply Z.eqb_eq in H.
Qed.

Lemma is_leap_false (y : Z) :
  is_leap y = false -> y mod 4 <> 0 \/ (y mod 100 = 0 /\ y mod 400 <> 0).
Proof.
  unfold is_leap. intros H. apply andb_false_iff in H. destruct H as [H | H].
  - left. now apply Z.eqb_neq in H.
  - right. apply orb_false_iff in H. destruct H as [H1 H2].
    apply negb_false_iff in H1. apply Z.eqb_eq in H1. apply Z.eqb_neq in H2.
    now split.
Qed.

Ltac eval_closed :=
  repeat match goal with
    | |- context [Z.ltb ?a ?b] =>
        let v := eval vm_compute in (Z.ltb a b) in
        progress change (Z.ltb a b) with v
    | |- context [Z.leb ?a ?b] =>
        let v := eval vm_compute in (Z.leb a b) in
        progress change (Z.leb a b) with v
    | |- context [Z.eqb ?a ?b] =>
        let v := eval vm_compute in (Z.eqb a b) in
        progress change (Z.eqb a b) with v
    | |- context [nth ?n ?l ?d] =>
        let v := eval vm_compute in (nth n l d) in
        progress change (nth n l d) with v
    | _ => progress cbv beta iota
    | _ => progress cbn [andb]
    end.

(** The date that [civil_from_days] gives for a count of days from
    1970-01-01 is a date of the calendar, and it is the date of that
    day. *)
Lemma civil_from_days_ordinal (days : Z) :
  let '(y, m, d) := Datetime.civil_from_days days in
  1 <= m <= 12 /\ 1 <= d <= days_in_month y m
  /\ ymd2ord y m d = days + 719163.
Proof.
  unfold Datetime.civil_from_days.
  set (z := days + 719468). set (era := z / 146097).
  set (doe := z - era * 146097).
  assert (Hdoe : 0 <= doe < 146097)
    by (subst doe era; Z.div_mod_to_equations; lia).
  set (yoe := (doe - doe / 1460 + doe / 36524 - doe / 146096) / 365).
  set (doy := doe - (365 * yoe + yoe / 4 - yoe / 100)).
  assert (Hy : 0 <= yoe <= 399 /\ 0 <= doy <= 365)
    by (subst yoe doy; Z.div_mod_to_equations; lia).
  assert (Hleap : doy = 365 -> is_leap (yoe + 1) = true).
  { intros H365. unfold is_leap.
    assert ((yoe + 1) mod 4 = 0
            /\ ((yoe + 1) mod 100 <> 0 \/ (yoe + 1) mod 400 = 0))
      as [H4 H100] by (subst yoe doy; Z.div_mod_to_equations; lia).
    rewrite H4. cbn. destruct H100 as [H100 | H400].
    - apply Z.eqb_neq in H100. now rewrite H100.
    - rewrite H400. cbn. now rewrite orb_true_r. }
  set (mp := (5 * doy + 2) / 153).
  assert (Hmp : 0 <= mp <= 11) by (subst mp; Z.div_mod_to_equations; lia).
  assert (Hcase : mp = 0 \/ mp = 1 \/ mp = 2 \/ mp = 3 \/ mp = 4 \/ mp = 5
                  \/ mp = 6 \/ mp = 7 \/ mp = 8 \/ mp = 9 \/ mp = 10
                  \/ mp = 11) by lia.
  assert (Hmpdef : mp = (5 * doy + 2) / 153) by reflexivity.
  clearbody mp.
  assert (Hleap' : is_leap (yoe + era * 400 + 1) = is_leap (yoe + 1)).
  { unfold is_leap.
    replace ((yoe + era * 400 + 1) mod 4) with ((yoe + 1) mod 4)
      by (Z.div_mod_to_equations; lia).
    replace ((yoe + era * 400 + 1) mod 100) with ((yoe + 1) mod 100)
      by (Z.div_mod_to_equations; lia).
    replace ((yoe + era * 400 + 1) mod 400) with ((yoe + 1) mod 400)
      by (Z.div_mod_to_equations; lia).
    reflexivity. }
  assert (Hfeb : is_leap (yoe + era * 400 + 1) = false -> doy <> 365).
  { intros Hl H365. rewrite Hleap', (Hleap H365) in Hl. discriminate. }
  clear Hleap Hleap'.
  repeat (destruct Hcase as [Hcase | Hcase]); subst mp;
    unfold days_in_month, ymd2ord, days_before_month, days_before_year;
    eval_closed;
    try (match goal with
         | |- context [is_leap ?y] => destruct (is_leap y) eqn:Hl
         end;
         [ apply is_leap_true in Hl
         | try (specialize (Hfeb eq_refl)); apply is_leap_false in Hl ]);
    try clear Hfeb;
    subst doy yoe doe era z; Z.div_mod_to_equations; lia.
Qed.

Lemma days_in_month_bound (y m : Z) : 1 <= m <= 12 -> days_in_month y m <= 31.
Proof.
  intros Hm. unfold days_in_month.
  destruct ((m =? 2) && is_leap y); [ lia | ].
  assert (Hcase : m = 1 \/ m = 2 \/ m = 3 \/ m = 4 \/ m = 5 \/ m = 6 \/ m = 7
                  \/ m = 8 \/ m = 9 \/ m = 10 \/ m = 11 \/ m = 12) by lia.
  repeat (destruct Hcase as [Hcase | Hcase]); subst m; vm_compute;
    discriminate.
Qed.

Lemma days_before_month_bound (y m : Z) :
  1 <= m <= 12 -> 0 <= days_before_month y m <= 335.
Proof.
  intros Hm. unfold days_before_month.
  assert (Hcase : m = 1 \/ m = 2 \/ m = 3 \/ m = 4 \/ m = 5 \/ m = 6 \/ m = 7
                  \/ m = 8 \/ m = 9 \/ m = 10 \/ m = 11 \/ m = 12) by lia.
  repeat (destruct Hcase as [Hcase | Hcase]); subst m; eval_closed;
    destruct (is_leap y); lia.
Qed.

(** A timestamp of the years 1 to 9999 is turned into a [datetime] with
    valid fields, whose own timestamp it is. *)
Lemma fromtimestamp_utc_valid (n : Z) :
  Datetime.MIN_TIMESTAMP <= n <= Datetime.MAX_TIMESTAMP ->
  exists dt,
    Datetime.fromtimestamp_utc n = Ret dt
    /\ valid_datetime dt /\ timestamp_of dt = n.
Proof.
  intros Hn. unfold Datetime.fromtimestamp_utc.
  replace ((Datetime.MIN_TIMESTAMP <=? n) && (n <=? Datetime.MAX_TIMESTAMP))
    with true by (symmetry; apply andb_true_iff; split; apply Z.leb_le; lia).
  pose proof (civil_from_days_ordinal (n / 86400)) as Hc.
  destruct (Datetime.civil_from_days (n / 86400)) as [[y m] d].
  destruct Hc as (Hm & Hd & Hord).
  eexists. split; [ reflexivity | ].
  pose proof (days_in_month_bound y m Hm) as Hdim.
  pose proof (days_before_month_bound y m Hm) as Hdbm.
  unfold Datetime.MIN_TIMESTAMP, Datetime.MAX_TIMESTAMP in Hn.
  unfold valid_datetime, timestamp_of. cbn [Datetime.year Datetime.month
    Datetime.day Datetime.hour Datetime.minute Datetime.second].
  rewrite Hord.
  assert (Hy : 1 <= y <= 9999).
  { unfold ymd2ord, days_before_year in Hord.
    revert Hord Hdbm Hdim Hd Hn. generalize (days_before_month y m).
    generalize (days_in_month y m). intros dim dbm Hord Hdbm Hdim Hd Hn.
    Z.div_mod_to_equations. lia. }
  repeat split; try lia; try (Z.div_mod_to_equations; lia).
Qed.

Section RetryFacts.

Variable fetch : nat -> fetch_outcome.
Variables txid0 source0 : string.
Variable max_retries : Z.
Variable backoff_base : Q.

#[local] Abbreviation loop :=
  (retry_loop fetch txid0 source0 max_retries backoff_base).

(** Induction along the iterations of the loop. *)
Lemma retry_loop_induction (P : Z -> nat -> list Q -> lookup_run -> Prop) :
  (forall attempt ncalls (slept : list Q),
      (attempt + 1 <= max_retries ->
       P (attempt + 1) (S ncalls)
         (slept ++ [sleep_s backoff_base (attempt + 1)])
         (loop (attempt + 1) (S ncalls)
               (slept ++ [sleep_s backoff_base (attempt + 1)]))) ->
      P attempt ncalls slept (loop attempt ncalls slept)) ->
  forall attempt ncalls slept, P attempt ncalls slept (loop attempt ncalls slept).
Proof.
  intros Hstep attempt.
  remember (Z.to_nat (max_retries - attempt)) as m eqn:Hm.
  revert attempt Hm.
  induction m as [m IH] using lt_wf_ind.
  intros attempt Hm ncalls slept.
  apply Hstep. intros Hle.
  eapply IH; [ | reflexivity ]. lia.
Qed.

(** Whatever the network does, a record that comes back names the key
    and the source, and carries block fields only without an error. *)
Lemma retry_loop_record (attempt : Z) (ncalls : nat) (slept : list Q)
      (rec : lookup_record) :
  outcome (loop attempt ncalls slept) = Ret rec ->
  txid rec = txid0 /\ api_source rec = source0 /\
  (error rec <> None -> fields rec = no_block).
Proof.
  revert rec.
  apply (retry_loop_induction
           (fun _ _ _ run => forall rec, outcome run = Ret rec ->
              txid rec = txid0 /\ api_source rec = source0 /\
              (error rec <> None -> fields rec = no_block))).
  clear attempt ncalls slept. intros attempt ncalls slept IH rec.
  rewrite retry_loop_equation_1. cbv zeta.
  destruct (fetch ncalls) as [tx | sc | | | e].
  - cbn. destruct (extract_block_fields_from_esplora tx) as [f | x]; cbn.
    + intros H; inversion H; subst; cbn. intuition congruence.
    + destruct (is_Exception x); cbn; intros H; inversion H; subst; cbn; auto.
  - destruct (match sc with Some c => c =? 404 | None => false end);
      [ cbn; intros H; inversion H; subst; cbn; auto | ].
    destruct (client_error_final sc);
      [ cbn; intros H; inversion H; subst; cbn; auto | ].
    destruct (Z_gt_le_dec (attempt + 1) max_retries) as [Hgt | Hle];
      [ cbn; intros H; inversion H; subst; cbn; auto | ].
    destruct (backoff_sleep _ _); [ auto | cbn; discriminate ].
  - destruct (Z_gt_le_dec (attempt + 1) max_retries) as [Hgt | Hle];
      [ cbn; intros H; inversion H; subst; cbn; auto | ].
    destruct (backoff_sleep _ _); [ auto | cbn; discriminate ].
  - destruct (Z_gt_le_dec (attempt + 1) max_retries) as [Hgt | Hle];
      [ cbn; intros H; inversion H; subst; cbn; auto | ].
    destruct (backoff_sleep _ _); [ auto | cbn; discriminate ].
  - cbn. destruct (is_Exception e); cbn; intros H; inversion H; subst; cbn; auto.
Qed.

(** With backoff sleeps that fit and a network that raises nothing
    beyond [Exception], the loop returns a record. *)
Lemma retry_loop_returns (attempt : Z) (ncalls : nat) (slept : list Q) :
  backoffs_fit backoff_base max_retries ->
  (forall k e, fetch k = Failure e -> is_Exception e = true) ->
  0 <= attempt ->
  exists rec, outcome (loop attempt ncalls slept) = Ret rec.
Proof.
  intros Hb Hnet.
  apply (retry_loop_induction
           (fun attempt _ _ run =>
              0 <= attempt -> exists rec, outcome run = Ret rec)).
  clear attempt ncalls slept. intros attempt ncalls slept IH Hpos.
  assert (Hgo : attempt + 1 <= max_retries ->
                backoff_sleep backoff_base (attempt + 1) = Ret tt)
    by (intros Hle; apply (backoff_sleep_fits _ max_retries); [ assumption | lia ]).
  rewrite retry_loop_equation_1. cbv zeta.
  destruct (fetch ncalls) as [tx | sc | | | e] eqn:Hf.
  - cbn. destruct (extract_block_fields_from_esplora tx) as [f | x] eqn:Hx;
      cbn; [ eauto | ].
    rewrite (extract_raises _ _ Hx). eauto.
  - destruct (match sc with Some c => c =? 404 | None => false end);
      [ cbn; eauto | ].
    destruct (client_error_final sc); [ cbn; eauto | ].
    destruct (Z_gt_le_dec (attempt + 1) max_retries); [ cbn; eauto | ].
    rewrite Hgo by assumption. apply IH; [ assumption | lia ].
  - destruct (Z_gt_le_dec (attempt + 1) max_retries); [ cbn; eauto | ].
    rewrite Hgo by assumption. apply IH; [ assumption | lia ].
  - destruct (Z_gt_le_dec (attempt + 1) max_retries); [ cbn; eauto | ].
    rewrite Hgo by assumption. apply IH; [ assumption | lia ].
  - cbn. rewrite (Hnet _ _ Hf). eauto.
Qed.

Lemma backoffs_S (attempt : Z) (k : nat) :
  backoffs backoff_base attempt (S k)
  = sleep_s backoff_base (attempt + 1)
      :: backoffs backoff_base (attempt + 1) k.
Proof.
  unfold backoffs. cbn [seq map]. f_equal.
  rewrite <- seq_shift, map_map. apply map_ext. intros j.
  f_equal. lia.
Qed.

(** Calls and sleeps are bounded by what is left of [max_retries], and
    the sleeps are those of successive attempts. *)
Lemma retry_loop_bounds (attempt : Z) (ncalls : nat) (slept : list Q) :
  exists k : nat,
    (k <= Z.to_nat (max_retries - attempt))%nat /\
    calls (loop attempt ncalls slept) = (S ncalls + k)%nat /\
    sleeps (loop attempt ncalls slept) = slept ++ backoffs backoff_base attempt k.
Proof.
  apply (retry_loop_induction
           (fun attempt ncalls slept run => exists k : nat,
              (k <= Z.to_nat (max_retries - attempt))%nat /\
              calls run = (S ncalls + k)%nat /\
              sleeps run = slept ++ backoffs backoff_base attempt k)).
  clear attempt ncalls slept. intros attempt ncalls slept IH.
  assert (Hstop : forall r,
             exists k : nat,
               (k <= Z.to_nat (max_retries - attempt))%nat /\
               calls {| outcome := r; calls := S ncalls; sleeps := slept |}
               = (S ncalls + k)%nat /\
               sleeps {| outcome := r; calls := S ncalls; sleeps := slept |}
               = slept ++ backoffs backoff_base attempt k).
  { intros r. exists 0%nat. cbn. rewrite app_nil_r.
    repeat split; [ lia | lia ]. }
  assert (Hgo : attempt + 1 <= max_retries ->
                exists k : nat,
                  (k <= Z.to_nat (max_retries - attempt))%nat /\
                  calls (loop (attempt + 1) (S ncalls)
                           (slept ++ [sleep_s backoff_base (attempt + 1)]))
                  = (S ncalls + k)%nat /\
                  sleeps (loop (attempt + 1) (S ncalls)
                            (slept ++ [sleep_s backoff_base (attempt + 1)]))
                  = slept ++ backoffs backoff_base attempt k).
  { intros Hle. destruct (IH Hle) as (k & Hk & Hc & Hs).
    exists (S k). repeat split; [ lia | lia | ].
    rewrite Hs, backoffs_S, <- app_assoc. reflexivity. }
  rewrite retry_loop_equation_1. cbv zeta.
  destruct (fetch ncalls) as [tx | sc | | | e]; auto.
  - destruct (match sc with Some c => c =? 404 | None => false end); auto.
    destruct (client_error_final sc); auto.
    destruct (Z_gt_le_dec (attempt + 1) max_retries); auto.
    destruct (backoff_sleep _ _); auto.
  - destruct (Z_gt_le_dec (attempt + 1) max_retries); auto.
    destruct (backoff_sleep _ _); auto.
  - destruct (Z_gt_le_dec (attempt + 1) max_retries); auto.
    destruct (backoff_sleep _ _); auto.
Qed.

Lemma retry_loop_exhausts (attempt : Z) (ncalls : nat) (slept : list Q) :
  backoffs_fit backoff_base max_retries ->
  (forall k, server_error (fetch k)) ->
  0 <= attempt ->
  loop attempt ncalls slept
  = {| outcome :=
         Ret (failure_record txid0 source0
                ("HTTP error after " ++ str_of_int max_retries
                   ++ " retries")%string);
       calls := S ncalls + Z.to_nat (max_retries - attempt);
       sleeps := slept ++ backoffs backoff_base attempt (Z.to_nat (max_retries - attempt)) |}.
Proof.
  intros Hb Hnet.
  apply (retry_loop_induction
           (fun attempt ncalls slept run =>
              0 <= attempt ->
              run = {| outcome :=
                         Ret (failure_record txid0 source0
                                ("HTTP error after " ++ str_of_int max_retries
                                   ++ " retries")%string);
                       calls := S ncalls + Z.to_nat (max_retries - attempt);
                       sleeps := slept ++ backoffs backoff_base attempt
                                         (Z.to_nat (max_retries - attempt)) |})).
  clear attempt ncalls slept. intros attempt ncalls slept IH Hpos.
  rewrite retry_loop_equation_1. cbv zeta.
  destruct (Hnet ncalls) as (c & -> & Hc).
  replace (c =? 404) with false by lia.
  replace (client_error_final (Some c)) with false
    by (unfold client_error_final; lia).
  destruct (Z_gt_le_dec (attempt + 1) max_retries) as [Hgt | Hle].
  - replace (Z.to_nat (max_retries - attempt)) with 0%nat by lia.
    cbn. rewrite app_nil_r, Nat.add_0_r. reflexivity.
  - rewrite (backoff_sleep_fits _ max_retries) by (assumption || lia).
    rewrite (IH Hle) by lia.
    replace (Z.to_nat (max_retries - attempt))
      with (S (Z.to_nat (max_retries - (attempt + 1)))) by lia.
    rewrite backoffs_S, <- app_assoc. f_equal. lia.
Qed.

End RetryFacts.

(** *** Exhaustion (C1) *)

(** C1, as stated, fails: with [max_retries = 2] and a 503 on every
    call, the call number [max_retries + 1 = 3] is performed before the
    exhaustion record comes back. *)
Lemma retry_exhaustion_counterexample :
  let run := robust_lookup (fun _ _ _ => HTTPError (Some 503))
                           "ab" "blockstream" 2 (8 # 10) in
  outcome run
  = Ret (failure_record "ab" "blockstream" "HTTP error after 2 retries")
  /\ calls run = 3%nat
  /\ ~ (calls run <= Z.to_nat 2)%nat.
Proof.
  split; [ reflexivity | ].
  split; [ reflexivity | ].
  vm_compute. lia.
Qed.

(** C1, amended: when every call fails with a 5xx status and the
    backoff sleeps of the attempts 1 to [max_retries] are durations
    that [time.sleep] takes, the record that comes back reports
    exhaustion after [max_retries] retries, and the fetch function is
    called [max_retries + 1] times, the first call and [max_retries]
    retries, with a backoff sleep before each retry; there is no
    further call. *)
Theorem retry_exhaustion
    (fetch_tx : string -> string -> nat -> fetch_outcome)
    (txid0 source0 api_base : string) (max_retries : Z) (backoff_base : Q) :
  assoc source0 API_BASES = Some api_base ->
  backoffs_fit backoff_base max_retries ->
  (forall k, server_error (fetch_tx api_base txid0 k)) ->
  robust_lookup fetch_tx txid0 source0 max_retries backoff_base
  = {| outcome :=
         Ret (failure_record txid0 source0
                ("HTTP error after " ++ str_of_int max_retries
                   ++ " retries")%string);
       calls := S (Z.to_nat max_retries);
       sleeps := backoffs backoff_base 0 (Z.to_nat max_retries) |}.
Proof.
  intros Hsrc Hb Hnet. unfold robust_lookup. rewrite Hsrc.
  rewrite retry_loop_exhausts by (assumption || lia).
  rewrite Z.sub_0_r. reflexivity.
Qed.

Lemma retry_exhaustion_witness :
  robust_lookup (fun _ _ _ => HTTPError (Some 503))
                "ab" "blockstream" 2 (8 # 10)
  = {| outcome :=
         Ret (failure_record "ab" "blockstream"
                ("HTTP error after " ++ str_of_int 2 ++ " retries")%string);
       calls := S (Z.to_nat 2);
       sleeps := backoffs (8 # 10) 0 (Z.to_nat 2) |}.
Proof.
  apply (retry_exhaustion (fun _ _ _ => HTTPError (Some 503))
                          "ab" "blockstream" "https://blockstream.info/api").
  - reflexivity.
  - split; [ discriminate | ].
    intros attempt Ha.
    assert (Hcase : attempt = 1 \/ attempt = 2) by lia.
    destruct Hcase as [-> | ->]; unfold Qle; vm_compute; discriminate.
  - intros k. exists 503. split; [ reflexivity | lia ].
Defined.

(** *** Terminal and retryable failures (C6) *)

Lemma retry_loop_429 (fetch : nat -> fetch_outcome) (txid0 source0 : string)
      (max_retries : Z) (backoff_base : Q) (n : Z)
      (attempt : Z) (ncalls : nat) (slept : list Q) :
  backoffs_fit backoff_base n ->
  0 <= attempt ->
  attempt + 1 <= n ->
  attempt + 1 <= max_retries ->
  fetch ncalls = HTTPError (Some 429) ->
  retry_loop fetch txid0 source0 max_retries backoff_base attempt ncalls slept
  = retry_loop fetch txid0 source0 max_retries backoff_base
               (attempt + 1) (S ncalls)
               (slept ++ [sleep_s backoff_base (attempt + 1)]).
Proof.
  intros Hb Hpos Hn Hle Hf.
  rewrite retry_loop_equation_1 at 1. cbv zeta. rewrite Hf. cbn [Z.eqb].
  change (client_error_final (Some 429)) with false. cbv iota.
  destruct (Z_gt_le_dec (attempt + 1) max_retries); [ lia | ].
  now rewrite (backoff_sleep_fits _ n) by (assumption || lia).
Qed.

(** C6: a 404 on the first call ends the lookup after that one call,
    with the error "404 Not Found" and no sleep; three 429 in a row and
    then the response of a confirmed transaction give, with
    [max_retries >= 3] and backoff sleeps that [time.sleep] takes, the
    record of that response after four calls: no error, and the
    height, the time, the hash and, for a block time of the years 1 to
    9999, the ISO text of the date and time whose timestamp the block
    time is. *)
Theorem terminal_and_retryable
    (not_found throttled : string -> string -> nat -> fetch_outcome)
    (txid0 source0 api_base : string) (max_retries : Z) (backoff_base : Q)
    (d status : list (string * pyval)) (h t : Z) (x : string) :
  assoc source0 API_BASES = Some api_base ->
  not_found api_base txid0 0%nat = HTTPError (Some 404) ->
  3 <= max_retries ->
  backoffs_fit backoff_base 3 ->
  (forall k, (k < 3)%nat -> throttled api_base txid0 k = HTTPError (Some 429)) ->
  throttled api_base txid0 3%nat = Response (PDict d) ->
  assoc "status" d = Some (PDict status) ->
  assoc "confirmed" status = Some (PBool true) ->
  assoc "block_height" status = Some (PInt h) ->
  assoc "block_time" status = Some (PInt t) ->
  Datetime.MIN_TIMESTAMP <= t <= Datetime.MAX_TIMESTAMP ->
  assoc "block_hash" status = Some (PStr x) ->
  robust_lookup not_found txid0 source0 max_retries backoff_base
  = {| outcome := Ret (failure_record txid0 source0 "404 Not Found");
       calls := 1; sleeps := [] |}
  /\
  exists dt,
    valid_datetime dt /\ timestamp_of dt = t /\
    robust_lookup throttled txid0 source0 max_retries backoff_base
    = {| outcome :=
           Ret {| txid := txid0;
                  fields := {| block_height := PInt h;
                               block_time_unix := PInt t;
                               block_time_utc_iso :=
                                 Some (Datetime.isoformat dt);
                               block_hash := PStr x |};
                  api_source := source0;
                  error := None |};
         calls := 4;
         sleeps := [sleep_s backoff_base 1; sleep_s backoff_base 2;
                    sleep_s backoff_base 3] |}.
Proof.
  intros Hsrc Hf Hmax Hb H429 Hok Hst Hconf Hh Ht Hrange Hx. split.
  - unfold robust_lookup. rewrite Hsrc.
    rewrite retry_loop_equation_1. cbv zeta. rewrite Hf. reflexivity.
  - destruct (fromtimestamp_utc_valid t Hrange) as (dt & Hdt & Hvalid & Hts).
    exists dt. split; [ assumption | ]. split; [ assumption | ].
    assert (Hiso : iso_utc (PInt t) = Ret (Some (Datetime.isoformat dt))).
    { unfold iso_utc. cbn. rewrite Hdt. reflexivity. }
    unfold robust_lookup. rewrite Hsrc.
    rewrite (retry_loop_429 _ _ _ _ _ 3) by (auto; lia).
    rewrite (retry_loop_429 _ _ _ _ _ 3) by (auto; lia).
    rewrite (retry_loop_429 _ _ _ _ _ 3) by (auto; lia).
    rewrite retry_loop_equation_1. cbv zeta. rewrite Hok.
    unfold extract_block_fields_from_esplora. rewrite Hst.
    assert (Htr : truthy (PDict status) = true)
      by (destruct status; [ discriminate | reflexivity ]).
    rewrite Htr. unfold method_get, dict_get. cbn [negb Py.bind].
    rewrite Hconf, Hh, Ht, Hx. cbn [truthy negb Py.bind].
    rewrite Hiso. reflexivity.
Qed.

Lemma terminal_and_retryable_witness :
  robust_lookup (fun _ _ _ => HTTPError (Some 404)) "ab" "mempool" 5 (8 # 10)
  = {| outcome := Ret (failure_record "ab" "mempool" "404 Not Found");
       calls := 1; sleeps := [] |}
  /\
  exists dt,
    valid_datetime dt /\ timestamp_of dt = 1470150000 /\
    robust_lookup (fun _ _ k => if (k <? 3)%nat then HTTPError (Some 429)
                                else Response confirmed_example)
                  "ab" "mempool" 5 (8 # 10)
    = {| outcome :=
           Ret {| txid := "ab";
                  fields := {| block_height := PInt 423000;
                               block_time_unix := PInt 1470150000;
                               block_time_utc_iso :=
                                 Some (Datetime.isoformat dt);
                               block_hash := PStr "00ab" |};
                  api_source := "mempool";
                  error := None |};
         calls := 4;
         sleeps := [sleep_s (8 # 10) 1; sleep_s (8 # 10) 2;
                    sleep_s (8 # 10) 3] |}.
Proof.
  apply (terminal_and_retryable
           (fun _ _ _ => HTTPError (Some 404))
           (fun _ _ k => if (k <? 3)%nat then HTTPError (Some 429)
                         else Response confirmed_example)
           "ab" "mempool" "https://mempool.space/api" 5 (8 # 10)
           [("status", PDict confirmed_status)] confirmed_status
           423000 1470150000 "00ab");
    try reflexivity; try lia; try discriminate.
  - split; [ discriminate | ].
    intros attempt Ha.
    assert (Hcase : attempt = 1 \/ attempt = 2 \/ attempt = 3) by lia.
    destruct Hcase as [-> | [-> | ->]]; unfold Qle; vm_compute; discriminate.
  - intros k Hk. destruct k as [ | [ | [ | k ] ] ]; try reflexivity; lia.
  - unfold Datetime.MIN_TIMESTAMP, Datetime.MAX_TIMESTAMP. lia.
Defined.

(** The record of the confirmed example, in full. *)
Example throttled_then_confirmed :
  outcome (robust_lookup (fun _ _ k => if (k <? 3)%nat
                                       then HTTPError (Some 429)
                                       else Response confirmed_example)
                         "ab" "mempool" 5 (8 # 10))
  = Ret {| txid := "ab";
           fields := {| block_height := PInt 423000;
                        block_time_unix := PInt 1470150000;
                        block_time_utc_iso :=
                          Some "2016-08-02T15:00:00+00:00";
                        block_hash := PStr "00ab" |};
           api_source := "mempool";
           error := None |}.
Proof. vm_compute. reflexivity. Qed.

(** *** Unconfirmed transactions (C7) *)

Lemma extract_unconfirmed (tx_json : pyval) :
  unconfirmed_response tx_json ->
  extract_block_fields_from_esplora tx_json = Ret no_block.
Proof.
  intros H. unfold extract_block_fields_from_esplora.
  destruct H as [ d Hs | d Hs | d s Hs Hc ]; rewrite Hs.
  - reflexivity.
  - reflexivity.
  - destruct (negb (truthy (PDict s))); [ reflexivity | ].
    unfold method_get, dict_get. rewrite Hc. reflexivity.
Qed.

(** C7: a response whose [status] is missing, empty or has
    [confirmed] false gives a record with the four block fields [None]
    and [error = None], which no failure record equals. *)
Theorem unconfirmed_is_success
    (fetch_tx : string -> string -> nat -> fetch_outcome)
    (txid0 source0 api_base : string) (max_retries : Z) (backoff_base : Q)
    (tx_json : pyval) :
  unconfirmed_response tx_json ->
  assoc source0 API_BASES = Some api_base ->
  fetch_tx api_base txid0 0%nat = Response tx_json ->
  extract_block_fields_from_esplora tx_json = Ret no_block /\
  exists rec,
    outcome (robust_lookup fetch_tx txid0 source0 max_retries backoff_base)
    = Ret rec /\
    block_height (fields rec) = PNone /\
    block_time_unix (fields rec) = PNone /\
    block_time_utc_iso (fields rec) = None /\
    block_hash (fields rec) = PNone /\
    error rec = None /\
    forall err, rec <> failure_record txid0 source0 err.
Proof.
  intros Hun Hsrc Hf.
  pose proof (extract_unconfirmed _ Hun) as Hx.
  split; [ assumption | ].
  exists (success_record txid0 source0 no_block).
  unfold robust_lookup. rewrite Hsrc.
  rewrite retry_loop_equation_1. cbv zeta. rewrite Hf, Hx.
  cbn. repeat split. intros err. discriminate.
Qed.

Lemma unconfirmed_is_success_witness :
  extract_block_fields_from_esplora
    (PDict [("status", PDict [("confirmed", PBool false)])])
  = Ret no_block /\
  exists rec,
    outcome (robust_lookup
               (fun _ _ _ =>
                  Response (PDict [("status", PDict [("confirmed", PBool false)])]))
               "ab" "blockstream" 5 (8 # 10))
    = Ret rec /\
    block_height (fields rec) = PNone /\
    block_time_unix (fields rec) = PNone /\
    block_time_utc_iso (fields rec) = None /\
    block_hash (fields rec) = PNone /\
    error rec = None /\
    forall err, rec <> failure_record "ab" "blockstream" err.
Proof.
  apply (unconfirmed_is_success
           (fun _ _ _ =>
              Response (PDict [("status", PDict [("confirmed", PBool false)])]))
           "ab" "blockstream" "https://blockstream.info/api").
  - apply (status_not_confirmed _ [("confirmed", PBool false)]); reflexivity.
  - reflexivity.
  - reflexivity.
Defined.

(** *** Shape of every record (C9) *)

(** C9: whatever the network does and whatever the arguments are, a
    record that [robust_lookup] returns carries the key and the source
    it was called with, and where its [error] is set the four block
    fields are [None]; and it does return a record for a registered
    source, backoff sleeps that [time.sleep] takes and a network that
    raises nothing beyond [Exception]. *)
Theorem record_shape
    (fetch_tx : string -> string -> nat -> fetch_outcome)
    (txid0 source0 : string) (max_retries : Z) (backoff_base : Q) :
  (forall rec,
      outcome (robust_lookup fetch_tx txid0 source0 max_retries backoff_base)
      = Ret rec ->
      txid rec = txid0 /\ api_source rec = source0 /\
      (error rec <> None ->
       block_height (fields rec) = PNone /\
       block_time_unix (fields rec) = PNone /\
       block_time_utc_iso (fields rec) = None /\
       block_hash (fields rec) = PNone))
  /\
  (forall api_base,
      assoc source0 API_BASES = Some api_base ->
      backoffs_fit backoff_base max_retries ->
      (forall k e, fetch_tx api_base txid0 k = Failure e ->
                   is_Exception e = true) ->
      exists rec,
        outcome (robust_lookup fetch_tx txid0 source0 max_retries backoff_base)
        = Ret rec).
Proof.
  unfold robust_lookup. split.
  - intros rec.
    destruct (assoc source0 API_BASES) as [api_base | ]; [ | discriminate ].
    intros Hrec.
    destruct (retry_loop_record _ _ _ _ _ _ _ _ _ Hrec) as (Ht & Hs & He).
    split; [ assumption | ]. split; [ assumption | ].
    intros Herr. rewrite (He Herr). repeat split.
  - intros api_base Hsrc Hb Hnet. rewrite Hsrc.
    apply retry_loop_returns; [ assumption | assumption | lia ].
Qed.

Lemma record_shape_witness :
  (exists rec,
      outcome (robust_lookup (fun _ _ _ => Timeout) "ab" "mempool" 5 (8 # 10))
      = Ret rec) /\
  (forall rec,
      outcome (robust_lookup (fun _ _ _ => Timeout) "ab" "mempool" 5 (8 # 10))
      = Ret rec ->
      txid rec = "ab" /\ api_source rec = "mempool" /\
      (error rec <> None ->
       block_height (fields rec) = PNone /\
       block_time_unix (fields rec) = PNone /\
       block_time_utc_iso (fields rec) = None /\
       block_hash (fields rec) = PNone)).
Proof.
  destruct (record_shape (fun _ _ _ => Timeout) "ab" "mempool" 5 (8 # 10))
    as [Hshape Hreturns].
  split; [ | exact Hshape ].
  apply (Hreturns "https://mempool.space/api").
  - reflexivity.
  - exact default_backoffs_fit.
  - intros k e H. discriminate H.
Defined.

(** *** iso_utc (C10) *)

(** C10, as stated, fails: for a list of two numbers the test
    [pd.isna(ts_unix)] gives an array whose truth value is ambiguous,
    and the [ValueError] leaves [iso_utc], the test being outside the
    [try]. *)
Lemma iso_utc_total_counterexample :
  iso_utc (PList [PInt 1; PInt 2]) = Raise Pandas.ambiguous_truth
  /\ ~ (exists r, iso_utc (PList [PInt 1; PInt 2]) = Ret r).
Proof.
  split; [ reflexivity | ].
  intros [r H]. discriminate H.
Qed.

(** C10, amended: on every input that is not a list, [iso_utc]
    returns: [None] for [None] and NaN and for whatever [int()] does
    not turn into a timestamp of the years 1 to 9999, and the ISO form
    of the UTC date and time of the timestamp otherwise. *)
Theorem iso_utc_total_on_scalars (v : pyval) :
  (forall l, v <> PList l) ->
  (v = PNone \/ v = PFloat FNaN -> iso_utc v = Ret None) /\
  match valid_timestamp v with
  | None => iso_utc v = Ret None
  | Some n =>
      exists dt,
        Datetime.fromtimestamp_utc n = Ret dt /\
        iso_utc v = Ret (Some (Datetime.isoformat dt))
  end.
Proof.
  intros Hnl. split.
  - intros [-> | ->]; reflexivity.
  - assert (Hcases : iso_utc v = convert v \/
                     (iso_utc v = Ret None /\ valid_timestamp v = None)).
    { destruct v as [ | b | z | [ | n | q ] | s | l | d ];
        try (left; reflexivity); try (right; split; reflexivity).
      exfalso. now apply (Hnl l). }
    destruct Hcases as [-> | [Hnone ->]]; [ | assumption ].
    unfold valid_timestamp, convert.
    destruct (Py.int v) as [n | e] eqn:Hn; cbn [Py.bind try_except_Exception].
    + destruct ((Datetime.MIN_TIMESTAMP <=? n) && (n <=? Datetime.MAX_TIMESTAMP))
        eqn:Hr.
      * assert (Hdt : exists dt, Datetime.fromtimestamp_utc n = Ret dt).
        { unfold Datetime.fromtimestamp_utc. rewrite Hr.
          destruct (Datetime.civil_from_days _) as [[y m] d]. eauto. }
        destruct Hdt as [dt Hdt]. exists dt. rewrite Hdt.
        split; reflexivity.
      * unfold Datetime.fromtimestamp_utc. rewrite Hr. reflexivity.
    + now rewrite (int_raises _ _ Hn).
Qed.

Lemma iso_utc_total_on_scalars_witness :
  (PInt 1470150000 = PNone \/ PInt 1470150000 = PFloat FNaN ->
   iso_utc (PInt 1470150000) = Ret None) /\
  match valid_timestamp (PInt 1470150000) with
  | None => iso_utc (PInt 1470150000) = Ret None
  | Some n =>
      exists dt,
        Datetime.fromtimestamp_utc n = Ret dt /\
        iso_utc (PInt 1470150000) = Ret (Some (Datetime.isoformat dt))
  end.
Proof.
  apply (iso_utc_total_on_scalars (PInt 1470150000)).
  intros l. discriminate.
Defined.

Example iso_utc_samples :
  iso_utc (PInt 1470150000) = Ret (Some "2016-08-02T15:00:00+00:00")
  /\ iso_utc (PInt 0) = Ret (Some "1970-01-01T00:00:00+00:00")
  /\ iso_utc (PInt (-1)) = Ret (Some "1969-12-31T23:59:59+00:00")
  /\ iso_utc (PInt 253402300799) = Ret (Some "9999-12-31T23:59:59+00:00")
  /\ iso_utc (PInt 253402300800) = Ret None
  /\ iso_utc (PStr " 12 ") = Ret (Some "1970-01-01T00:00:12+00:00")
  /\ iso_utc (PStr "1.0") = Ret None
  /\ iso_utc (PFloat (FInf false)) = Ret None
  /\ iso_utc (PFloat (FFin (19 # 10))) = Ret (Some "1970-01-01T00:00:01+00:00")
  /\ iso_utc (PDict []) = Ret None
  /\ iso_utc (PList [PInt 1]) = Ret None.
Proof. repeat split; reflexivity. Qed.

(** *** Backoff (C5) *)

(** C5, code bug: with the defaults of [robust_lookup], which are the
    only values the engine passes (base 0.8, 5 retries), and a service
    that answers every call with 503, the five sleeps are 1.36, 1.216,
    0.768, 0.69632 and 0.622592 seconds: every retry waits less than
    the one before, against the "exponential backoff" of the docstring.
    The calls stay within the cap, [max_retries + 1]. *)
Theorem backoff_shrinks_at_default :
  let run := robust_lookup (fun _ _ _ => HTTPError (Some 503))
                           "ab" "blockstream"
                           default_max_retries default_backoff_base in
  map Qred (sleeps run)
  = [34 # 25; 152 # 125; 96 # 125; 2176 # 3125; 9728 # 15625]%Q
  /\ (0 < default_backoff_base)%Q
  /\ 1 < 2 <= default_max_retries
  /\ ~ (sleep_s default_backoff_base 1 <= sleep_s default_backoff_base 2)%Q
  /\ calls run = S (Z.to_nat default_max_retries).
Proof.
  split; [ vm_compute; reflexivity | ].
  split; [ reflexivity | ].
  split; [ unfold default_max_retries; lia | ].
  split; [ | vm_compute; reflexivity ].
  vm_compute. intros H. apply H. reflexivity.
Qed.

(* ================================================================= *)
(** ** Batch engine *)

Lemma lookups_app (a b : list event) : lookups (a ++ b) = lookups a ++ lookups b.
Proof.
  induction a as [ | [t ts | r | bt] a IH ]; cbn; rewrite ?IH; reflexivity.
Qed.

Lemma call_times_app (a b : list event) :
  call_times (a ++ b) = call_times a ++ call_times b.
Proof.
  induction a as [ | [t ts | r | bt] a IH ]; cbn; rewrite ?IH; reflexivity.
Qed.

Lemma resolved_app (a b : list event) :
  resolved (a ++ b) = resolved a ++ resolved b.
Proof.
  induction a as [ | [t ts | r | bt] a IH ]; cbn; rewrite ?IH; reflexivity.
Qed.

Lemma stored_app (a b : list event) : stored (a ++ b) = stored a ++ stored b.
Proof.
  induction a as [ | [t ts | r | bt] a IH ]; cbn; rewrite ?IH, ?app_assoc;
    reflexivity.
Qed.

Lemma writes_from_app (count : nat) (a b : list event) :
  writes_from count (a ++ b)
  = writes_from count a
      ++ writes_from (count + List.length (resolved a)) b.
Proof.
  revert count.
  induction a as [ | [t ts | r | bt] a IH ]; intros count; cbn.
  - now rewrite Nat.add_0_r.
  - apply IH.
  - rewrite IH. do 2 f_equal. lia.
  - now rewrite IH.
Qed.

#[local] Arguments time_sleep : simpl never.

(** Unfolds one iteration down to the oracles. *)
Ltac unfold_engine :=
  unfold loop_body, gate, sleep, lookup, append, checkpoint, final_flush,
    save_results_incremental, interruptible, mbind, get, log, pass_time,
    set_batch, stamp, raise, ret in *.

Ltac split_engine :=
  repeat match goal with
         | |- context [match rate_limit_sleep ?l ?r ?t with _ => _ end] =>
             destruct (rate_limit_sleep l r t)
         | |- context [match time_sleep ?d with _ => _ end] =>
             destruct (time_sleep d)
         | |- context [match interrupt ?e ?i with _ => _ end] =>
             destruct (interrupt e i) as [ [ | | ] | ]
         | |- context [match outcome ?r with _ => _ end] =>
             destruct (outcome r)
         | |- context [if ?b then _ else _] => destruct b
         | _ => progress cbn
         end.

(** *** Nothing resolved is lost (C2) *)

Lemma loop_body_keeps (env : environment) (source0 : string) (rate : Q)
      (c : Z) (i n : nat) (txid0 : string) (st : engine_state) :
  pending_or_stored st ->
  match loop_body env source0 rate c i n txid0 st with
  | (Ret _, st') => pending_or_stored st'
  | (Raise _, st') => pending_or_stored st' \/ all_stored st'
  end.
Proof.
  unfold pending_or_stored, all_stored. intros J.
  unfold_engine. split_engine;
    rewrite ?stored_app, ?resolved_app; cbn;
    rewrite ?app_nil_r, ?stored_app, ?resolved_app; cbn;
    rewrite ?app_nil_r, <- ?J, ?app_assoc; auto.
Qed.

Lemma for_loop_keeps (env : environment) (source0 : string) (rate : Q)
      (c : Z) (n : nat) (items : list string) :
  forall (i : nat) (st : engine_state),
    pending_or_stored st ->
    match for_loop env source0 rate c i n items st with
    | (Ret _, st') => pending_or_stored st'
    | (Raise _, st') => pending_or_stored st' \/ all_stored st'
    end.
Proof.
  induction items as [ | t items IH ]; intros i st J.
  - exact J.
  - cbn [for_loop]. unfold mbind at 1.
    pose proof (loop_body_keeps env source0 rate c i n t st J) as Hb.
    destruct (loop_body env source0 rate c i n t st) as [[u | e] st1].
    + now apply IH.
    + exact Hb.
Qed.

Lemma run_loop_flushes (env : environment) (source0 : string) (rate : Q)
      (c : Z) (keys : list string) :
  let run := run_loop env source0 rate c keys in
  (exists dup, stored (trace (snd run)) = resolved (trace (snd run)) ++ dup)
  /\ incl (results_batch (snd run)) (stored (trace (snd run)))
  /\ (fst run = Ret tt ->
      stored (trace (snd run)) = resolved (trace (snd run))).
Proof.
  cbv zeta. unfold run_loop, try_finally.
  pose proof (for_loop_keeps env source0 rate c (List.length keys) keys 1
                (initial_state env) eq_refl) as Hl.
  destruct (for_loop _ _ _ _ _ _ _ _) as [r st1].
  unfold pending_or_stored, all_stored in Hl.
  unfold final_flush, save_results_incremental, mbind, get, log, ret.
  destruct (results_batch st1) as [ | rec batch ] eqn:Hbatch; cbn.
  - rewrite Hbatch. split; [ | split ].
    + exists []. rewrite app_nil_r.
      destruct r; [ | destruct Hl ]; rewrite <- ?Hl, ?app_nil_r; auto.
      now rewrite app_nil_r in H.
    + intros x [].
    + intros ->. now rewrite app_nil_r in Hl.
  - rewrite Hbatch, stored_app, resolved_app. cbn. rewrite !app_nil_r.
    split; [ | split ].
    + destruct r as [u | e]; [ | destruct Hl as [Hl | Hl] ].
      * exists []. now rewrite app_nil_r.
      * exists []. now rewrite app_nil_r.
      * exists (rec :: batch). now rewrite Hl.
    + intros x Hx. apply in_or_app. now right.
    + intros ->. exact Hl.
Qed.

(** C2: however the loop ends, by coming to its end, by an interrupt
    in the rate limiter, in the lookup or in a checkpoint, or by
    [ZeroDivisionError], the [finally] block has written what was
    pending: the rows of the store are the records resolved, in order
    (followed, after an interrupt between a write and [clear], by one
    more copy of the batch just written), and what is left in
    [results_batch] is in the store. *)
Theorem flush_on_exit (env : environment) (input_csv : dataframe)
    (txid_column : string) (existing_txid : list cell) (source0 : string)
    (rate : Q) (checkpoint_every : Z) :
  let run := enrich_txids_with_block_info env input_csv txid_column
               existing_txid source0 rate checkpoint_every in
  (exists dup, stored (trace (snd run)) = resolved (trace (snd run)) ++ dup)
  /\ incl (results_batch (snd run)) (stored (trace (snd run)))
  /\ (fst run = Ret tt ->
      stored (trace (snd run)) = resolved (trace (snd run))).
Proof.
  cbv zeta. unfold enrich_txids_with_block_info.
  destruct (negb (mem _ _)).
  - cbn. split; [ now exists [] | ]. split; [ intros x [] | reflexivity ].
  - destruct (unique_txids_from_csv input_csv txid_column)
      as [txids | e].
    + apply run_loop_flushes.
    + cbn. split; [ now exists [] | ]. split; [ intros x [] | reflexivity ].
Qed.

(** Aborted runs: an interrupt before the fifth lookup leaves the fourth
    record pending and the [finally] block writes it; a checkpoint
    interval of 0 raises after the first lookup and its record is
    written; an interrupt after the write of a checkpoint writes that
    batch a second time. *)
Example interrupted_run_is_flushed :
  let run := enrich_txids_with_block_info interrupted_env example_input "txid"
               [Some "B"] "blockstream" 4 3 in
  fst run = Raise keyboard_interrupt
  /\ map txid (resolved (trace (snd run))) = ["a"; "c"; "d"; "e"]
  /\ map (fun w => (fst w, map txid (snd w))) (writes (trace (snd run)))
     = [(3%nat, ["a"; "c"; "d"]); (4%nat, ["e"])].
Proof. vm_compute. repeat split. Qed.

Example zero_interval_run_is_flushed :
  let run := enrich_txids_with_block_info example_env example_input "txid"
               [Some "B"] "blockstream" 4 0 in
  fst run = Raise (Exn ZeroDivisionError "integer division or modulo by zero")
  /\ map txid (resolved (trace (snd run))) = ["a"]
  /\ map (fun w => (fst w, map txid (snd w))) (writes (trace (snd run)))
     = [(1%nat, ["a"])].
Proof. vm_compute. repeat split. Qed.

Example interrupt_after_save_writes_twice :
  let run := enrich_txids_with_block_info interrupted_after_save_env
               example_input "txid" [Some "B"] "blockstream" 4 3 in
  fst run = Raise keyboard_interrupt
  /\ map txid (resolved (trace (snd run))) = ["a"; "c"; "d"]
  /\ map (fun w => (fst w, map txid (snd w))) (writes (trace (snd run)))
     = [(3%nat, ["a"; "c"; "d"]); (3%nat, ["a"; "c"; "d"])].
Proof. vm_compute. repeat split. Qed.

(** *** Resume (C3) *)

Lemma mem_In (s : string) (l : list string) : mem s l = true <-> In s l.
Proof.
  unfold mem. rewrite existsb_exists. split.
  - intros (x & Hx & He). apply String.eqb_eq in He. now subst.
  - intros H. exists s. split; [ assumption | apply String.eqb_refl ].
Qed.

Lemma drop_duplicates_seen_spec (l seen : list string) :
  NoDup (drop_duplicates_seen seen l) /\
  forall x, In x (drop_duplicates_seen seen l) <-> In x l /\ ~ In x seen.
Proof.
  revert seen. induction l as [ | a l IH ]; intros seen; cbn.
  - split; [ constructor | tauto ].
  - destruct (mem a seen) eqn:Hm.
    + apply mem_In in Hm. destruct (IH seen) as [Hnd Hin].
      split; [ assumption | ].
      intros x. rewrite Hin. split; [ tauto | ].
      intros [[-> | Hx] Hs]; [ contradiction | tauto ].
    + assert (Ha : ~ In a seen)
        by (intros H; apply mem_In in H; congruence).
      destruct (IH (a :: seen)) as [Hnd Hin].
      split.
      * constructor; [ | assumption ].
        rewrite Hin. cbn. tauto.
      * intros x. cbn. rewrite Hin. cbn.
        split.
        -- intros [<- | [Hx Hs]]; tauto.
        -- intros [[<- | Hx] Hs]; [ tauto | ].
           destruct (string_dec a x) as [-> | Hne]; tauto.
Qed.

Lemma unique_txids_NoDup (df : dataframe) (column : string)
      (txids : list string) :
  unique_txids_from_csv df column = Ret txids -> NoDup txids.
Proof.
  unfold unique_txids_from_csv.
  destruct (assoc column df); [ | discriminate ].
  intros H; inversion H. apply drop_duplicates_seen_spec.
Qed.

Lemma to_fetch_spec (txids : list string) (existing_txid : list cell)
      (t : string) :
  In t (to_fetch txids existing_txid) <->
  In t txids /\
  forall c, In c existing_txid -> str_lower (astype_str c) <> t.
Proof.
  unfold to_fetch. rewrite filter_In. apply and_iff_compat_l.
  rewrite negb_true_iff, <- not_true_iff_false, mem_In, in_map_iff.
  split.
  - intros H c Hc Heq. apply H. now exists c.
  - intros H (c & Heq & Hc). now apply (H c).
Qed.

Lemma loop_body_lookups (env : environment) (source0 : string) (rate : Q)
      (c : Z) (i n : nat) (t : string) (st : engine_state) :
  match loop_body env source0 rate c i n t st with
  | (r, st') =>
      lookups (trace st') = lookups (trace st) ++ [t]
      \/ (lookups (trace st') = lookups (trace st) /\ exists e, r = Raise e)
  end.
Proof.
  unfold_engine. split_engine;
    rewrite ?lookups_app; cbn; rewrite ?lookups_app; cbn;
    rewrite ?app_nil_r; eauto.
Qed.

Lemma for_loop_lookups (env : environment) (source0 : string) (rate : Q)
      (c : Z) (n : nat) (items : list string) :
  forall (i : nat) (st : engine_state),
    match for_loop env source0 rate c i n items st with
    | (r, st') =>
        exists rest,
          lookups (trace st) ++ items = lookups (trace st') ++ rest
          /\ (r = Ret tt -> rest = [])
    end.
Proof.
  induction items as [ | t items IH ]; intros i st.
  - cbn. exists []. auto.
  - cbn [for_loop]. unfold mbind at 1.
    pose proof (loop_body_lookups env source0 rate c i n t st) as Hb.
    destruct (loop_body env source0 rate c i n t st) as [[u | e] st1].
    + destruct Hb as [Hb | [_ [e He]]]; [ | discriminate ].
      specialize (IH (S i) st1).
      destruct (for_loop env source0 rate c (S i) n items st1) as [r st2].
      destruct IH as (rest & Hrest & Hend). exists rest.
      rewrite <- Hrest, Hb, <- app_assoc. auto.
    + destruct Hb as [Hb | [Hb _]].
      * exists items. rewrite Hb, <- app_assoc. split; [ auto | discriminate ].
      * exists (t :: items). rewrite Hb. split; [ auto | discriminate ].
Qed.

Lemma final_flush_lookups (st : engine_state) :
  lookups (trace (snd (final_flush st))) = lookups (trace st).
Proof.
  unfold_engine. destruct (results_batch st); cbn; [ reflexivity | ].
  rewrite lookups_app. cbn. now rewrite app_nil_r.
Qed.

Lemma run_loop_lookups (env : environment) (source0 : string) (rate : Q)
      (c : Z) (keys : list string) :
  let run := run_loop env source0 rate c keys in
  exists rest,
    keys = lookups (trace (snd run)) ++ rest
    /\ (fst run = Ret tt -> rest = []).
Proof.
  cbv zeta. unfold run_loop, try_finally.
  pose proof (for_loop_lookups env source0 rate c (List.length keys) keys 1
                (initial_state env)) as Hl.
  destruct (for_loop _ _ _ _ _ _ _ _) as [r st1].
  destruct Hl as (rest & Hrest & Hend). cbn in Hrest.
  pose proof (final_flush_lookups st1) as Hf.
  destruct (final_flush st1) as [[u | e] st2]; cbn in *.
  - exists rest. rewrite Hf. auto.
  - exists rest. rewrite Hf. split; [ assumption | discriminate ].
Qed.

Lemma registered_source (s : string) :
  mem s (map fst API_BASES) = true ->
  exists api_base, assoc s API_BASES = Some api_base.
Proof.
  cbn. destruct (String.eqb s "blockstream") eqn:E1; cbn.
  - eauto.
  - destruct (String.eqb s "mempool") eqn:E2; cbn; [ eauto | discriminate ].
Qed.

Lemma lookup_quiet (env : environment) (source0 api_base : string)
      (t : string) :
  quiet env ->
  assoc source0 API_BASES = Some api_base ->
  exists rec,
    outcome (robust_lookup (net env) t source0
                           default_max_retries default_backoff_base)
    = Ret rec /\ txid rec = t.
Proof.
  intros [_ Hnet] Hsrc. unfold robust_lookup. rewrite Hsrc.
  destruct (retry_loop_returns (net env api_base t) t source0
              default_max_retries default_backoff_base 0 0%nat [])
    as [rec Hrec]; [ exact default_backoffs_fit | apply Hnet | lia | ].
  exists rec. split; [ assumption | ].
  now apply (retry_loop_record _ _ _ _ _ _ _ _ _ Hrec).
Qed.

Lemma rate_limit_sleep_idle (last_ts rate now : Q) :
  (rate <= 0)%Q -> rate_limit_sleep last_ts rate now = None.
Proof.
  intros H. unfold rate_limit_sleep.
  now rewrite (proj2 (Qle_bool_iff _ _) H).
Qed.

Lemma rate_limit_sleep_waits (last_ts rate now : Q) :
  (0 < rate)%Q ->
  match rate_limit_sleep last_ts rate now with
  | Some d => (0 < d)%Q /\ (now + d == last_ts + 1 / rate)%Q
  | None => (last_ts + 1 / rate <= now)%Q
  end.
Proof.
  intros H. unfold rate_limit_sleep.
  destruct (Qle_bool rate 0) eqn:E.
  - apply Qle_bool_iff in E. lra.
  - set (m := (1 / rate)%Q).
    destruct (Qle_bool m (now - last_ts)) eqn:E2; cbn.
    + apply Qle_bool_iff in E2. lra.
    + assert (~ (m <= now - last_ts)%Q)
        by (intros C; apply Qle_bool_iff in C; congruence).
      split; lra.
Qed.

(** The limiter in a quiet environment, where what it asks for fits. *)
Lemma gate_quiet (env : environment) (rate : Q) (i : nat)
      (st : engine_state) :
  (forall i, interrupt env i = None) ->
  limiter_fits env rate ->
  ((rate <= 0)%Q \/ (last_call_ts st <= clock st)%Q) ->
  exists clk,
    gate env rate i st
    = (Ret tt, {| clock := clk; last_call_ts := clk;
                  results_batch := results_batch st; trace := trace st |}).
Proof.
  intros Hint Hfit Hinv. unfold gate, interruptible, mbind, get.
  rewrite Hint. unfold ret at 1.
  destruct (Qlt_le_dec 0 rate) as [Hpos | Hidle].
  - assert (Hmax : (1 / rate <= SLEEP_MAX)%Q)
      by (destruct Hfit as [Hfit | [Hfit _]]; [ lra | exact Hfit ]).
    assert (Hclk : (last_call_ts st <= clock st)%Q)
      by (destruct Hinv; [ lra | assumption ]).
    pose proof (rate_limit_sleep_waits (last_call_ts st) rate (clock st) Hpos)
      as Hw.
    destruct (rate_limit_sleep (last_call_ts st) rate (clock st)) as [d | ].
    + unfold sleep. rewrite time_sleep_fits by (split; lra).
      eexists. reflexivity.
    + eexists. reflexivity.
  - rewrite rate_limit_sleep_idle by assumption. eexists. reflexivity.
Qed.

(** One iteration in a quiet environment. *)
Lemma loop_body_quiet (env : environment) (source0 api_base : string)
      (rate : Q) (c : Z) (i n : nat) (t : string) (st : engine_state) :
  quiet env ->
  limiter_fits env rate ->
  assoc source0 API_BASES = Some api_base ->
  c <> 0 ->
  ((rate <= 0)%Q \/ (last_call_ts st <= clock st)%Q) ->
  exists rec ts clk,
    txid rec = t /\
    ((rate <= 0)%Q \/ (ts <= clk)%Q) /\
    loop_body env source0 rate c i n t st
    = (Ret tt,
       {| clock := clk; last_call_ts := ts;
          results_batch := if checkpoint_due c n i then []
                           else results_batch st ++ [rec];
          trace := trace st
                   ++ Called t ts :: Resolved rec
                   :: (if checkpoint_due c n i
                       then [Saved (results_batch st ++ [rec])] else []) |}).
Proof.
  intros Hq Hfit Hsrc Hc Hinv.
  destruct (lookup_quiet env source0 api_base t Hq Hsrc) as (rec & Hrec & Ht).
  destruct Hq as [Hint _].
  destruct (gate_quiet env rate i st Hint Hfit Hinv) as [clk0 Hgate].
  exists rec, clk0, (clk0 + work_time env i)%Q.
  split; [ exact Ht | ]. split.
  { destruct Hfit as [Hfit | (_ & _ & Hwork)]; [ now left | right ].
    specialize (Hwork i). lra. }
  unfold loop_body. unfold mbind at 1. rewrite Hgate.
  unfold_engine. rewrite !Hint, Hrec. cbn.
  replace (c =? 0) with false by lia.
  unfold checkpoint_due.
  destruct ((Z.of_nat i mod c =? 0) || (i =? n)%nat); cbn;
    rewrite <- !app_assoc; reflexivity.
Qed.

Lemma for_loop_quiet (env : environment) (source0 api_base : string)
      (rate : Q) (c : Z) (n : nat) (items : list string) :
  quiet env ->
  limiter_fits env rate ->
  assoc source0 API_BASES = Some api_base ->
  c <> 0 ->
  forall (i : nat) (st : engine_state),
    i = S (List.length (resolved (trace st))) ->
    ((rate <= 0)%Q \/ (last_call_ts st <= clock st)%Q) ->
    exists st' recs,
      for_loop env source0 rate c i n items st = (Ret tt, st')
      /\ map txid recs = items
      /\ resolved (trace st') = resolved (trace st) ++ recs
      /\ writes (trace st')
         = writes (trace st) ++ expected_writes c n i (results_batch st) recs
      /\ results_batch st' = pending_after c n i (results_batch st) recs.
Proof.
  intros Hq Hfit Hsrc Hc.
  induction items as [ | t items IH ]; intros i st Hi Hinv.
  - exists st, []. cbn. rewrite !app_nil_r. auto.
  - cbn [for_loop]. unfold mbind at 1.
    destruct (loop_body_quiet env source0 api_base rate c i n t st
                Hq Hfit Hsrc Hc Hinv)
      as (rec & ts & clk & Ht & Hinv1 & ->).
    match goal with
    | |- context [for_loop _ _ _ _ _ _ _ ?s] => set (st1 := s)
    end.
    assert (Hres : resolved (trace st1) = resolved (trace st) ++ [rec]).
    { subst st1. cbn [trace]. rewrite resolved_app. cbn.
      destruct (checkpoint_due c n i); reflexivity. }
    assert (Hwr : writes (trace st1)
                  = writes (trace st)
                      ++ (if checkpoint_due c n i
                          then [(i, results_batch st ++ [rec])] else [])).
    { subst st1. unfold writes. cbn [trace]. rewrite writes_from_app. cbn.
      rewrite <- Hi. destruct (checkpoint_due c n i); reflexivity. }
    destruct (IH (S i) st1) as (st' & recs & Hrun & Hkeys & Hr & Hw & Hb).
    { rewrite Hres, length_app. cbn. lia. }
    { subst st1. exact Hinv1. }
    exists st', (rec :: recs). rewrite Hrun.
    split; [ reflexivity | ].
    split; [ cbn; congruence | ].
    split; [ rewrite Hr, Hres, <- app_assoc; reflexivity | ].
    rewrite Hw, Hwr, Hb, <- app_assoc. subst st1. cbn.
    destruct (checkpoint_due c n i); auto.
Qed.

Lemma expected_writes_points (c : Z) (n : nat) (recs : list lookup_record) :
  forall (i : nat) (pending : list lookup_record),
    map fst (expected_writes c n i pending recs)
    = filter (checkpoint_due c n) (seq i (List.length recs)).
Proof.
  induction recs as [ | r recs IH ]; intros i pending; cbn.
  - reflexivity.
  - destruct (checkpoint_due c n i); cbn; now rewrite IH.
Qed.

Lemma firstn_prefix {A : Type} (a b : list A) :
  firstn (List.length a) (a ++ b) = a.
Proof. induction a as [ | x a IH ]; cbn; [ now destruct b | now rewrite IH ]. Qed.

Lemma skipn_prefix {A : Type} (a b : list A) :
  skipn (List.length a) (a ++ b) = b.
Proof. induction a as [ | x a IH ]; cbn; auto. Qed.

Lemma expected_writes_batches (c : Z) (n : nat) (recs : list lookup_record) :
  forall (i : nat) (pending : list lookup_record),
    (S (List.length pending) <= i)%nat ->
    map snd (expected_writes c n i pending recs)
    = split_at (i - 1 - List.length pending)
               (map fst (expected_writes c n i pending recs))
               (pending ++ recs).
Proof.
  induction recs as [ | r recs IH ]; intros i pending Hi; cbn.
  - reflexivity.
  - destruct (checkpoint_due c n i); cbn.
    + replace (i - (i - 1 - List.length pending))%nat
        with (List.length pending + 1)%nat by lia.
      replace (pending ++ r :: recs) with ((pending ++ [r]) ++ recs)
        by (now rewrite <- app_assoc).
      replace (List.length pending + 1)%nat
        with (List.length (pending ++ [r]))
        by (rewrite length_app; reflexivity).
      rewrite firstn_prefix, skipn_prefix.
      f_equal. rewrite (IH (S i) []) by (cbn; lia).
      cbn. now rewrite Nat.sub_0_r, Nat.sub_0_r.
    + rewrite (IH (S i) (pending ++ [r])) by (rewrite length_app; cbn; lia).
      rewrite length_app, <- app_assoc. cbn.
      f_equal. lia.
Qed.

Lemma pending_after_last (c : Z) (n : nat) (recs : list lookup_record) :
  forall (i : nat) (pending : list lookup_record),
    recs <> [] ->
    (i + List.length recs = S n)%nat ->
    pending_after c n i pending recs = [].
Proof.
  induction recs as [ | r recs IH ]; intros i pending Hne Hn.
  - contradiction.
  - cbn. destruct recs as [ | r' recs ].
    + cbn in Hn. assert (Hin : i = n) by lia.
      unfold checkpoint_due. rewrite Hin, Nat.eqb_refl, orb_true_r.
      reflexivity.
    + destruct (checkpoint_due c n i);
        apply IH; try discriminate; cbn in *; lia.
Qed.

Lemma run_loop_quiet (env : environment) (source0 api_base : string)
      (rate : Q) (c : Z) (keys : list string) :
  quiet env ->
  limiter_fits env rate ->
  assoc source0 API_BASES = Some api_base ->
  c <> 0 ->
  let run := run_loop env source0 rate c keys in
  fst run = Ret tt
  /\ lookups (trace (snd run)) = keys
  /\ map txid (resolved (trace (snd run))) = keys
  /\ writes (trace (snd run))
     = expected_writes c (List.length keys) 1 [] (resolved (trace (snd run)))
  /\ results_batch (snd run) = [].
Proof.
  intros Hq Hfit Hsrc Hc. cbv zeta.
  pose proof (run_loop_lookups env source0 rate c keys) as Hl. cbv zeta in Hl.
  revert Hl. unfold run_loop, try_finally.
  assert (Hinv : (rate <= 0)%Q
                 \/ (last_call_ts (initial_state env)
                     <= clock (initial_state env))%Q).
  { destruct Hfit as [Hfit | (_ & Hstart & _)]; [ now left | now right ]. }
  destruct (for_loop_quiet env source0 api_base rate c (List.length keys) keys
              Hq Hfit Hsrc Hc 1%nat (initial_state env) eq_refl Hinv)
    as (st' & recs & -> & Hkeys & Hr & Hw & Hb).
  cbn in Hr, Hw, Hb.
  assert (Hempty : results_batch st' = []).
  { rewrite Hb. destruct recs as [ | r recs ]; [ reflexivity | ].
    apply pending_after_last; [ discriminate | ].
    rewrite <- Hkeys, length_map. reflexivity. }
  unfold final_flush, mbind, get, ret. rewrite Hempty. cbn.
  intros (rest & Hrest & Hend).
  rewrite (Hend eq_refl), app_nil_r in Hrest.
  rewrite Hr, Hw. repeat split; auto.
Qed.

(** C3: a run without interrupts, whose limiter asks [time.sleep] for
    no more than it takes, comes to its end, and the keys it looks up
    are the unique keys of the input that the [txid] column of the
    Progress Store, lower-cased, does not hold, each once and in input
    order; and in no run, whatever the environment and the rate, is a
    key looked up that the store holds. *)
Theorem resume_fetches_missing (env : environment) (input_csv : dataframe)
    (txid_column : string) (existing_txid : list cell) (source0 : string)
    (rate : Q) (checkpoint_every : Z) (txids : list string) :
  quiet env ->
  limiter_fits env rate ->
  mem (str_strip (str_lower source0)) (map fst API_BASES) = true ->
  unique_txids_from_csv input_csv txid_column = Ret txids ->
  checkpoint_every <> 0 ->
  let stored_key t :=
    exists c, In c existing_txid /\ str_lower (astype_str c) = t in
  let run := enrich_txids_with_block_info env input_csv txid_column
               existing_txid source0 rate checkpoint_every in
  fst run = Ret tt
  /\ lookups (trace (snd run)) = to_fetch txids existing_txid
  /\ NoDup (lookups (trace (snd run)))
  /\ (forall t, In t (lookups (trace (snd run))) <->
                In t txids /\ ~ stored_key t)
  /\ (forall env' rate' c' t,
         In t (lookups (trace (snd (enrich_txids_with_block_info
                                      env' input_csv txid_column
                                      existing_txid source0 rate' c')))) ->
         In t txids /\ ~ stored_key t).
Proof.
  intros Hq Hfit Hsrc Htx Hc. cbv zeta.
  assert (Hspec : forall t,
             In t (to_fetch txids existing_txid) <->
             In t txids /\
             ~ (exists c, In c existing_txid /\ str_lower (astype_str c) = t)).
  { intros t. rewrite to_fetch_spec. apply and_iff_compat_l. split.
    - intros H (c & Hin & Heq). now apply (H c).
    - intros H c Hin Heq. apply H. now exists c. }
  destruct (registered_source _ Hsrc) as [api_base Hbase].
  split; [ | split; [ | split; [ | split ] ] ].
  1-4: unfold enrich_txids_with_block_info; rewrite Hsrc, Htx; cbn [negb];
    destruct (run_loop_quiet env _ api_base rate checkpoint_every
                (to_fetch txids existing_txid) Hq Hfit Hbase Hc)
      as (Hok & Hl & _).
  - exact Hok.
  - exact Hl.
  - rewrite Hl. apply NoDup_filter. eapply unique_txids_NoDup; eassumption.
  - intros t. rewrite Hl. apply Hspec.
  - intros env' rate' c' t. unfold enrich_txids_with_block_info.
    rewrite Hsrc, Htx. cbn [negb].
    destruct (run_loop_lookups env' (str_strip (str_lower source0)) rate' c'
                (to_fetch txids existing_txid)) as (rest & Hrest & _).
    intros Hin. apply Hspec. rewrite Hrest. apply in_or_app. now left.
Qed.

Lemma resume_fetches_missing_witness :
  lookups (trace (snd (enrich_txids_with_block_info
                         example_env example_input "txid" [Some "B"]
                         " BlockStream " 4 3)))
  = ["a"; "c"; "d"; "e"; "f"; "g"; "h"].
Proof.
  destruct (resume_fetches_missing
              example_env example_input "txid" [Some "B"] " BlockStream " 4 3
              ["a"; "b"; "c"; "d"; "e"; "f"; "g"; "h"])
    as (_ & H & _).
  - split; [ reflexivity | intros api_base t k e H; discriminate H ].
  - right. split; [ discriminate | ].
    split; [ discriminate | intros i; discriminate ].
  - reflexivity.
  - reflexivity.
  - discriminate.
  - exact H.
Defined.

(** *** Checkpoints (C8) *)

(** C8: a run without interrupts, whose limiter asks [time.sleep] for
    no more than it takes, with a positive checkpoint interval [c] and
    [N] keys to fetch, comes to its end; all [N] keys are resolved, the
    writes to the store happen after the resolutions whose number is a
    multiple of [c] or is [N], each write holds the records resolved
    since the write before, and no batch is left; with [c = 3] and
    [N = 7] the writes come after the resolutions 3, 6 and 7. *)
Theorem checkpoint_schedule (env : environment) (input_csv : dataframe)
    (txid_column : string) (existing_txid : list cell) (source0 : string)
    (rate : Q) (checkpoint_every : Z) (txids : list string) :
  quiet env ->
  limiter_fits env rate ->
  mem (str_strip (str_lower source0)) (map fst API_BASES) = true ->
  unique_txids_from_csv input_csv txid_column = Ret txids ->
  0 < checkpoint_every ->
  let keys := to_fetch txids existing_txid in
  let N := List.length keys in
  let run := enrich_txids_with_block_info env input_csv txid_column
               existing_txid source0 rate checkpoint_every in
  let tr := trace (snd run) in
  fst run = Ret tt
  /\ map txid (resolved tr) = keys
  /\ map fst (writes tr)
     = filter (fun i => (Z.of_nat i mod checkpoint_every =? 0) || (i =? N)%nat)
              (seq 1 N)
  /\ map snd (writes tr) = split_at 0 (map fst (writes tr)) (resolved tr)
  /\ stored tr = resolved tr
  /\ results_batch (snd run) = []
  /\ (checkpoint_every = 3 -> N = 7%nat -> map fst (writes tr) = [3; 6; 7]%nat).
Proof.
  intros Hq Hfit Hsrc Htx Hc. cbv zeta.
  destruct (registered_source _ Hsrc) as [api_base Hbase].
  pose proof (run_loop_flushes env (str_strip (str_lower source0)) rate
                checkpoint_every (to_fetch txids existing_txid)) as Hfl.
  cbv zeta in Hfl. destruct Hfl as (_ & _ & Hst).
  revert Hst.
  unfold enrich_txids_with_block_info. rewrite Hsrc, Htx. cbn [negb].
  destruct (run_loop_quiet env _ api_base rate checkpoint_every
              (to_fetch txids existing_txid) Hq Hfit Hbase ltac:(lia))
    as (Hok & Hl & Hkeys & Hw & Hb).
  intros Hst.
  assert (Hlen : List.length
                   (resolved (trace (snd (run_loop env
                      (str_strip (str_lower source0)) rate checkpoint_every
                      (to_fetch txids existing_txid)))))
                 = List.length (to_fetch txids existing_txid)).
  { rewrite <- Hkeys at 2. now rewrite length_map. }
  assert (Hpoints :
            map fst (writes (trace (snd (run_loop env
                      (str_strip (str_lower source0)) rate checkpoint_every
                      (to_fetch txids existing_txid)))))
            = filter (checkpoint_due checkpoint_every
                        (List.length (to_fetch txids existing_txid)))
                     (seq 1 (List.length (to_fetch txids existing_txid)))).
  { rewrite Hw, expected_writes_points, Hlen. reflexivity. }
  split; [ exact Hok | ].
  split; [ exact Hkeys | ].
  split; [ exact Hpoints | ].
  split.
  { rewrite Hw at 1 2.
    rewrite (expected_writes_batches checkpoint_every _ _ 1 []) by (cbn; lia).
    reflexivity. }
  split; [ exact (Hst Hok) | ].
  split; [ exact Hb | ].
  intros -> HN. rewrite Hpoints, HN. reflexivity.
Qed.

Lemma checkpoint_schedule_witness :
  map fst (writes (trace (snd (enrich_txids_with_block_info
                                 example_env example_input "txid" [Some "B"]
                                 " BlockStream " 4 3))))
  = [3; 6; 7]%nat.
Proof.
  destruct (checkpoint_schedule
              example_env example_input "txid" [Some "B"] " BlockStream " 4 3
              ["a"; "b"; "c"; "d"; "e"; "f"; "g"; "h"])
    as (_ & _ & _ & _ & _ & _ & H).
  - split; [ reflexivity | intros api_base t k e H; discriminate H ].
  - right. split; [ discriminate | ].
    split; [ discriminate | intros i; discriminate ].
  - reflexivity.
  - reflexivity.
  - reflexivity.
  - apply H; reflexivity.
Defined.

(** *** Rate limiter (C4) *)

Lemma spaced_snoc (gap : Q) (l : list Q) (x : Q) :
  spaced gap l ->
  (forall t, In t l -> (t + gap <= x)%Q) ->
  spaced gap (l ++ [x]).
Proof.
  induction l as [ | a l IH ]; intros Hs Hx.
  - exact I.
  - destruct l as [ | b l ].
    + cbn. split; [ apply Hx; now left | exact I ].
    + destruct Hs as [Hab Hs]. split; [ exact Hab | ].
      apply IH; [ exact Hs | ].
      intros t Ht. apply Hx. now right.
Qed.

Lemma spaced_span (gap : Q) (l : list Q) :
  forall a d : Q,
    spaced gap (a :: l) ->
    (a + inject_Z (Z.of_nat (List.length l)) * gap <= last (a :: l) d)%Q.
Proof.
  induction l as [ | b l IH ]; intros a d Hs.
  - cbn [List.length last Z.of_nat]. change (inject_Z 0) with 0%Q. lra.
  - destruct Hs as [Hab Hs].
    specialize (IH b d Hs).
    change (last (a :: b :: l) d) with (last (b :: l) d).
    cbn [List.length]. rewrite Nat2Z.inj_succ. unfold Z.succ.
    rewrite inject_Z_plus. change (inject_Z 1) with 1%Q.
    lra.
Qed.

Lemma gate_times (env : environment) (rate : Q) (i : nat)
      (st : engine_state) :
  (0 < rate)%Q ->
  (0 <= gate_delay env i)%Q ->
  match gate env rate i st with
  | (r, st') =>
      trace st' = trace st
      /\ ((last_call_ts st + 1 / rate <= last_call_ts st')%Q
          \/ (st' = st /\ exists e, r = Raise e))
  end.
Proof.
  intros Hr Hd.
  pose proof (rate_limit_sleep_waits (last_call_ts st) rate (clock st) Hr)
    as Hw.
  unfold_engine.
  destruct (interrupt env i) as [ [ | | ] | ]; cbn;
    try (split; [ reflexivity | right; eauto ]; fail);
    (destruct (rate_limit_sleep (last_call_ts st) rate (clock st)) as [d | ];
     [ destruct (time_sleep d); cbn | cbn ];
     (split; [ reflexivity | ]);
     first [ left; lra | right; eauto ]).
Qed.

Lemma after_gate_times (env : environment) (source0 : string) (c : Z)
      (i n : nat) (t : string) (st : engine_state) :
  match (rec <~ lookup env source0 i t ;;
         append rec ;;; checkpoint env c i n) st with
  | (r, st') =>
      last_call_ts st' = last_call_ts st
      /\ call_times (trace st') = call_times (trace st) ++ [last_call_ts st]
  end.
Proof.
  unfold_engine. split_engine;
    rewrite ?call_times_app; cbn; rewrite ?call_times_app; cbn;
    rewrite ?call_times_app; cbn; rewrite ?app_nil_r; auto.
Qed.

Lemma loop_body_times (env : environment) (source0 : string) (rate : Q)
      (c : Z) (i n : nat) (t : string) (st : engine_state) :
  (0 < rate)%Q ->
  (0 <= gate_delay env i)%Q ->
  times_ok (1 / rate) st ->
  times_ok (1 / rate) (snd (loop_body env source0 rate c i n t st)).
Proof.
  intros Hr Hd [Hs Hle].
  assert (Hgap : (0 < 1 / rate)%Q).
  { unfold Qdiv. rewrite Qmult_1_l. now apply Qinv_lt_0_compat. }
  unfold loop_body. unfold mbind at 1.
  pose proof (gate_times env rate i st Hr Hd) as Hg.
  destruct (gate env rate i st) as [[u | e] st1]; cbn [snd].
  - destruct Hg as [Htr [Hlast | [_ [e He]]]]; [ | discriminate ].
    pose proof (after_gate_times env source0 c i n t st1) as Ha.
    destruct ((rec <~ lookup env source0 i t ;;
               append rec ;;; checkpoint env c i n) st1) as [r st2].
    destruct Ha as [Hl2 Hc2]. cbn [snd].
    unfold times_ok. rewrite Hc2, Hl2, Htr. split.
    + apply spaced_snoc; [ assumption | ].
      intros x Hx. specialize (Hle x Hx). lra.
    + intros x Hx. apply in_app_or in Hx. destruct Hx as [Hx | [<- | []]].
      * specialize (Hle x Hx). lra.
      * lra.
  - destruct Hg as [Htr [Hlast | [-> _]]].
    + unfold times_ok. rewrite Htr. split; [ assumption | ].
      intros x Hx. specialize (Hle x Hx). lra.
    + now split.
Qed.

Lemma for_loop_times (env : environment) (source0 : string) (rate : Q)
      (c : Z) (n : nat) (items : list string) :
  (0 < rate)%Q ->
  (forall i, (0 <= gate_delay env i)%Q) ->
  forall (i : nat) (st : engine_state),
    times_ok (1 / rate) st ->
    times_ok (1 / rate) (snd (for_loop env source0 rate c i n items st)).
Proof.
  intros Hr Hd.
  induction items as [ | t items IH ]; intros i st Hok.
  - exact Hok.
  - cbn [for_loop]. unfold mbind at 1.
    pose proof (loop_body_times env source0 rate c i n t st Hr (Hd i) Hok)
      as Hb.
    destruct (loop_body env source0 rate c i n t st) as [[u | e] st1];
      cbn [snd] in *.
    + now apply IH.
    + exact Hb.
Qed.

Lemma final_flush_call_times (st : engine_state) :
  call_times (trace (snd (final_flush st))) = call_times (trace st).
Proof.
  unfold_engine. destruct (results_batch st); cbn; [ reflexivity | ].
  rewrite call_times_app. cbn. now rewrite app_nil_r.
Qed.

Lemma run_loop_times (env : environment) (source0 : string) (rate : Q)
      (c : Z) (keys : list string) :
  (0 < rate)%Q ->
  (forall i, (0 <= gate_delay env i)%Q) ->
  spaced (1 / rate)
         (call_times (trace (snd (run_loop env source0 rate c keys)))).
Proof.
  intros Hr Hd. unfold run_loop, try_finally.
  pose proof (for_loop_times env source0 rate c (List.length keys) keys Hr Hd
                1%nat (initial_state env)) as Hl.
  destruct (for_loop _ _ _ _ _ _ _ _) as [r st1]. cbn [snd] in Hl.
  pose proof (final_flush_call_times st1) as Hf.
  destruct (final_flush st1) as [[u | e] st2]; cbn [snd] in *;
    rewrite Hf; apply Hl; (split; [ exact I | intros t [] ]).
Qed.

(** C4: with a rate that is not positive the limiter does not sleep;
    with a positive rate it sleeps, when less than [1/rate] has passed
    since [last_call_ts], for what is missing, and not at all
    otherwise; and the instants at which the engine starts its
    lookups are [1/rate] apart, so that [N] lookups span at least
    [(N - 1)/rate]. *)
Theorem rate_limiting (env : environment) (input_csv : dataframe)
    (txid_column : string) (existing_txid : list cell) (source0 : string)
    (checkpoint_every : Z) (rate idle last_ts now : Q) :
  (idle <= 0)%Q ->
  (0 < rate)%Q ->
  (forall i, (0 <= gate_delay env i)%Q) ->
  rate_limit_sleep last_ts idle now = None
  /\ match rate_limit_sleep last_ts rate now with
     | Some d => (0 < d)%Q /\ (now + d == last_ts + 1 / rate)%Q
     | None => (last_ts + 1 / rate <= now)%Q
     end
  /\ let times :=
       call_times (trace (snd (enrich_txids_with_block_info
                                 env input_csv txid_column existing_txid
                                 source0 rate checkpoint_every))) in
     spaced (1 / rate) times
     /\ forall first rest,
         times = first :: rest ->
         (first + inject_Z (Z.of_nat (List.length rest)) * (1 / rate)
          <= last times first)%Q.
Proof.
  intros Hidle Hr Hd.
  split; [ now apply rate_limit_sleep_idle | ].
  split; [ now apply rate_limit_sleep_waits | ].
  cbv zeta.
  assert (Hsp : spaced (1 / rate)
                  (call_times (trace (snd (enrich_txids_with_block_info
                     env input_csv txid_column existing_txid
                     source0 rate checkpoint_every))))).
  { unfold enrich_txids_with_block_info.
    destruct (negb (mem _ _)); [ exact I | ].
    destruct (unique_txids_from_csv input_csv txid_column);
      [ now apply run_loop_times | exact I ]. }
  split; [ exact Hsp | ].
  intros first rest Heq. rewrite Heq in *.
  now apply spaced_span.
Qed.

Lemma rate_limiting_witness :
  spaced (1 / 4)
         (call_times (trace (snd (enrich_txids_with_block_info
                                    example_env example_input "txid"
                                    [Some "B"] "blockstream" 4 3)))).
Proof.
  destruct (rate_limiting example_env example_input "txid" [Some "B"]
                          "blockstream" 3 4 0 0 1)
    as (_ & _ & H & _).
  - discriminate.
  - reflexivity.
  - intros i. discriminate.
  - exact H.
Defined.

Example rate_limited_run :
  map Qred (call_times (trace (snd (enrich_txids_with_block_info
                                      example_env example_input "txid"
                                      [Some "B"] "blockstream" 4 3))))
  = [1000; 4001 # 4; 2001 # 2; 4003 # 4; 1001; 4005 # 4; 2003 # 2]%Q.
Proof. vm_compute. reflexivity. Qed.

(* ================================================================= *)
(** * Further properties *)

(** ** Retry policy: what is retried, and for how long *)

Lemma retry_loop_retried (fetch : nat -> fetch_outcome)
      (txid0 source0 : string) (max_retries : Z) (backoff_base : Q)
      (attempt : Z) (ncalls : nat) (slept : list Q) :
  forall k,
    (ncalls <= k)%nat ->
    (S k < calls (retry_loop fetch txid0 source0 max_retries backoff_base
                             attempt ncalls slept))%nat ->
    retryable (fetch k) = true.
Proof.
  apply (retry_loop_induction fetch txid0 source0 max_retries backoff_base
           (fun _ ncalls _ run =>
              forall k, (ncalls <= k)%nat -> (S k < calls run)%nat ->
                        retryable (fetch k) = true)).
  clear attempt ncalls slept. intros attempt ncalls slept IH k Hk.
  assert (Hstop : forall r,
             (S k < calls {| outcome := r; calls := S ncalls;
                             sleeps := slept |})%nat ->
             retryable (fetch k) = true)
    by (cbn; intros r H; exfalso; lia).
  assert (Hgo : attempt + 1 <= max_retries ->
                retryable (fetch ncalls) = true ->
                (S k < calls (retry_loop fetch txid0 source0 max_retries
                                backoff_base (attempt + 1) (S ncalls)
                                (slept ++ [sleep_s backoff_base (attempt + 1)])))%nat ->
                retryable (fetch k) = true).
  { intros Hle Hr Hc. destruct (Nat.eq_dec k ncalls) as [-> | Hne].
    - exact Hr.
    - apply (IH Hle); [ lia | exact Hc ]. }
  rewrite retry_loop_equation_1. cbv beta zeta.
  destruct (fetch ncalls) as [tx | sc | | | e] eqn:Hf; try apply Hstop.
  - destruct (match sc with Some c => c =? 404 | None => false end) eqn:E1;
      try apply Hstop.
    destruct (client_error_final sc) eqn:E2; try apply Hstop.
    destruct (Z_gt_le_dec (attempt + 1) max_retries); try apply Hstop.
    destruct (backoff_sleep _ _); try apply Hstop.
    apply Hgo; [ assumption | ]. cbn. now rewrite E1, E2.
  - destruct (Z_gt_le_dec (attempt + 1) max_retries); try apply Hstop.
    destruct (backoff_sleep _ _); try apply Hstop.
    now apply Hgo.
  - destruct (Z_gt_le_dec (attempt + 1) max_retries); try apply Hstop.
    destruct (backoff_sleep _ _); try apply Hstop.
    now apply Hgo.
Qed.

(** X1: Every call that is followed by another call failed in a way that
    is retried: with 429, with an HTTP status outside 400..499, with an
    HTTP error that has no response, with a connection error or with a
    timeout.  A response, a 404, another 4xx and any other exception
    end the lookup at once. *)
Theorem only_retryable_failures_are_retried
    (fetch_tx : string -> string -> nat -> fetch_outcome)
    (txid0 source0 api_base : string) (max_retries : Z) (backoff_base : Q)
    (k : nat) :
  assoc source0 API_BASES = Some api_base ->
  (S k < calls (robust_lookup fetch_tx txid0 source0 max_retries
                              backoff_base))%nat ->
  retryable (fetch_tx api_base txid0 k) = true.
Proof.
  intros Hsrc. unfold robust_lookup. rewrite Hsrc.
  apply retry_loop_retried. lia.
Qed.

Lemma only_retryable_failures_are_retried_witness :
  retryable ((fun (_ _ : string) (k : nat) =>
                if (k <? 3)%nat then HTTPError (Some 429)
                else Response confirmed_example)
               "https://mempool.space/api" "ab" 2%nat) = true.
Proof.
  apply (only_retryable_failures_are_retried
           (fun _ _ k => if (k <? 3)%nat then HTTPError (Some 429)
                         else Response confirmed_example)
           "ab" "mempool" "https://mempool.space/api" 5 (8 # 10) 2).
  - reflexivity.
  - vm_compute. lia.
Defined.

Lemma retry_loop_budget (fetch : nat -> fetch_outcome)
      (txid0 source0 : string) (max_retries : Z) (backoff_base : Q)
      (attempt : Z) (ncalls : nat) (slept : list Q) :
  backoffs_fit backoff_base max_retries ->
  (forall k, retryable (fetch k) = true) ->
  0 <= attempt ->
  retry_loop fetch txid0 source0 max_retries backoff_base attempt ncalls slept
  = {| outcome :=
         Ret (failure_record txid0 source0
                (exhaustion_message
                   (fetch (ncalls + Z.to_nat (max_retries - attempt))%nat)
                   max_retries));
       calls := S ncalls + Z.to_nat (max_retries - attempt);
       sleeps := slept ++ backoffs backoff_base attempt
                            (Z.to_nat (max_retries - attempt)) |}.
Proof.
  intros Hb Hnet.
  apply (retry_loop_induction fetch txid0 source0 max_retries backoff_base
           (fun attempt ncalls slept run =>
              0 <= attempt ->
              run = {| outcome :=
                         Ret (failure_record txid0 source0
                                (exhaustion_message
                                   (fetch (ncalls
                                           + Z.to_nat (max_retries - attempt))%nat)
                                   max_retries));
                       calls := S ncalls + Z.to_nat (max_retries - attempt);
                       sleeps := slept ++ backoffs backoff_base attempt
                                         (Z.to_nat (max_retries - attempt)) |})).
  clear attempt ncalls slept. intros attempt ncalls slept IH Hpos.
  assert (Hsleep : attempt + 1 <= max_retries ->
                   backoff_sleep backoff_base (attempt + 1) = Ret tt)
    by (intros Hle; apply (backoff_sleep_fits _ max_retries);
        [ assumption | lia ]).
  assert (Hgo : attempt + 1 <= max_retries ->
                retry_loop fetch txid0 source0 max_retries backoff_base
                           (attempt + 1) (S ncalls)
                           (slept ++ [sleep_s backoff_base (attempt + 1)])
                = {| outcome :=
                       Ret (failure_record txid0 source0
                              (exhaustion_message
                                 (fetch (ncalls
                                         + Z.to_nat (max_retries - attempt))%nat)
                                 max_retries));
                     calls := S ncalls + Z.to_nat (max_retries - attempt);
                     sleeps := slept ++ backoffs backoff_base attempt
                                       (Z.to_nat (max_retries - attempt)) |}).
  { intros Hle. rewrite (IH Hle) by lia.
    replace (Z.to_nat (max_retries - attempt))
      with (S (Z.to_nat (max_retries - (attempt + 1)))) by lia.
    rewrite backoffs_S, <- app_assoc, <- !plus_n_Sm. reflexivity. }
  pose proof (Hnet ncalls) as Hr.
  rewrite retry_loop_equation_1. cbv zeta.
  destruct (fetch ncalls) as [tx | sc | | | e] eqn:Hf; try discriminate Hr.
  - cbn in Hr. apply andb_true_iff in Hr. destruct Hr as [E1 E2].
    apply negb_true_iff in E1, E2. rewrite E1, E2.
    destruct (Z_gt_le_dec (attempt + 1) max_retries) as [Hgt | Hle].
    + replace (Z.to_nat (max_retries - attempt)) with 0%nat by lia.
      rewrite !Nat.add_0_r, Hf. cbn. now rewrite app_nil_r.
    + rewrite Hsleep by assumption. now apply Hgo.
  - destruct (Z_gt_le_dec (attempt + 1) max_retries) as [Hgt | Hle].
    + replace (Z.to_nat (max_retries - attempt)) with 0%nat by lia.
      rewrite !Nat.add_0_r, Hf. cbn. now rewrite app_nil_r.
    + rewrite Hsleep by assumption. now apply Hgo.
  - destruct (Z_gt_le_dec (attempt + 1) max_retries) as [Hgt | Hle].
    + replace (Z.to_nat (max_retries - attempt)) with 0%nat by lia.
      rewrite !Nat.add_0_r, Hf. cbn. now rewrite app_nil_r.
    + rewrite Hsleep by assumption. now apply Hgo.
Qed.

(** X2: When every call fails in a way that is retried, of whatever kind
    and in whatever order, and the backoff sleeps of the attempts 1 to
    [max_retries] are durations that [time.sleep] takes, the lookup
    makes [max_retries + 1] calls with these sleeps between them, and
    returns a failure record whose text names the kind of the last
    failure: "HTTP error" or "Network/Timeout". *)
Theorem retry_budget
    (fetch_tx : string -> string -> nat -> fetch_outcome)
    (txid0 source0 api_base : string) (max_retries : Z) (backoff_base : Q) :
  assoc source0 API_BASES = Some api_base ->
  backoffs_fit backoff_base max_retries ->
  (forall k, retryable (fetch_tx api_base txid0 k) = true) ->
  robust_lookup fetch_tx txid0 source0 max_retries backoff_base
  = {| outcome :=
         Ret (failure_record txid0 source0
                (exhaustion_message
                   (fetch_tx api_base txid0 (Z.to_nat max_retries))
                   max_retries));
       calls := S (Z.to_nat max_retries);
       sleeps := backoffs backoff_base 0 (Z.to_nat max_retries) |}.
Proof.
  intros Hsrc Hb Hnet. unfold robust_lookup. rewrite Hsrc.
  rewrite retry_loop_budget by (assumption || lia).
  rewrite Z.sub_0_r. reflexivity.
Qed.

Lemma retry_budget_witness :
  robust_lookup (fun _ _ k => if Nat.even k then Timeout else HTTPError None)
                "ab" "mempool" 2 (8 # 10)
  = {| outcome :=
         Ret (failure_record "ab" "mempool"
                (exhaustion_message
                   ((fun (_ _ : string) (k : nat) =>
                       if Nat.even k then Timeout else HTTPError None)
                      "https://mempool.space/api" "ab" (Z.to_nat 2))
                   2));
       calls := S (Z.to_nat 2);
       sleeps := backoffs (8 # 10) 0 (Z.to_nat 2) |}.
Proof.
  apply (retry_budget
           (fun _ _ k => if Nat.even k then Timeout else HTTPError None)
           "ab" "mempool" "https://mempool.space/api" 2 (8 # 10)).
  - reflexivity.
  - split; [ discriminate | ].
    intros attempt Ha.
    assert (Hcase : attempt = 1 \/ attempt = 2) by lia.
    destruct Hcase as [-> | ->]; unfold Qle; vm_compute; discriminate.
  - intros k. destruct (Nat.even k); reflexivity.
Defined.

Lemma sleep_s_first (backoff_base : Q) :
  (sleep_s backoff_base 1 == backoff_base * (17 # 10))%Q.
Proof.
  unfold sleep_s. change (backoff_base ^ 1)%Q with backoff_base.
  change (1 mod 3) with 1. unfold inject_Z. lra.
Qed.

(** X3: With a negative backoff base whose first sleep, [1.7] times the
    base, is a duration that [time.sleep] can hold, the first retry
    asks [time.sleep] for a negative duration: the [ValueError] is
    raised inside the [except] clause and leaves [robust_lookup], which
    returns no record. *)
Theorem negative_backoff_raises
    (fetch_tx : string -> string -> nat -> fetch_outcome)
    (txid0 source0 api_base : string) (max_retries : Z) (backoff_base : Q) :
  assoc source0 API_BASES = Some api_base ->
  (backoff_base < 0)%Q ->
  (- SLEEP_MAX <= sleep_s backoff_base 1)%Q ->
  1 <= max_retries ->
  retryable (fetch_tx api_base txid0 0%nat) = true ->
  robust_lookup fetch_tx txid0 source0 max_retries backoff_base
  = {| outcome := Raise (Exn ValueError "sleep length must be non-negative");
       calls := 1; sleeps := [] |}.
Proof.
  intros Hsrc Hb Hfit Hmax Hr. unfold robust_lookup. rewrite Hsrc.
  pose proof (sleep_s_first backoff_base) as Hfirst.
  assert (Hneg : backoff_sleep backoff_base (0 + 1)
                 = Raise (Exn ValueError "sleep length must be non-negative")).
  { change (0 + 1) with 1. unfold backoff_sleep, float_pow.
    change (backoff_base ^ 1)%Q with backoff_base.
    assert (Hpow : Qle_bool (Qabs backoff_base) FLOAT_MAX = true).
    { apply Qle_bool_iff. rewrite (Qabs_neg backoff_base) by lra.
      apply Qle_trans with SLEEP_MAX; [ lra | exact SLEEP_MAX_finite ]. }
    rewrite Hpow. cbn [Py.bind].
    apply time_sleep_negative. lra. }
  rewrite retry_loop_equation_1. cbv zeta.
  destruct (fetch_tx api_base txid0 0%nat) as [tx | sc | | | e];
    try discriminate Hr.
  - cbn in Hr. apply andb_true_iff in Hr. destruct Hr as [E1 E2].
    apply negb_true_iff in E1, E2. rewrite E1, E2.
    destruct (Z_gt_le_dec (0 + 1) max_retries); [ lia | ].
    now rewrite Hneg.
  - destruct (Z_gt_le_dec (0 + 1) max_retries); [ lia | ].
    now rewrite Hneg.
  - destruct (Z_gt_le_dec (0 + 1) max_retries); [ lia | ].
    now rewrite Hneg.
Qed.

Lemma negative_backoff_raises_witness :
  robust_lookup (fun _ _ _ => Timeout) "ab" "mempool" 5 (- (8 # 10))
  = {| outcome := Raise (Exn ValueError "sleep length must be non-negative");
       calls := 1; sleeps := [] |}.
Proof.
  apply (negative_backoff_raises (fun _ _ _ => Timeout)
                                 "ab" "mempool" "https://mempool.space/api").
  - reflexivity.
  - reflexivity.
  - unfold Qle. vm_compute. discriminate.
  - lia.
  - reflexivity.
Defined.

(** X25: When the first call fails in a way that is retried, a retry is
    left ([max_retries >= 1]) and the first backoff sleep, [1.7] times
    the base, is not a duration that [time.sleep] can hold (a base
    above about 5.4e9 or below about -5.4e9), the lookup ends after
    that one call with an [OverflowError], raised inside the [except]
    clause by the power or by [time.sleep]: no record is returned. *)
Theorem oversized_backoff_raises
    (fetch_tx : string -> string -> nat -> fetch_outcome)
    (txid0 source0 api_base : string) (max_retries : Z) (backoff_base : Q) :
  assoc source0 API_BASES = Some api_base ->
  (sleep_s backoff_base 1 < - SLEEP_MAX)%Q
  \/ (SLEEP_MAX < sleep_s backoff_base 1)%Q ->
  1 <= max_retries ->
  retryable (fetch_tx api_base txid0 0%nat) = true ->
  exists msg,
    robust_lookup fetch_tx txid0 source0 max_retries backoff_base
    = {| outcome := Raise (Exn OverflowError msg); calls := 1; sleeps := [] |}.
Proof.
  intros Hsrc Hbig Hmax Hr. unfold robust_lookup. rewrite Hsrc.
  assert (Hover : exists msg,
             backoff_sleep backoff_base (0 + 1)
             = Raise (Exn OverflowError msg)).
  { change (0 + 1) with 1. unfold backoff_sleep, float_pow.
    destruct (Qle_bool (Qabs (backoff_base ^ 1)) FLOAT_MAX);
      cbn [Py.bind]; [ | eauto ].
    rewrite (time_sleep_overflows _ Hbig). eauto. }
  destruct Hover as [msg Hover]. exists msg.
  rewrite retry_loop_equation_1. cbv zeta.
  destruct (fetch_tx api_base txid0 0%nat) as [tx | sc | | | e];
    try discriminate Hr.
  - cbn in Hr. apply andb_true_iff in Hr. destruct Hr as [E1 E2].
    apply negb_true_iff in E1, E2. rewrite E1, E2.
    destruct (Z_gt_le_dec (0 + 1) max_retries); [ lia | ].
    now rewrite Hover.
  - destruct (Z_gt_le_dec (0 + 1) max_retries); [ lia | ].
    now rewrite Hover.
  - destruct (Z_gt_le_dec (0 + 1) max_retries); [ lia | ].
    now rewrite Hover.
Qed.

Lemma oversized_backoff_raises_witness :
  exists msg,
    robust_lookup (fun _ _ _ => HTTPError (Some 503)) "ab" "mempool" 1
                  (inject_Z (2 ^ 40))
    = {| outcome := Raise (Exn OverflowError msg); calls := 1; sleeps := [] |}.
Proof.
  apply (oversized_backoff_raises (fun _ _ _ => HTTPError (Some 503))
                                  "ab" "mempool" "https://mempool.space/api").
  - reflexivity.
  - right. unfold Qlt. vm_compute. reflexivity.
  - lia.
  - reflexivity.
Defined.

(** ** Responses *)

(** X4: A response ends the lookup after that call and always gives a
    record: the success record of its fields, or, where reading the
    fields raises, the failure record "Unexpected: ..." of that
    exception.  Nothing raised while reading a response leaves
    [robust_lookup]. *)
Theorem response_ends_lookup
    (fetch_tx : string -> string -> nat -> fetch_outcome)
    (txid0 source0 api_base : string) (max_retries : Z) (backoff_base : Q)
    (tx_json : pyval) :
  assoc source0 API_BASES = Some api_base ->
  fetch_tx api_base txid0 0%nat = Response tx_json ->
  robust_lookup fetch_tx txid0 source0 max_retries backoff_base
  = {| outcome :=
         Ret (match extract_block_fields_from_esplora tx_json with
              | Ret f => success_record txid0 source0 f
              | Raise e => unexpected txid0 source0 e
              end);
       calls := 1; sleeps := [] |}.
Proof.
  intros Hsrc Hf. unfold robust_lookup. rewrite Hsrc.
  rewrite retry_loop_equation_1. cbv zeta. rewrite Hf.
  destruct (extract_block_fields_from_esplora tx_json) as [f | e] eqn:Hx; cbn.
  - reflexivity.
  - now rewrite (extract_raises _ _ Hx).
Qed.

Lemma response_ends_lookup_witness :
  robust_lookup (fun _ _ _ => Response confirmed_example)
                "ab" "mempool" 5 (8 # 10)
  = {| outcome :=
         Ret (match extract_block_fields_from_esplora confirmed_example with
              | Ret f => success_record "ab" "mempool" f
              | Raise e => unexpected "ab" "mempool" e
              end);
       calls := 1; sleeps := [] |}.
Proof.
  apply (response_ends_lookup (fun _ _ _ => Response confirmed_example)
                              "ab" "mempool" "https://mempool.space/api").
  - reflexivity.
  - reflexivity.
Defined.

(** X5: A body whose [status] is neither empty nor an object (a text, a
    number, [true], a list) has no [get]: the lookup returns the
    failure record "Unexpected: AttributeError: ..." naming the type. *)
Theorem malformed_status_is_recorded
    (fetch_tx : string -> string -> nat -> fetch_outcome)
    (txid0 source0 api_base : string) (max_retries : Z) (backoff_base : Q)
    (d : list (string * pyval)) (status : pyval) :
  assoc source0 API_BASES = Some api_base ->
  fetch_tx api_base txid0 0%nat = Response (PDict d) ->
  assoc "status" d = Some status ->
  truthy status = true ->
  (forall s, status <> PDict s) ->
  outcome (robust_lookup fetch_tx txid0 source0 max_retries backoff_base)
  = Ret (failure_record txid0 source0
           ("Unexpected: AttributeError: '" ++ type_name status
              ++ "' object has no attribute 'get'")%string).
Proof.
  intros Hsrc Hf Hst Htr Hnd. unfold robust_lookup. rewrite Hsrc.
  rewrite retry_loop_equation_1. cbv zeta. rewrite Hf.
  unfold extract_block_fields_from_esplora. rewrite Hst, Htr.
  destruct status as [ | b | z | f | s | l | s ]; try reflexivity.
  exfalso. now apply (Hnd s).
Qed.

Lemma malformed_status_is_recorded_witness :
  outcome (robust_lookup
             (fun _ _ _ => Response (PDict [("status", PStr "confirmed")]))
             "ab" "mempool" 5 (8 # 10))
  = Ret (failure_record "ab" "mempool"
           ("Unexpected: AttributeError: '" ++ type_name (PStr "confirmed")
              ++ "' object has no attribute 'get'")%string).
Proof.
  apply (malformed_status_is_recorded
           (fun _ _ _ => Response (PDict [("status", PStr "confirmed")]))
           "ab" "mempool" "https://mempool.space/api" 5 (8 # 10)
           [("status", PStr "confirmed")] (PStr "confirmed")).
  - reflexivity.
  - reflexivity.
  - reflexivity.
  - reflexivity.
  - intros s. discriminate.
Defined.

(** ** Batch engine: the records of a run *)

Lemma batches_app (a b : list event) : batches (a ++ b) = batches a ++ batches b.
Proof.
  induction a as [ | [t ts | r | bt] a IH ]; cbn; rewrite ?IH; reflexivity.
Qed.

Lemma robust_lookup_names
      (fetch_tx : string -> string -> nat -> fetch_outcome)
      (t source0 : string) (max_retries : Z) (backoff_base : Q)
      (rec : lookup_record) :
  outcome (robust_lookup fetch_tx t source0 max_retries backoff_base) = Ret rec ->
  txid rec = t /\ api_source rec = source0.
Proof.
  unfold robust_lookup.
  destruct (assoc source0 API_BASES) as [api_base | ]; [ | discriminate ].
  intros H. destruct (retry_loop_record _ _ _ _ _ _ _ _ _ H) as (Ht & Hs & _).
  now split.
Qed.

Lemma gate_keeps (env : environment) (rate : Q) (i : nat)
      (st : engine_state) :
  trace (snd (gate env rate i st)) = trace st
  /\ results_batch (snd (gate env rate i st)) = results_batch st.
Proof. unfold_engine. split_engine; auto. Qed.

Lemma after_gate_records (env : environment) (source0 : string)
      (c : Z) (i n : nat) (t : string) (st : engine_state) :
  records_ok env source0 [] st ->
  match (rec <~ lookup env source0 i t ;;
         append rec ;;; checkpoint env c i n) st with
  | (Ret _, st') => records_ok env source0 [] st'
  | (Raise _, st') =>
      records_ok env source0 [] st' \/ records_ok env source0 [t] st'
  end.
Proof.
  unfold records_ok. intros (Hl & Hs & Hb & Hst & Hne).
  rewrite app_nil_r in Hl.
  pose proof (robust_lookup_names (net env) t source0 default_max_retries
                default_backoff_base) as Hn.
  assert (Hincl : forall (l : list lookup_record) x,
             incl l (resolved (trace st)) ->
             incl l (resolved (trace st) ++ [x]))
    by (intros l x H; now apply incl_appl).
  assert (Hsnoc : forall x, incl (results_batch st ++ [x])
                                 (resolved (trace st) ++ [x])).
  { intros x. apply incl_app; [ now apply incl_appl | ].
    apply incl_appr, incl_refl. }
  unfold_engine.
  destruct (interrupt env i) as [ [ | | ] | ]; cbn;
    try (left; rewrite app_nil_r; now repeat split);
    (destruct (outcome _) as [rec | e] eqn:Hout; cbn;
     [ destruct (Hn rec eq_refl) as [Ht Hsrc]
     | right;
       rewrite !lookups_app, !resolved_app, !stored_app, !batches_app; cbn;
       rewrite !app_nil_r, Hl; now repeat split ]);
    repeat match goal with
           | |- context [if ?b then _ else _] => destruct b; cbn
           end;
    try left;
    rewrite ?lookups_app, ?resolved_app, ?stored_app, ?batches_app; cbn;
    rewrite ?lookups_app, ?resolved_app, ?stored_app, ?batches_app; cbn;
    rewrite ?lookups_app, ?resolved_app, ?stored_app, ?batches_app; cbn;
    rewrite ?app_nil_r, ?map_app, ?Hl; cbn; rewrite ?Ht;
    (split; [ reflexivity | ]);
    (split; [ apply Forall_app; split;
              [ assumption
              | constructor; [ exists t; exact Hout | constructor ] ] | ]);
    (split; [ auto using incl_nil_l | ]);
    (split; [ try apply incl_app; auto | ]);
    try assumption;
    try (apply Forall_app; split; [ assumption | ];
         constructor; [ | constructor ];
         intros H; now apply app_eq_nil in H as [_ H]).
Qed.

Lemma loop_body_records (env : environment) (source0 : string) (rate : Q)
      (c : Z) (i n : nat) (t : string) (st : engine_state) :
  records_ok env source0 [] st ->
  match loop_body env source0 rate c i n t st with
  | (Ret _, st') => records_ok env source0 [] st'
  | (Raise _, st') =>
      records_ok env source0 [] st' \/ records_ok env source0 [t] st'
  end.
Proof.
  intros Hok. unfold loop_body. unfold mbind at 1.
  destruct (gate_keeps env rate i st) as [Htr Hbt].
  destruct (gate env rate i st) as [[u | e] st1]; cbn [snd] in Htr, Hbt.
  - apply after_gate_records.
    unfold records_ok in *. now rewrite Htr, Hbt.
  - left. unfold records_ok in *. now rewrite Htr, Hbt.
Qed.

Lemma for_loop_records (env : environment) (source0 : string) (rate : Q)
      (c : Z) (n : nat) (items : list string) :
  forall (i : nat) (st : engine_state),
    records_ok env source0 [] st ->
    match for_loop env source0 rate c i n items st with
    | (Ret _, st') => records_ok env source0 [] st'
    | (Raise _, st') =>
        exists in_flight,
          records_ok env source0 in_flight st'
          /\ (List.length in_flight <= 1)%nat
    end.
Proof.
  induction items as [ | t items IH ]; intros i st Hok.
  - exact Hok.
  - cbn [for_loop]. unfold mbind at 1.
    pose proof (loop_body_records env source0 rate c i n t st Hok) as Hb.
    destruct (loop_body env source0 rate c i n t st) as [[u | e] st1].
    + now apply IH.
    + destruct Hb as [Hb | Hb].
      * exists []. split; [ assumption | cbn; lia ].
      * exists [t]. split; [ assumption | cbn; lia ].
Qed.

Lemma final_flush_records (env : environment) (source0 : string)
      (in_flight : list string) (st : engine_state) :
  records_ok env source0 in_flight st ->
  records_ok env source0 in_flight (snd (final_flush st))
  /\ exists u, fst (final_flush st) = Ret u.
Proof.
  unfold records_ok. intros (Hl & Hs & Hb & Hst & Hne).
  unfold_engine. destruct (results_batch st) as [ | r b ] eqn:E; cbn.
  - split; [ | eauto ]. rewrite E. now repeat split.
  - split; [ | eauto ].
    rewrite lookups_app, resolved_app, stored_app, batches_app. cbn.
    rewrite !app_nil_r, E.
    split; [ assumption | ]. split; [ assumption | ].
    split; [ assumption | ].
    split; [ now apply incl_app | ].
    apply Forall_app. split; [ assumption | ].
    constructor; [ discriminate | constructor ].
Qed.

Lemma run_loop_records (env : environment) (source0 : string) (rate : Q)
      (c : Z) (keys : list string) :
  let run := run_loop env source0 rate c keys in
  exists in_flight,
    records_ok env source0 in_flight (snd run)
    /\ (List.length in_flight <= 1)%nat
    /\ (fst run = Ret tt -> in_flight = []).
Proof.
  cbv zeta. unfold run_loop, try_finally.
  assert (H0 : records_ok env source0 [] (initial_state env)).
  { unfold records_ok. cbn.
    split; [ reflexivity | ]. split; [ constructor | ].
    split; [ apply incl_nil_l | ]. split; [ apply incl_nil_l | constructor ]. }
  pose proof (for_loop_records env source0 rate c (List.length keys) keys 1
                (initial_state env) H0) as Hl.
  destruct (for_loop _ _ _ _ _ _ _ _) as [[u | e] st1].
  - destruct (final_flush_records env source0 [] st1 Hl) as [Hf [u' Hu]].
    destruct (final_flush st1) as [r2 st2]. cbn [fst snd] in *. subst r2.
    exists []. split; [ exact Hf | ]. split; [ cbn; lia | reflexivity ].
  - destruct Hl as (fl & Hok & Hlen).
    destruct (final_flush_records env source0 fl st1 Hok) as [Hf [u' Hu]].
    destruct (final_flush st1) as [r2 st2]. cbn [fst snd] in *. subst r2.
    exists fl. split; [ exact Hf | ]. split; [ exact Hlen | discriminate ].
Qed.

Lemma enrich_records (env : environment) (input_csv : dataframe)
      (txid_column : string) (existing_txid : list cell) (source0 : string)
      (rate : Q) (checkpoint_every : Z) :
  let run := enrich_txids_with_block_info env input_csv txid_column
               existing_txid source0 rate checkpoint_every in
  exists in_flight,
    records_ok env (str_strip (str_lower source0)) in_flight (snd run)
    /\ (List.length in_flight <= 1)%nat
    /\ (fst run = Ret tt -> in_flight = []).
Proof.
  cbv zeta. unfold enrich_txids_with_block_info.
  assert (H0 : exists in_flight,
             records_ok env (str_strip (str_lower source0)) in_flight
                        (initial_state env)
             /\ (List.length in_flight <= 1)%nat).
  { exists []. split; [ | cbn; lia ]. unfold records_ok. cbn.
    split; [ reflexivity | ]. split; [ constructor | ].
    split; [ apply incl_nil_l | ]. split; [ apply incl_nil_l | constructor ]. }
  destruct (negb (mem _ _)).
  - destruct H0 as (fl & Hok & Hlen). exists fl. cbn [fst snd].
    split; [ exact Hok | ]. split; [ exact Hlen | discriminate ].
  - destruct (unique_txids_from_csv input_csv txid_column) as [txids | e].
    + apply run_loop_records.
    + destruct H0 as (fl & Hok & Hlen). exists fl. cbn [fst snd].
      split; [ exact Hok | ]. split; [ exact Hlen | discriminate ].
Qed.

(** X6: In every run, however it ends, the keys are resolved in the order
    in which they are looked up, each lookup gives one record for its
    key before the next lookup starts, and at most one lookup, the last
    one, is left without a record (when the run is aborted inside it);
    a run that ends normally leaves none. *)
Theorem one_lookup_in_flight (env : environment) (input_csv : dataframe)
    (txid_column : string) (existing_txid : list cell) (source0 : string)
    (rate : Q) (checkpoint_every : Z) :
  let run := enrich_txids_with_block_info env input_csv txid_column
               existing_txid source0 rate checkpoint_every in
  exists in_flight,
    lookups (trace (snd run))
    = map txid (resolved (trace (snd run))) ++ in_flight
    /\ (List.length in_flight <= 1)%nat
    /\ (fst run = Ret tt -> in_flight = []).
Proof.
  cbv zeta.
  destruct (enrich_records env input_csv txid_column existing_txid source0
                           rate checkpoint_every)
    as (fl & (Hl & _) & Hlen & Hend).
  exists fl. auto.
Qed.

(** X7: In every run, however it ends, a row written to the store is a
    record resolved in this run: its [txid] is a key this run looked
    up, so a unique key of the input that the store did not hold, and
    its [api_source] is the source of the run, lower-cased and
    stripped. *)
Theorem stored_rows_are_this_runs_records (env : environment)
    (input_csv : dataframe) (txid_column : string)
    (existing_txid : list cell) (source0 : string) (rate : Q)
    (checkpoint_every : Z) (txids : list string) (rec : lookup_record) :
  unique_txids_from_csv input_csv txid_column = Ret txids ->
  In rec (stored (trace (snd (enrich_txids_with_block_info
                                env input_csv txid_column existing_txid
                                source0 rate checkpoint_every)))) ->
  In rec (resolved (trace (snd (enrich_txids_with_block_info
                                  env input_csv txid_column existing_txid
                                  source0 rate checkpoint_every))))
  /\ api_source rec = str_strip (str_lower source0)
  /\ In (txid rec) (to_fetch txids existing_txid).
Proof.
  intros Htx Hin.
  destruct (enrich_records env input_csv txid_column existing_txid source0
                           rate checkpoint_every)
    as (fl & (Hl & Hs & _ & Hst & _) & _ & _).
  pose proof (Hst rec Hin) as Hres.
  split; [ exact Hres | ].
  split.
  { destruct (proj1 (Forall_forall _ _) Hs rec Hres) as [t Ht].
    now apply robust_lookup_names in Ht. }
  assert (Hlk : In (txid rec)
                   (lookups (trace (snd (enrich_txids_with_block_info
                      env input_csv txid_column existing_txid
                      source0 rate checkpoint_every))))).
  { rewrite Hl. apply in_or_app. left. now apply in_map. }
  revert Hlk. unfold enrich_txids_with_block_info. rewrite Htx.
  destruct (negb (mem _ _)); [ intros [] | ].
  destruct (run_loop_lookups env (str_strip (str_lower source0)) rate
              checkpoint_every (to_fetch txids existing_txid))
    as (rest & Hrest & _).
  intros Hlk. rewrite Hrest. apply in_or_app. now left.
Qed.

Lemma stored_rows_are_this_runs_records_witness :
  api_source (failure_record "a" "blockstream" "404 Not Found")
  = str_strip (str_lower " BlockStream ").
Proof.
  apply (stored_rows_are_this_runs_records
           example_env example_input "txid" [Some "B"] " BlockStream " 4 3
           ["a"; "b"; "c"; "d"; "e"; "f"; "g"; "h"]
           (failure_record "a" "blockstream" "404 Not Found")).
  - reflexivity.
  - vm_compute. left. reflexivity.
Defined.

(** X8: No write to the store is empty: a checkpoint writes after a record
    joined the batch, and the [finally] block writes only a batch that
    is not empty.  A write to a missing or empty file therefore leaves
    a file that is not empty, and the header goes to the first write
    only. *)
Theorem no_empty_write (env : environment) (input_csv : dataframe)
    (txid_column : string) (existing_txid : list cell) (source0 : string)
    (rate : Q) (checkpoint_every : Z) :
  Forall (fun b => b <> [])
         (batches (trace (snd (enrich_txids_with_block_info
                                 env input_csv txid_column existing_txid
                                 source0 rate checkpoint_every)))).
Proof.
  destruct (enrich_records env input_csv txid_column existing_txid source0
                           rate checkpoint_every)
    as (fl & (_ & _ & _ & _ & Hne) & _ & _).
  exact Hne.
Qed.

(** ** Batch engine: configuration *)

(** X9: An unknown source or a missing identifier column ends the engine
    with a [ValueError] before any lookup and any write. *)
Theorem configuration_errors_do_no_work (env : environment)
    (input_csv : dataframe) (txid_column : string)
    (existing_txid : list cell) (source0 : string) (rate : Q)
    (checkpoint_every : Z) :
  mem (str_strip (str_lower source0)) (map fst API_BASES) = false
  \/ assoc txid_column input_csv = None ->
  let run := enrich_txids_with_block_info env input_csv txid_column
               existing_txid source0 rate checkpoint_every in
  (exists msg, fst run = Raise (Exn ValueError msg))
  /\ trace (snd run) = []
  /\ results_batch (snd run) = [].
Proof.
  intros H. cbv zeta. unfold enrich_txids_with_block_info.
  destruct (mem (str_strip (str_lower source0)) (map fst API_BASES)) eqn:Hm;
    cbn [negb].
  - destruct H as [H | H]; [ discriminate | ].
    unfold unique_txids_from_csv. rewrite H. cbn. eauto.
  - cbn. eauto.
Qed.

Lemma configuration_errors_do_no_work_witness :
  (exists msg,
      fst (enrich_txids_with_block_info example_env example_input "hash"
             [] "blockstream" 4 3) = Raise (Exn ValueError msg))
  /\ trace (snd (enrich_txids_with_block_info example_env example_input "hash"
                   [] "blockstream" 4 3)) = []
  /\ results_batch (snd (enrich_txids_with_block_info example_env
                           example_input "hash" [] "blockstream" 4 3)) = [].
Proof.
  apply (configuration_errors_do_no_work example_env example_input "hash"
                                         [] "blockstream" 4 3).
  right. reflexivity.
Defined.

Lemma mod_opp_zero (a c : Z) : (a mod (- c) =? 0) = (a mod c =? 0).
Proof.
  destruct (Z.eq_dec c 0) as [-> | Hc]; [ reflexivity | ].
  destruct (a mod c =? 0) eqn:E.
  - apply Z.eqb_eq in E. apply Z.eqb_eq. now apply Z.mod_opp_r_z.
  - apply Z.eqb_neq in E. apply Z.eqb_neq.
    rewrite Z.mod_opp_r_nz by assumption.
    pose proof (Z.mod_bound_or a c Hc). lia.
Qed.

Lemma for_loop_opp (env : environment) (source0 : string) (rate : Q)
      (c : Z) (n : nat) (items : list string) :
  forall (i : nat) (st : engine_state),
    for_loop env source0 rate (- c) i n items st
    = for_loop env source0 rate c i n items st.
Proof.
  induction items as [ | t items IH ]; intros i st.
  - reflexivity.
  - cbn [for_loop]. unfold mbind at 1 2.
    assert (Hb : loop_body env source0 rate (- c) i n t st
                 = loop_body env source0 rate c i n t st).
    { unfold loop_body, checkpoint, mbind.
      rewrite mod_opp_zero.
      replace (- c =? 0) with (c =? 0)
        by (destruct (Z.eqb_spec c 0); destruct (Z.eqb_spec (- c) 0); lia).
      reflexivity. }
    rewrite Hb.
    destruct (loop_body env source0 rate c i n t st) as [[u | e] st1];
      [ apply IH | reflexivity ].
Qed.

(** X10: A negative checkpoint interval is no error: the test
    [i % checkpoint_every == 0] picks the same counters for [-c] as
    for [c], so the whole run is the same. *)
Theorem negative_interval_as_positive (env : environment)
    (input_csv : dataframe) (txid_column : string)
    (existing_txid : list cell) (source0 : string) (rate : Q) (c : Z) :
  enrich_txids_with_block_info env input_csv txid_column existing_txid
                               source0 rate (- c)
  = enrich_txids_with_block_info env input_csv txid_column existing_txid
                                 source0 rate c.
Proof.
  unfold enrich_txids_with_block_info.
  destruct (negb (mem _ _)); [ reflexivity | ].
  destruct (unique_txids_from_csv input_csv txid_column); [ | reflexivity ].
  unfold run_loop, try_finally. now rewrite for_loop_opp.
Qed.

Lemma loop_body_zero (env : environment) (source0 api_base : string)
      (rate : Q) (i n : nat) (t : string) (st : engine_state) :
  quiet env ->
  limiter_fits env rate ->
  assoc source0 API_BASES = Some api_base ->
  ((rate <= 0)%Q \/ (last_call_ts st <= clock st)%Q) ->
  exists rec ts clk,
    txid rec = t /\
    loop_body env source0 rate 0 i n t st
    = (Raise (Exn ZeroDivisionError "integer division or modulo by zero"),
       {| clock := clk; last_call_ts := ts;
          results_batch := results_batch st ++ [rec];
          trace := trace st ++ [Called t ts; Resolved rec] |}).
Proof.
  intros Hq Hfit Hsrc Hinv.
  destruct (lookup_quiet env source0 api_base t Hq Hsrc) as (rec & Hrec & Ht).
  destruct Hq as [Hint _].
  destruct (gate_quiet env rate i st Hint Hfit Hinv) as [clk0 Hgate].
  exists rec, clk0, (clk0 + work_time env i)%Q.
  split; [ exact Ht | ].
  unfold loop_body. unfold mbind at 1. rewrite Hgate.
  unfold_engine. rewrite Hrec. cbn. rewrite <- !app_assoc. reflexivity.
Qed.

(** X11: With a checkpoint interval of 0 and at least one key to fetch, a
    run without interrupts, whose limiter asks [time.sleep] for no more
    than it takes, ends with [ZeroDivisionError] right after its first
    lookup:
    that one key is looked up, and its record is the one row written,
    by the [finally] block. *)
Theorem zero_interval_stops_after_first (env : environment)
    (input_csv : dataframe) (txid_column : string)
    (existing_txid : list cell) (source0 : string) (rate : Q)
    (txids : list string) (t : string) (rest : list string) :
  quiet env ->
  limiter_fits env rate ->
  mem (str_strip (str_lower source0)) (map fst API_BASES) = true ->
  unique_txids_from_csv input_csv txid_column = Ret txids ->
  to_fetch txids existing_txid = t :: rest ->
  let run := enrich_txids_with_block_info env input_csv txid_column
               existing_txid source0 rate 0 in
  (exists msg, fst run = Raise (Exn ZeroDivisionError msg))
  /\ lookups (trace (snd run)) = [t]
  /\ map txid (stored (trace (snd run))) = [t]
  /\ List.length (batches (trace (snd run))) = 1%nat.
Proof.
  intros Hq Hfit Hsrc Htx Hkeys. cbv zeta.
  destruct (registered_source _ Hsrc) as [api_base Hbase].
  assert (Hinv : (rate <= 0)%Q
                 \/ (last_call_ts (initial_state env)
                     <= clock (initial_state env))%Q).
  { destruct Hfit as [Hfit | (_ & Hstart & _)]; [ now left | now right ]. }
  destruct (loop_body_zero env _ api_base rate 1 (S (List.length rest)) t
              (initial_state env) Hq Hfit Hbase Hinv)
    as (rec & ts & clk & Ht & Hloop).
  unfold enrich_txids_with_block_info. rewrite Hsrc, Htx, Hkeys. cbn [negb].
  unfold run_loop, try_finally. cbn [for_loop List.length].
  unfold mbind. rewrite Hloop.
  unfold final_flush, save_results_incremental, mbind, get, log. cbn.
  rewrite Ht. split; [ eexists; reflexivity | repeat split ].
Qed.

Lemma zero_interval_stops_after_first_witness :
  lookups (trace (snd (enrich_txids_with_block_info
                         example_env example_input "txid" [Some "B"]
                         "blockstream" 4 0))) = ["a"].
Proof.
  apply (zero_interval_stops_after_first
           example_env example_input "txid" [Some "B"] "blockstream" 4
           ["a"; "b"; "c"; "d"; "e"; "f"; "g"; "h"]
           "a" ["c"; "d"; "e"; "f"; "g"; "h"]).
  - split; [ reflexivity | intros api_base t k e H; discriminate H ].
  - right. split; [ discriminate | ].
    split; [ discriminate | intros i; discriminate ].
  - reflexivity.
  - reflexivity.
  - reflexivity.
Defined.

(** ** Keys *)

Lemma lower_char_idem (c : ascii) : lower_char (lower_char c) = lower_char c.
Proof. destruct c as [[] [] [] [] [] [] [] []]; reflexivity. Qed.

Lemma isspace_lower_char (c : ascii) : isspace (lower_char c) = isspace c.
Proof. destruct c as [[] [] [] [] [] [] [] []]; reflexivity. Qed.

Lemma str_lower_idem (s : string) : str_lower (str_lower s) = str_lower s.
Proof.
  induction s as [ | c s IH ]; cbn; [ reflexivity | ].
  now rewrite lower_char_idem, IH.
Qed.

Lemma lstrip_lower (s : string) :
  lstrip_with isspace (str_lower s) = str_lower (lstrip_with isspace s).
Proof.
  induction s as [ | c s IH ]; cbn; [ reflexivity | ].
  rewrite isspace_lower_char. now destruct (isspace c).
Qed.

Lemma rstrip_lower (s : string) :
  rstrip_with isspace (str_lower s) = str_lower (rstrip_with isspace s).
Proof.
  induction s as [ | c s IH ]; cbn; [ reflexivity | ].
  rewrite IH, isspace_lower_char.
  destruct (rstrip_with isspace s); cbn; [ | reflexivity ].
  now destruct (isspace c).
Qed.

Lemma rstrip_idem (sp : ascii -> bool) (s : string) :
  rstrip_with sp (rstrip_with sp s) = rstrip_with sp s.
Proof.
  induction s as [ | c s IH ]; cbn; [ reflexivity | ].
  destruct (rstrip_with sp s) as [ | d r ] eqn:E.
  - destruct (sp c) eqn:Ec; cbn; [ reflexivity | now rewrite Ec ].
  - remember (String d r) as u eqn:Hu.
    cbn [rstrip_with]. rewrite IH. now subst u.
Qed.

Lemma rstrip_head (sp : ascii -> bool) (c : ascii) (s : string) :
  sp c = false ->
  exists r, rstrip_with sp (String c s) = String c r.
Proof.
  intros Hc. cbn. destruct (rstrip_with sp s); [ rewrite Hc | ]; eauto.
Qed.

Lemma lstrip_head (sp : ascii -> bool) (s : string) :
  lstrip_with sp s = EmptyString
  \/ exists c r, lstrip_with sp s = String c r /\ sp c = false.
Proof.
  induction s as [ | c s IH ]; cbn; [ now left | ].
  destruct (sp c) eqn:Ec; [ exact IH | right; eauto ].
Qed.

Lemma str_strip_idem (s : string) : str_strip (str_strip s) = str_strip s.
Proof.
  unfold str_strip.
  destruct (lstrip_head isspace s) as [-> | (c & r & -> & Hc)];
    [ reflexivity | ].
  destruct (rstrip_head isspace c r Hc) as [r' Hr]. rewrite Hr.
  cbn [lstrip_with]. rewrite Hc, <- Hr. apply rstrip_idem.
Qed.

Lemma normalised_fixed (s : string) :
  str_lower (str_lower (str_strip s)) = str_lower (str_strip s)
  /\ str_strip (str_lower (str_strip s)) = str_lower (str_strip s).
Proof.
  split; [ apply str_lower_idem | ].
  unfold str_strip at 1. rewrite lstrip_lower, rstrip_lower.
  fold (str_strip (str_strip s)). now rewrite str_strip_idem.
Qed.

Lemma dropna_In (cells : list cell) (s : string) :
  In s (dropna cells) <-> In (Some s) cells.
Proof.
  induction cells as [ | [x | ] cells IH ]; cbn.
  - tauto.
  - rewrite IH. split; intros [H | H]; auto; left; congruence.
  - rewrite IH. split; [ tauto | intros [H | H]; [ discriminate | assumption ] ].
Qed.

(** X12: The keys read from the input are the lower-cased, stripped forms of
    the cells of the column that are not missing, each once; a key is
    left unchanged by lower-casing and by stripping, so that cells
    which differ in case or in surrounding white space give one key. *)
Theorem unique_txids_are_normalised (df : dataframe) (txid_column : string)
    (cells : list cell) (txids : list string) :
  assoc txid_column df = Some cells ->
  unique_txids_from_csv df txid_column = Ret txids ->
  NoDup txids
  /\ (forall t, In t txids <->
                exists s, In (Some s) cells /\ str_lower (str_strip s) = t)
  /\ (forall t, In t txids -> str_lower t = t /\ str_strip t = t).
Proof.
  intros Hc. unfold unique_txids_from_csv. rewrite Hc.
  intros H; inversion H as [Heq]; clear H.
  destruct (drop_duplicates_seen_spec
              (map (fun s => str_lower (str_strip s)) (dropna cells)) [])
    as [Hnd Hin].
  assert (Hmem : forall t,
             In t (drop_duplicates
                     (map (fun s => str_lower (str_strip s)) (dropna cells)))
             <-> exists s, In (Some s) cells /\ str_lower (str_strip s) = t).
  { intros t. unfold drop_duplicates. rewrite Hin, in_map_iff. split.
    - intros [(s & Hs & Hi) _]. exists s. now rewrite <- dropna_In.
    - intros (s & Hi & Hs). split; [ | intros [] ].
      exists s. now rewrite dropna_In. }
  split; [ exact Hnd | ]. split; [ exact Hmem | ].
  intros t Ht. apply Hmem in Ht. destruct Ht as (s & _ & <-).
  apply normalised_fixed.
Qed.

Lemma unique_txids_are_normalised_witness :
  NoDup ["a"; "b"; "c"; "d"; "e"; "f"; "g"; "h"]
  /\ (forall t, In t ["a"; "b"; "c"; "d"; "e"; "f"; "g"; "h"] <->
                exists s,
                  In (Some s) [Some "A"; Some " b "; None; Some "a"; Some "c";
                               Some "d"; Some "e"; Some "f"; Some "g"; Some "h"]
                  /\ str_lower (str_strip s) = t)
  /\ (forall t, In t ["a"; "b"; "c"; "d"; "e"; "f"; "g"; "h"] ->
                str_lower t = t /\ str_strip t = t).
Proof.
  apply (unique_txids_are_normalised example_input "txid").
  - reflexivity.
  - reflexivity.
Defined.

(** ** Checkpoints: sizes and number of the writes *)

Lemma mod_pred (c i : Z) :
  0 < c ->
  (i - 1) mod c = if i mod c =? 0 then c - 1 else i mod c - 1.
Proof.
  intros Hc.
  pose proof (Z.div_mod i c ltac:(lia)) as Hd.
  pose proof (Z.mod_pos_bound i c Hc) as Hb.
  destruct (Z.eqb_spec (i mod c) 0) as [E | E]; symmetry.
  - apply (Z.mod_unique (i - 1) c (i / c - 1)); lia.
  - apply (Z.mod_unique (i - 1) c (i / c)); lia.
Qed.

Lemma expected_writes_sizes (c : Z) (n : nat) (recs : list lookup_record) :
  0 < c ->
  forall (i : nat) (pending : list lookup_record),
    Z.of_nat (List.length pending) = (Z.of_nat i - 1) mod c ->
    (i + List.length recs = S n)%nat ->
    forall j b,
      In (j, b) (expected_writes c n i pending recs) ->
      Z.of_nat (List.length b)
      = if Z.of_nat j mod c =? 0 then c else Z.of_nat n mod c.
Proof.
  intros Hc.
  induction recs as [ | r recs IH ]; intros i pending Hp Hn j b Hin.
  - destruct Hin.
  - cbn in Hin, Hn. rewrite (mod_pred c (Z.of_nat i) Hc) in Hp.
    unfold checkpoint_due in Hin.
    destruct (Z.eqb_spec (Z.of_nat i mod c) 0) as [E | E].
    + cbn [orb] in Hin. destruct Hin as [Hin | Hin].
      * inversion Hin; subst j b.
        rewrite length_app. cbn.
        destruct (Z.eqb_spec (Z.of_nat i mod c) 0); lia.
      * apply (IH (S i) []); try assumption; [ | lia ].
        replace (Z.of_nat (S i) - 1) with (Z.of_nat i) by lia.
        rewrite E. reflexivity.
    + cbn [orb] in Hin. destruct (Nat.eqb_spec i n) as [En | En].
      * destruct Hin as [Hin | Hin].
        -- inversion Hin; subst j b.
           rewrite length_app. cbn.
           destruct (Z.eqb_spec (Z.of_nat i mod c) 0); [ contradiction | ].
           subst n. lia.
        -- assert (recs = []) by (destruct recs; [ reflexivity | cbn in Hn; lia ]).
           subst recs. destruct Hin.
      * apply (IH (S i) (pending ++ [r])); try assumption; [ | lia ].
        rewrite length_app. cbn [List.length].
        replace (Z.of_nat (S i) - 1) with (Z.of_nat i) by lia. lia.
Qed.

Lemma div_succ (c m : Z) :
  0 < c -> 0 <= m ->
  (m + 1) / c = m / c + (if (m + 1) mod c =? 0 then 1 else 0).
Proof.
  intros Hc Hm.
  pose proof (mod_pred c (m + 1) Hc) as Hp.
  replace (m + 1 - 1) with m in Hp by lia.
  pose proof (Z.div_mod m c ltac:(lia)) as Hd.
  pose proof (Z.mod_pos_bound (m + 1) c Hc) as Hb.
  destruct (Z.eqb_spec ((m + 1) mod c) 0) as [E | E]; symmetry.
  - apply (Z.div_unique (m + 1) c (m / c + 1) 0); lia.
  - rewrite Z.add_0_r.
    apply (Z.div_unique (m + 1) c (m / c) ((m + 1) mod c)); lia.
Qed.

Lemma count_multiples (c : Z) (m : nat) :
  0 < c ->
  Z.of_nat (List.length
              (filter (fun i => Z.of_nat i mod c =? 0) (seq 1 m)))
  = Z.of_nat m / c.
Proof.
  intros Hc. induction m as [ | m IH ].
  - change (0 = 0 / c). symmetry. apply Z.div_0_l. lia.
  - rewrite seq_S, filter_app, length_app, Nat2Z.inj_add, IH.
    cbn [filter Nat.add].
    rewrite Nat2Z.inj_succ. unfold Z.succ.
    rewrite (div_succ c (Z.of_nat m)) by lia.
    destruct ((Z.of_nat m + 1) mod c =? 0); reflexivity.
Qed.

Lemma count_due (c : Z) (m : nat) :
  0 < c ->
  Z.of_nat (List.length (filter (checkpoint_due c (S m)) (seq 1 (S m))))
  = Z.of_nat m / c + 1.
Proof.
  intros Hc.
  rewrite seq_S, filter_app, length_app, Nat2Z.inj_add.
  rewrite (filter_ext_in (checkpoint_due c (S m))
                         (fun i => Z.of_nat i mod c =? 0)).
  - rewrite count_multiples by assumption.
    cbn [filter Nat.add]. unfold checkpoint_due.
    rewrite Nat.eqb_refl, orb_true_r. reflexivity.
  - intros i Hi. apply in_seq in Hi. unfold checkpoint_due.
    destruct (Nat.eqb_spec i (S m)); [ lia | apply orb_false_r ].
Qed.

(** X13: In a run without interrupts, whose limiter asks [time.sleep]
    for no more than it takes, with a positive checkpoint interval
    [c] and [N] keys to fetch, a write made at a counter that is a
    multiple of [c] holds exactly [c] records and the write after the
    last key, when [N] is no multiple of [c], holds the [N mod c]
    records that are left; the store is written [(N - 1) / c + 1]
    times when there is a key to fetch, and not at all otherwise. *)
Theorem checkpoint_batch_sizes (env : environment) (input_csv : dataframe)
    (txid_column : string) (existing_txid : list cell) (source0 : string)
    (rate : Q) (checkpoint_every : Z) (txids : list string) :
  quiet env ->
  limiter_fits env rate ->
  mem (str_strip (str_lower source0)) (map fst API_BASES) = true ->
  unique_txids_from_csv input_csv txid_column = Ret txids ->
  0 < checkpoint_every ->
  let N := List.length (to_fetch txids existing_txid) in
  let tr := trace (snd (enrich_txids_with_block_info
                          env input_csv txid_column existing_txid source0
                          rate checkpoint_every)) in
  (forall i b,
      In (i, b) (writes tr) ->
      Z.of_nat (List.length b)
      = if Z.of_nat i mod checkpoint_every =? 0 then checkpoint_every
        else Z.of_nat N mod checkpoint_every)
  /\ Z.of_nat (List.length (writes tr))
     = match N with
       | O => 0
       | S m => Z.of_nat m / checkpoint_every + 1
       end.
Proof.
  intros Hq Hfit Hsrc Htx Hc. cbv zeta.
  destruct (registered_source _ Hsrc) as [api_base Hbase].
  unfold enrich_txids_with_block_info. rewrite Hsrc, Htx. cbn [negb].
  destruct (run_loop_quiet env _ api_base rate checkpoint_every
              (to_fetch txids existing_txid) Hq Hfit Hbase ltac:(lia))
    as (_ & _ & Hkeys & Hw & _).
  assert (Hlen : List.length
                   (resolved (trace (snd (run_loop env
                      (str_strip (str_lower source0)) rate checkpoint_every
                      (to_fetch txids existing_txid)))))
                 = List.length (to_fetch txids existing_txid)).
  { rewrite <- Hkeys at 2. now rewrite length_map. }
  rewrite Hw. split.
  - intros i b Hin.
    apply (expected_writes_sizes checkpoint_every _ _ Hc 1 [] ) with (j := i)
      in Hin; [ exact Hin | now rewrite Z.mod_0_l by lia | ].
    rewrite Hlen. reflexivity.
  - rewrite <- (length_map fst), expected_writes_points, Hlen.
    destruct (List.length (to_fetch txids existing_txid)) as [ | m ].
    + reflexivity.
    + now apply count_due.
Qed.

Lemma checkpoint_batch_sizes_witness :
  Z.of_nat (List.length
              (writes (trace (snd (enrich_txids_with_block_info
                                     example_env example_input "txid"
                                     [Some "B"] "blockstream" 4 3)))))
  = 6 / 3 + 1.
Proof.
  apply (checkpoint_batch_sizes
           example_env example_input "txid" [Some "B"] "blockstream" 4 3
           ["a"; "b"; "c"; "d"; "e"; "f"; "g"; "h"]).
  - split; [ reflexivity | intros api_base t k e H; discriminate H ].
  - right. split; [ discriminate | ].
    split; [ discriminate | intros i; discriminate ].
  - reflexivity.
  - reflexivity.
  - reflexivity.
Defined.

(** ** Two runs in a row *)

Lemma enrich_lookups_to_fetch (env : environment) (input_csv : dataframe)
      (txid_column : string) (existing_txid : list cell) (source0 : string)
      (rate : Q) (checkpoint_every : Z) (txids : list string) :
  unique_txids_from_csv input_csv txid_column = Ret txids ->
  let run := enrich_txids_with_block_info env input_csv txid_column
               existing_txid source0 rate checkpoint_every in
  exists rest,
    (lookups (trace (snd run)) = [] \/
     to_fetch txids existing_txid = lookups (trace (snd run)) ++ rest)
    /\ (fst run = Ret tt ->
        to_fetch txids existing_txid = lookups (trace (snd run))).
Proof.
  intros Htx. cbv zeta. unfold enrich_txids_with_block_info. rewrite Htx.
  destruct (negb (mem _ _)).
  - exists []. split; [ now left | discriminate ].
  - destruct (run_loop_lookups env (str_strip (str_lower source0)) rate
                checkpoint_every (to_fetch txids existing_txid))
      as (rest & Hrest & Hend).
    exists rest. split; [ now right | ].
    intros Hok. rewrite (Hend Hok), app_nil_r in Hrest. exact Hrest.
Qed.

Lemma enrich_stores_resolved (env : environment) (input_csv : dataframe)
      (txid_column : string) (existing_txid : list cell) (source0 : string)
      (rate : Q) (checkpoint_every : Z) (rec : lookup_record) :
  In rec (resolved (trace (snd (enrich_txids_with_block_info
                                  env input_csv txid_column existing_txid
                                  source0 rate checkpoint_every)))) ->
  In rec (stored (trace (snd (enrich_txids_with_block_info
                                env input_csv txid_column existing_txid
                                source0 rate checkpoint_every)))).
Proof.
  unfold enrich_txids_with_block_info.
  destruct (negb (mem _ _)); [ intros [] | ].
  destruct (unique_txids_from_csv input_csv txid_column) as [txids | e];
    [ | intros [] ].
  destruct (run_loop_flushes env (str_strip (str_lower source0)) rate
              checkpoint_every (to_fetch txids existing_txid))
    as ((dup & Hdup) & _).
  intros H. rewrite Hdup. apply in_or_app. now left.
Qed.

Lemma unique_txids_lower (df : dataframe) (column : string)
      (txids : list string) (t : string) :
  unique_txids_from_csv df column = Ret txids ->
  In t txids -> str_lower t = t.
Proof.
  unfold unique_txids_from_csv.
  destruct (assoc column df) as [cells | ]; [ | discriminate ].
  intros H Ht; inversion H; subst txids.
  apply (drop_duplicates_seen_spec _ []) in Ht. destruct Ht as [Ht _].
  apply in_map_iff in Ht. destruct Ht as (s & <- & _).
  apply normalised_fixed.
Qed.

(** X14: When the next run finds in the [txid] column of the store the old
    column followed by the [txid] of every row this run wrote, it looks
    up no key that this run resolved, however this run ended; and after
    a run that came to its end, the next run looks up nothing and
    writes nothing. *)
Theorem next_run_skips_resolved (env env' : environment)
    (input_csv : dataframe) (txid_column : string)
    (existing_txid : list cell) (source0 : string) (rate rate' : Q)
    (c c' : Z) (txids : list string) :
  unique_txids_from_csv input_csv txid_column = Ret txids ->
  let run := enrich_txids_with_block_info env input_csv txid_column
               existing_txid source0 rate c in
  let reloaded :=
    existing_txid
    ++ map (fun r => Some (txid r)) (stored (trace (snd run))) in
  let next := enrich_txids_with_block_info env' input_csv txid_column
                reloaded source0 rate' c' in
  (forall t, In t (map txid (resolved (trace (snd run)))) ->
             ~ In t (lookups (trace (snd next))))
  /\ (fst run = Ret tt -> trace (snd next) = []).
Proof.
  intros Htx. cbv zeta.
  set (run := enrich_txids_with_block_info env input_csv txid_column
                existing_txid source0 rate c).
  set (reloaded := existing_txid
                   ++ map (fun r => Some (txid r)) (stored (trace (snd run)))).
  destruct (enrich_records env input_csv txid_column existing_txid source0
                           rate c) as (fl & (Hl & _) & _ & Hfl).
  fold run in Hl, Hfl.
  destruct (enrich_lookups_to_fetch env input_csv txid_column existing_txid
              source0 rate c txids Htx) as (rest & Hsub & Hall).
  fold run in Hsub, Hall.
  assert (Hkey : forall t,
             In t (map txid (resolved (trace (snd run)))) ->
             In t txids /\ In (Some t) reloaded).
  { intros t Ht. split.
    - assert (Hlk : In t (lookups (trace (snd run))))
        by (rewrite Hl; apply in_or_app; now left).
      destruct Hsub as [Hnil | Hsub]; [ rewrite Hnil in Hlk; destruct Hlk | ].
      assert (Hin : In t (to_fetch txids existing_txid))
        by (rewrite Hsub; apply in_or_app; now left).
      now apply to_fetch_spec in Hin.
    - apply in_map_iff in Ht. destruct Ht as (rec & <- & Hrec).
      apply in_or_app. right.
      apply (in_map (fun r => Some (txid r))).
      now apply enrich_stores_resolved. }
  assert (Hskip : forall t,
             In t (map txid (resolved (trace (snd run)))) ->
             ~ In t (to_fetch txids reloaded)).
  { intros t Ht Hin. destruct (Hkey t Ht) as [Htx' Hre].
    apply to_fetch_spec in Hin. destruct Hin as [_ Hno].
    apply (Hno (Some t) Hre). cbn.
    eapply unique_txids_lower; eassumption. }
  split.
  - intros t Ht Hlk. apply (Hskip t Ht).
    destruct (enrich_lookups_to_fetch env' input_csv txid_column reloaded
                source0 rate' c' txids Htx) as (rest' & Hsub' & _).
    destruct Hsub' as [Hnil | Hsub']; [ rewrite Hnil in Hlk; destruct Hlk | ].
    rewrite Hsub'. apply in_or_app. now left.
  - intros Hok.
    assert (Hnone : to_fetch txids reloaded = []).
    { destruct (to_fetch txids reloaded) as [ | t l ] eqn:E; [ reflexivity | ].
      exfalso.
      assert (Hin : In t (to_fetch txids reloaded)) by (rewrite E; now left).
      pose proof Hin as Hin'. apply to_fetch_spec in Hin'.
      destruct Hin' as [Ht Hno].
      apply (Hskip t); [ | now left ].
      rewrite <- app_nil_r, <- (Hfl Hok), <- Hl, <- (Hall Hok).
      apply to_fetch_spec. split; [ exact Ht | ].
      intros cell Hc. apply Hno. unfold reloaded. apply in_or_app. now left. }
    unfold enrich_txids_with_block_info. rewrite Htx, Hnone.
    destruct (negb (mem _ _)); reflexivity.
Qed.

Lemma next_run_skips_resolved_witness :
  trace (snd (enrich_txids_with_block_info
                interrupted_env example_input "txid"
                ([Some "B"]
                 ++ map (fun r => Some (txid r))
                      (stored (trace (snd (enrich_txids_with_block_info
                                             example_env example_input "txid"
                                             [Some "B"] "blockstream" 4 3)))))
                "blockstream" 2 5))
  = [].
Proof.
  apply (next_run_skips_resolved
           example_env interrupted_env example_input "txid" [Some "B"]
           "blockstream" 4 2 3 5 ["a"; "b"; "c"; "d"; "e"; "f"; "g"; "h"]).
  - reflexivity.
  - vm_compute. reflexivity.
Defined.

(** ** The Progress Store file *)

Lemma to_fetch_nothing_stored (txids : list string) : to_fetch txids [] = txids.
Proof.
  unfold to_fetch. cbn. induction txids as [ | t l IH ]; cbn; congruence.
Qed.

(** X15: A store file that is missing, of size 0, unreadable or without
    rows counts as an empty store: whatever the environment, the run is
    the run on an empty store; and a run without interrupts, whose
    limiter asks [time.sleep] for no more than it takes, then comes to
    its end having looked up every unique key of the input. *)
Theorem unusable_store_starts_fresh (render : pyval -> string)
    (env : environment) (input_csv : dataframe) (txid_column : string)
    (output_csv : store_file) (source0 : string) (rate : Q)
    (checkpoint_every : Z) (txids : list string) :
  output_csv = Absent \/ output_csv = Empty \/ output_csv = Unreadable
  \/ (exists header, output_csv = Table header []) ->
  let run := enrich_with_store render env input_csv txid_column output_csv
               source0 rate checkpoint_every in
  run = enrich_txids_with_block_info env input_csv txid_column []
          source0 rate checkpoint_every
  /\ (quiet env ->
      limiter_fits env rate ->
      mem (str_strip (str_lower source0)) (map fst API_BASES) = true ->
      unique_txids_from_csv input_csv txid_column = Ret txids ->
      checkpoint_every <> 0 ->
      fst run = Ret tt /\ lookups (trace (snd run)) = txids).
Proof.
  intros Hfile. cbv zeta.
  assert (Hcol : existing_txid_column render (load_existing_results output_csv)
                 = Ret []).
  { destruct Hfile as [-> | [-> | [-> | [h ->]]]]; reflexivity. }
  assert (Hsame : enrich_with_store render env input_csv txid_column
                    output_csv source0 rate checkpoint_every
                  = enrich_txids_with_block_info env input_csv txid_column []
                      source0 rate checkpoint_every).
  { unfold enrich_with_store, enrich_txids_with_block_info. rewrite Hcol.
    reflexivity. }
  split; [ exact Hsame | ].
  intros Hq Hfit Hsrc Htx Hc. rewrite Hsame.
  destruct (registered_source _ Hsrc) as [api_base Hbase].
  unfold enrich_txids_with_block_info.
  rewrite Hsrc, Htx. cbn [negb].
  destruct (run_loop_quiet env _ api_base rate checkpoint_every
              (to_fetch txids []) Hq Hfit Hbase Hc) as (Hok & Hl & _).
  rewrite to_fetch_nothing_stored in *. auto.
Qed.

Lemma unusable_store_starts_fresh_witness :
  lookups (trace (snd (enrich_with_store (fun _ => "") example_env
                         example_input "txid" Unreadable "blockstream" 4 3)))
  = ["a"; "b"; "c"; "d"; "e"; "f"; "g"; "h"].
Proof.
  destruct (unusable_store_starts_fresh
              (fun _ => "") example_env example_input "txid" Unreadable
              "blockstream" 4 3 ["a"; "b"; "c"; "d"; "e"; "f"; "g"; "h"])
    as [_ H].
  - right. right. left. reflexivity.
  - apply H.
    + split; [ reflexivity | intros api_base t k e H0; discriminate H0 ].
    + right. split; [ discriminate | ].
      split; [ discriminate | intros i; discriminate ].
    + reflexivity.
    + reflexivity.
    + discriminate.
Defined.

(** X16: A store file that can be read and has rows, but no column [txid],
    is fatal: [existing["txid"]] raises [KeyError] outside any [try],
    before a lookup is made. *)
Theorem store_without_txid_column_is_fatal (render : pyval -> string)
    (env : environment) (input_csv : dataframe) (txid_column : string)
    (header : list string) (row : list pyval) (rows : list (list pyval))
    (source0 : string) (rate : Q) (checkpoint_every : Z)
    (txids : list string) :
  mem (str_strip (str_lower source0)) (map fst API_BASES) = true ->
  unique_txids_from_csv input_csv txid_column = Ret txids ->
  index_of "txid" header = None ->
  enrich_with_store render env input_csv txid_column
                    (Table header (row :: rows)) source0 rate checkpoint_every
  = (Raise (Exn KeyError "'txid'"), initial_state env).
Proof.
  intros Hsrc Htx Hidx. unfold enrich_with_store.
  rewrite Hsrc, Htx. cbn [negb].
  unfold existing_txid_column. cbn [load_existing_results fst snd].
  now rewrite Hidx.
Qed.

Lemma store_without_txid_column_is_fatal_witness :
  enrich_with_store (fun _ => "") example_env example_input "txid"
                    (Table ["hash"; "height"] [[PStr "ab"; PInt 1]])
                    "blockstream" 4 3
  = (Raise (Exn KeyError "'txid'"), initial_state example_env).
Proof.
  apply (store_without_txid_column_is_fatal
           (fun _ => "") example_env example_input "txid"
           ["hash"; "height"] [PStr "ab"; PInt 1] [] "blockstream" 4 3
           ["a"; "b"; "c"; "d"; "e"; "f"; "g"; "h"]).
  - reflexivity.
  - reflexivity.
  - reflexivity.
Defined.

Lemma stored_batches (tr : list event) :
  stored tr = List.concat (batches tr).
Proof.
  induction tr as [ | [t ts | r | b] tr IH ]; cbn; rewrite ?IH; reflexivity.
Qed.

Lemma batch_columns_length (b : list lookup_record) :
  b <> [] -> List.length (batch_columns b) = 7%nat.
Proof.
  destruct b as [ | r b ]; [ congruence | ].
  intros _. cbn. unfold record_keys. now destruct (error r).
Qed.

Lemma file_after_table (header : list string) (rows : list (list pyval))
      (written : list (list lookup_record)) :
  List.length header = 7%nat ->
  Forall (fun b => b <> []) written ->
  file_after (Table header rows) written
  = Some (Table header (rows ++ flat_map batch_rows written)).
Proof.
  intros Hh. revert rows.
  induction written as [ | b written IH ]; intros rows Hne; cbn.
  - now rewrite app_nil_r.
  - inversion Hne as [ | ? ? Hb Hrest ]; subst.
    destruct b as [ | r b ]; [ congruence | ].
    cbn [append_to_csv]. rewrite Hh. cbn [Nat.eqb].
    rewrite IH by assumption. now rewrite <- app_assoc.
Qed.

Lemma file_after_fresh (output_csv : store_file)
      (first : list lookup_record) (written : list (list lookup_record)) :
  output_csv = Absent \/ output_csv = Empty ->
  Forall (fun b => b <> []) (first :: written) ->
  file_after output_csv (first :: written)
  = Some (Table (batch_columns first)
                (flat_map batch_rows (first :: written))).
Proof.
  intros Hf Hne. inversion Hne as [ | ? ? Hb Hrest ]; subst.
  assert (Hstep : append_to_csv output_csv first
                  = Some (Table (batch_columns first) (batch_rows first))).
  { destruct first as [ | r b ]; [ congruence | ].
    destruct Hf as [-> | ->]; reflexivity. }
  cbn [file_after]. rewrite Hstep.
  rewrite file_after_table by (auto using batch_columns_length).
  reflexivity.
Qed.

(** X17: After a run on a store file that was missing or of size 0, however
    the run ended: where nothing was written the file is as before;
    otherwise the file has one header, which names the columns in the
    key order of the first record written, and below it one line for
    every row written, in order, each laid out in the key order of
    the first record of its own batch. *)
Theorem store_file_after_fresh_run (env : environment)
    (input_csv : dataframe) (txid_column : string)
    (output_csv : store_file) (source0 : string) (rate : Q)
    (checkpoint_every : Z) :
  output_csv = Absent \/ output_csv = Empty ->
  let tr := trace (snd (enrich_txids_with_block_info
                          env input_csv txid_column [] source0 rate
                          checkpoint_every)) in
  match batches tr with
  | [] => file_after output_csv (batches tr) = Some output_csv
  | first :: _ =>
      exists rows,
        file_after output_csv (batches tr)
        = Some (Table (batch_columns first) rows)
        /\ rows = flat_map batch_rows (batches tr)
        /\ List.length rows = List.length (stored tr)
        /\ List.length (batch_columns first) = 7%nat
  end.
Proof.
  intros Hf. cbv zeta.
  pose proof (enrich_records env input_csv txid_column [] source0 rate
                checkpoint_every) as Hrec.
  cbv zeta in Hrec. destruct Hrec as (fl & (_ & _ & _ & _ & Hne) & _).
  rewrite stored_batches.
  destruct (batches _) as [ | first written ] eqn:E.
  - reflexivity.
  - exists (flat_map batch_rows (first :: written)).
    split; [ now apply file_after_fresh | ].
    split; [ reflexivity | ].
    split.
    + clear E Hne. generalize (first :: written) as bs.
      induction bs as [ | b bs IH ]; cbn; [ reflexivity | ].
      rewrite !length_app, IH. unfold batch_rows. now rewrite length_map.
    + apply batch_columns_length. now inversion Hne.
Qed.

Lemma store_file_after_fresh_run_witness :
  file_after Absent
    (batches (trace (snd (enrich_txids_with_block_info
                            example_env example_input "txid" [] "blockstream"
                            4 0))))
  = Some (Table failure_keys
                [[PStr "a"; PNone; PNone; PNone; PNone; PStr "blockstream";
                  PStr "404 Not Found"]]).
Proof.
  pose proof (store_file_after_fresh_run
                example_env example_input "txid" Absent "blockstream" 4 0
                (or_introl eq_refl)) as H.
  cbv zeta in H. vm_compute in H. destruct H as (rows & H & -> & _).
  vm_compute. exact H.
Defined.

Lemma looked_up_shape (env : environment) (source0 : string)
      (r : lookup_record) :
  looked_up env source0 r -> error r <> None -> fields r = no_block.
Proof.
  intros [t Ht]. unfold robust_lookup in Ht.
  destruct (assoc source0 API_BASES) as [api_base | ]; [ | discriminate ].
  now apply (retry_loop_record _ _ _ _ _ _ _ _ _ Ht).
Qed.

Lemma txid_column_of_batches (render : pyval -> string)
      (header : list string) (i : nat)
      (first : list lookup_record) (written : list (list lookup_record)) :
  first <> [] ->
  index_of "txid" header = Some i ->
  existing_txid_column render
    (load_existing_results
       (Table header (flat_map batch_rows (first :: written))))
  = Ret (flat_map (fun b => map (txid_cell render header b) b)
                  (first :: written)).
Proof.
  intros Hne Hidx. unfold existing_txid_column.
  cbn [load_existing_results fst snd]. rewrite Hidx.
  destruct (flat_map batch_rows (first :: written)) as [ | row rows ] eqn:E.
  - destruct first as [ | r b ]; [ congruence | discriminate E ].
  - rewrite <- E. f_equal. clear E.
    induction (first :: written) as [ | b bs IH ]; cbn; [ reflexivity | ].
    rewrite map_app, IH. f_equal.
    unfold batch_rows. rewrite map_map. apply map_ext.
    intros r. unfold txid_cell. now rewrite Hidx.
Qed.

Lemma txid_cell_aligned (render : pyval -> string)
      (batch : list lookup_record) (r : lookup_record) :
  batch <> [] ->
  mem (txid r) na_values = false ->
  txid_cell render (batch_columns batch) batch r = Some (txid r).
Proof.
  intros Hne Hna. unfold txid_cell.
  destruct batch as [ | r0 b ]; [ congruence | ].
  cbn [batch_columns]. unfold record_keys.
  destruct (error r0); cbn -[mem na_values]; now rewrite Hna.
Qed.

Lemma txid_cell_misaligned (render : pyval -> string)
      (batch : list lookup_record) (r : lookup_record) :
  batch_columns batch = failure_keys ->
  block_hash (fields r) = PNone ->
  txid_cell render success_keys batch r = None.
Proof.
  intros Hb Hh. unfold txid_cell. rewrite Hb. cbn. now rewrite Hh.
Qed.

Lemma enrich_batches (env : environment) (input_csv : dataframe)
      (txid_column : string) (existing_txid : list cell) (source0 : string)
      (rate : Q) (checkpoint_every : Z) :
  let tr := trace (snd (enrich_txids_with_block_info
                          env input_csv txid_column existing_txid source0
                          rate checkpoint_every)) in
  Forall (fun b => b <> []) (batches tr)
  /\ forall b r, In b (batches tr) -> In r b ->
                 looked_up env (str_strip (str_lower source0)) r.
Proof.
  cbv zeta.
  destruct (enrich_records env input_csv txid_column existing_txid source0
                           rate checkpoint_every)
    as (fl & (_ & Hs & _ & Hst & Hne) & _).
  split; [ exact Hne | ].
  intros b r Hb Hr.
  apply (proj1 (Forall_forall _ _) Hs). apply Hst.
  rewrite stored_batches. apply in_concat. eauto.
Qed.

(** X18: After a run on a store file that was missing or of size 0, in which
    every batch written starts with a record of the same kind as the
    first (all without error, or all with an error) and no key is a
    text that [read_csv] takes for a missing value, the [txid] column
    read back from the file holds the [txid] of every row written, in
    order. *)
Theorem aligned_store_round_trip (render : pyval -> string)
    (env : environment) (input_csv : dataframe) (txid_column : string)
    (output_csv : store_file) (source0 : string) (rate : Q)
    (checkpoint_every : Z) :
  output_csv = Absent \/ output_csv = Empty ->
  let tr := trace (snd (enrich_txids_with_block_info
                          env input_csv txid_column [] source0 rate
                          checkpoint_every)) in
  aligned (batches tr) ->
  (forall r, In r (stored tr) -> mem (txid r) na_values = false) ->
  exists f,
    file_after output_csv (batches tr) = Some f
    /\ existing_txid_column render (load_existing_results f)
       = Ret (map (fun r => Some (txid r)) (stored tr)).
Proof.
  intros Hf. cbv zeta.
  destruct (enrich_batches env input_csv txid_column [] source0 rate
                           checkpoint_every) as [Hne _].
  rewrite stored_batches.
  destruct (batches _) as [ | first written ] eqn:E; cbn [aligned].
  - intros _ _. exists output_csv. split; [ reflexivity | ].
    destruct Hf as [-> | ->]; reflexivity.
  - intros Hal Hna.
    exists (Table (batch_columns first)
                  (flat_map batch_rows (first :: written))).
    split; [ now apply file_after_fresh | ].
    assert (Hfirst : first <> []) by now inversion Hne.
    assert (Hidx : exists i, index_of "txid" (batch_columns first) = Some i).
    { destruct first as [ | r0 b ]; [ congruence | ].
      cbn. unfold record_keys. destruct (error r0); cbn; eauto. }
    destruct Hidx as [i Hidx].
    rewrite (txid_column_of_batches render _ i) by assumption.
    f_equal. clear E Hfirst Hidx.
    revert Hne Hal Hna. generalize (first :: written) as bs.
    induction bs as [ | b bs IH ]; intros Hne Hal Hna;
      cbn [flat_map List.concat]; [ reflexivity | ].
    inversion Hne as [ | ? ? Hb Hne' ]; subst.
    inversion Hal as [ | ? ? Hcols Hal' ]; subst.
    rewrite map_app, IH; try assumption.
    + f_equal. apply map_ext_in. intros r Hr.
      rewrite <- Hcols. apply txid_cell_aligned; [ assumption | ].
      apply Hna. cbn [List.concat]. apply in_or_app. now left.
    + intros r Hr. apply Hna. cbn [List.concat]. apply in_or_app. now right.
Qed.

Lemma aligned_store_round_trip_witness :
  exists f,
    file_after Absent
      (batches (trace (snd (enrich_txids_with_block_info
                              example_env example_input "txid" []
                              "blockstream" 4 3))))
    = Some f
    /\ existing_txid_column (fun _ => "") (load_existing_results f)
       = Ret (map (fun r => Some (txid r))
                  (stored (trace (snd (enrich_txids_with_block_info
                                         example_env example_input "txid" []
                                         "blockstream" 4 3))))).
Proof.
  apply (aligned_store_round_trip (fun _ => "") example_env example_input
                                  "txid" Absent "blockstream" 4 3).
  - left. reflexivity.
  - vm_compute. repeat constructor.
  - vm_compute. intros r H.
    repeat (destruct H as [<- | H]; [ reflexivity | ]). destruct H.
Defined.

(** X19: After a run on a store file that was missing or of size 0 whose
    first record written has no error, the header names [txid] as the
    fifth column; a batch that starts with a record with an error is
    written with [txid] first, and for every record with an error of
    such a batch the [txid] read back from the file is missing: it is
    the cell of [block_hash].  The rows of batches that start with a
    record without error are read back with their [txid]. *)
Theorem misaligned_rows_lose_txid (render : pyval -> string)
    (env : environment) (input_csv : dataframe) (txid_column : string)
    (output_csv : store_file) (source0 : string) (rate : Q)
    (checkpoint_every : Z)
    (first_rec : lookup_record) (first : list lookup_record)
    (later : list (list lookup_record)) :
  output_csv = Absent \/ output_csv = Empty ->
  batches (trace (snd (enrich_txids_with_block_info
                         env input_csv txid_column [] source0 rate
                         checkpoint_every)))
  = (first_rec :: first) :: later ->
  error first_rec = None ->
  exists f,
    file_after output_csv ((first_rec :: first) :: later) = Some f
    /\ existing_txid_column render (load_existing_results f)
       = Ret (flat_map (fun b => map (txid_cell render success_keys b) b)
                       ((first_rec :: first) :: later))
    /\ forall b r,
         In b ((first_rec :: first) :: later) -> In r b ->
         (batch_columns b = success_keys ->
          mem (txid r) na_values = false ->
          txid_cell render success_keys b r = Some (txid r))
         /\ (batch_columns b = failure_keys ->
             error r <> None ->
             txid_cell render success_keys b r = None).
Proof.
  intros Hf Hb Herr.
  destruct (enrich_batches env input_csv txid_column [] source0 rate
                           checkpoint_every) as [Hne Hlk].
  rewrite Hb in Hne, Hlk.
  assert (Hcols : batch_columns (first_rec :: first) = success_keys)
    by (cbn; unfold record_keys; now rewrite Herr).
  exists (Table success_keys
                (flat_map batch_rows ((first_rec :: first) :: later))).
  split; [ rewrite <- Hcols; now apply file_after_fresh | ].
  split.
  - apply (txid_column_of_batches render success_keys 4);
      [ discriminate | reflexivity ].
  - intros b r Hin Hr. split.
    + intros Hbc Hna. rewrite <- Hbc. apply txid_cell_aligned; [ | assumption ].
      intros ->. destruct Hr.
    + intros Hbc He. apply txid_cell_misaligned; [ assumption | ].
      now rewrite (looked_up_shape _ _ _ (Hlk b r Hin Hr) He).
Qed.

Lemma misaligned_rows_lose_txid_witness :
  exists f,
    file_after Absent
      (batches (trace (snd (enrich_txids_with_block_info
                              mixed_env example_input "txid" []
                              "blockstream" 4 2))))
    = Some f
    /\ existing_txid_column (fun _ => "") (load_existing_results f)
       = Ret [Some "a"; Some "b"; None; None; None; None; None; None].
Proof.
  destruct (misaligned_rows_lose_txid
              (fun _ => "") mixed_env example_input "txid" Absent
              "blockstream" 4 2
              (success_record "a" "blockstream"
                 {| block_height := PInt 423000;
                    block_time_unix := PInt 1470150000;
                    block_time_utc_iso := Some "2016-08-02T15:00:00+00:00";
                    block_hash := PStr "00ab" |})
              [failure_record "b" "blockstream" "404 Not Found"]
              [[failure_record "c" "blockstream" "404 Not Found";
                failure_record "d" "blockstream" "404 Not Found"];
               [failure_record "e" "blockstream" "404 Not Found";
                failure_record "f" "blockstream" "404 Not Found"];
               [failure_record "g" "blockstream" "404 Not Found";
                failure_record "h" "blockstream" "404 Not Found"]])
    as (f & Hfile & Hcol & _).
  - left. reflexivity.
  - vm_compute. reflexivity.
  - reflexivity.
  - exists f. split; [ exact Hfile | ]. rewrite Hcol. reflexivity.
Defined.

(** The next run on that file: the six keys whose rows were written
    with [txid] first are not found in the store and are looked up
    again. *)
Example misaligned_rows_are_fetched_again :
  match file_after Absent
          (batches (trace (snd (enrich_txids_with_block_info
                                  mixed_env example_input "txid" []
                                  "blockstream" 4 2)))) with
  | Some f =>
      lookups (trace (snd (enrich_with_store (fun _ => "") mixed_env
                             example_input "txid" f "blockstream" 4 2)))
  | None => []
  end
  = ["c"; "d"; "e"; "f"; "g"; "h"].
Proof. vm_compute. reflexivity. Qed.


(** ** The merged output *)

Lemma cell_eqb_eq (a b : cell) : cell_eqb a b = true <-> a = b.
Proof.
  destruct a as [x | ], b as [y | ]; cbn; try (split; congruence).
  rewrite String.eqb_eq. split; congruence.
Qed.

Lemma matches_of_In (key : cell) (store_rows : list (cell * list pyval))
      (row : list pyval) :
  In row (matches_of key store_rows) <-> In (key, row) store_rows.
Proof.
  unfold matches_of. rewrite in_map_iff. split.
  - intros ([k r] & <- & Hin). apply filter_In in Hin.
    destruct Hin as [Hin Heq]. apply cell_eqb_eq in Heq. cbn in *.
    now subst k.
  - intros Hin. exists (key, row). split; [ reflexivity | ].
    apply filter_In. split; [ assumption | ]. now apply cell_eqb_eq.
Qed.

Lemma matches_of_unique (key : cell) (store_rows : list (cell * list pyval)) :
  NoDup (map fst store_rows) ->
  (List.length (matches_of key store_rows) <= 1)%nat.
Proof.
  unfold matches_of. rewrite length_map.
  induction store_rows as [ | [k r] rows IH ]; intros Hnd; cbn; [ lia | ].
  inversion Hnd as [ | ? ? Hnot Hnd' ]; subst.
  destruct (cell_eqb key k) eqn:E; cbn; [ | now apply IH ].
  apply cell_eqb_eq in E. subst k.
  assert (Hnone : filter (fun kr => cell_eqb key (fst kr)) rows = []).
  { destruct (filter _ rows) as [ | [k' r'] l ] eqn:Ef; [ reflexivity | ].
    exfalso. apply Hnot.
    assert (Hin : In (k', r') (filter (fun kr => cell_eqb key (fst kr)) rows))
      by (rewrite Ef; now left).
    apply filter_In in Hin. destruct Hin as [Hin Heq].
    apply cell_eqb_eq in Heq. cbn in Heq. subst k'.
    change key with (fst (key, r')). now apply in_map. }
  rewrite Hnone. cbn. lia.
Qed.

Lemma merge_left_rows (input_keys : list cell)
      (store_rows : list (cell * list pyval)) :
  forall (i0 i : nat) (joined : option (list pyval)),
    In (i, joined) (merge_left i0 input_keys store_rows) <->
    exists k key,
      i = (i0 + k)%nat /\ nth_error input_keys k = Some key /\
      match joined with
      | Some row => In (key, row) store_rows
      | None => forall row, ~ In (key, row) store_rows
      end.
Proof.
  induction input_keys as [ | key0 keys IH ]; intros i0 i joined; cbn.
  - split; [ intros [] | ]. intros (k & key & _ & H & _). now destruct k.
  - rewrite in_app_iff, IH. split.
    + intros [Hhere | (k & key & -> & Hk & Hj)].
      * exists 0%nat, key0. rewrite Nat.add_0_r.
        destruct (matches_of key0 store_rows) as [ | m ms ] eqn:E.
        -- destruct Hhere as [Hh | []]. inversion Hh; subst.
           repeat split. intros row Hin. apply matches_of_In in Hin.
           now rewrite E in Hin.
        -- change (In (i, joined)
                      (map (fun r : list pyval => (i0, Some r)) (m :: ms)))
             in Hhere.
           apply in_map_iff in Hhere. destruct Hhere as (row & Hh & Hin).
           inversion Hh; subst. repeat split.
           apply matches_of_In. now rewrite E.
      * exists (S k), key. repeat split; [ lia | assumption | assumption ].
    + intros (k & key & -> & Hk & Hj). destruct k as [ | k ].
      * left. cbn in Hk. inversion Hk; subst key0. rewrite Nat.add_0_r.
        destruct joined as [row | ].
        -- apply matches_of_In in Hj.
           destruct (matches_of key store_rows) as [ | m ms ];
             [ destruct Hj | ].
           change (In (i0, Some row)
                      (map (fun r : list pyval => (i0, Some r)) (m :: ms))).
           apply in_map_iff. eauto.
        -- destruct (matches_of key store_rows) as [ | m ms ] eqn:E;
             [ now left | ].
           exfalso. apply (Hj m). apply matches_of_In. rewrite E. now left.
      * right. exists k, key. repeat split; [ lia | assumption | assumption ].
Qed.

Lemma merge_left_one_each (input_keys : list cell)
      (store_rows : list (cell * list pyval)) :
  NoDup (map fst store_rows) ->
  forall i0,
    map fst (merge_left i0 input_keys store_rows)
    = seq i0 (List.length input_keys).
Proof.
  intros Hnd.
  induction input_keys as [ | key keys IH ]; intros i0; cbn; [ reflexivity | ].
  rewrite map_app, IH.
  pose proof (matches_of_unique key store_rows Hnd) as Hu.
  destruct (matches_of key store_rows) as [ | m [ | m' ms ] ]; cbn in *;
    try reflexivity; lia.
Qed.

Lemma all_missing_false (col : list cell) (s : string) :
  In (Some s) col -> all_missing col = false.
Proof.
  intros Hin. destruct (all_missing col) eqn:Hall; [ | reflexivity ].
  unfold all_missing in Hall. rewrite forallb_forall in Hall.
  now specialize (Hall _ Hin).
Qed.

Lemma merged_output_defined (render : pyval -> string) (input_csv : dataframe)
      (txid_column : string) (input_keys : list cell) (s : string)
      (header : list string) (rows : list (list pyval)) (j : nat) :
  assoc txid_column input_csv = Some input_keys ->
  In (Some s) input_keys ->
  index_of "txid" header = Some j ->
  merged_output render input_csv txid_column (header, rows)
  = Ret (merge_left 0 input_keys
           (map (fun row => (read_str_cell render (nth j row PNone), row))
                rows)).
Proof.
  intros Hc Hs Hj. unfold merged_output. cbn [fst snd]. rewrite Hc, Hj.
  rewrite (all_missing_false _ _ Hs).
  destruct input_keys; [ reflexivity | ]. destruct rows; reflexivity.
Qed.

Lemma keyed_rows_In (render : pyval -> string) (j : nat)
      (rows : list (list pyval)) (key : cell) (row : list pyval) :
  In (key, row)
     (map (fun row => (read_str_cell render (nth j row PNone), row)) rows)
  <-> In row rows /\ read_str_cell render (nth j row PNone) = key.
Proof.
  rewrite in_map_iff. split.
  - intros (r & Heq & Hin). inversion Heq; subst. auto.
  - intros [Hin <-]. eauto.
Qed.

(** X20: For an input column that holds a text, the merged output joins on
    the cell of the input as it stands: a row of the result pairs the input row number [i] with a row of the
    store exactly when the [txid] read from that row of the store
    equals the cell of input row [i] (two missing values count as
    equal), and it pairs [i] with nothing exactly when no row of the
    store has that [txid]. *)
Theorem merged_rows_follow_raw_cells (render : pyval -> string)
    (input_csv : dataframe) (txid_column : string) (input_keys : list cell)
    (s : string) (header : list string) (rows : list (list pyval)) (j : nat) :
  assoc txid_column input_csv = Some input_keys ->
  In (Some s) input_keys ->
  index_of "txid" header = Some j ->
  exists out,
    merged_output render input_csv txid_column (header, rows) = Ret out
    /\ forall i joined,
        In (i, joined) out <->
        exists key,
          nth_error input_keys i = Some key /\
          match joined with
          | Some row =>
              In row rows /\ read_str_cell render (nth j row PNone) = key
          | None =>
              forall row, In row rows ->
                          read_str_cell render (nth j row PNone) <> key
          end.
Proof.
  intros Hc Hs Hj. eexists.
  split; [ exact (merged_output_defined _ _ _ _ _ _ _ _ Hc Hs Hj) | ].
  intros i joined. rewrite merge_left_rows. split.
  - intros (k & key & -> & Hk & Hjoin). exists key. split; [ exact Hk | ].
    destruct joined as [row | ].
    + now apply keyed_rows_In.
    + intros row Hin Heq. apply (Hjoin row). now apply keyed_rows_In.
  - intros (key & Hk & Hjoin). exists i, key.
    split; [ reflexivity | ]. split; [ exact Hk | ].
    destruct joined as [row | ].
    + now apply keyed_rows_In.
    + intros row Hin. apply keyed_rows_In in Hin. destruct Hin as [Hin Heq].
      now apply (Hjoin row).
Qed.

Lemma merged_rows_follow_raw_cells_witness :
  exists out,
    merged_output (fun _ => "") example_input "txid"
                  (failure_keys, example_store_rows) = Ret out
    /\ forall i joined,
        In (i, joined) out <->
        exists key,
          nth_error example_keys i
          = Some key /\
          match joined with
          | Some row =>
              In row example_store_rows
              /\ read_str_cell (fun _ => "") (nth 0 row PNone) = key
          | None =>
              forall row, In row example_store_rows ->
                          read_str_cell (fun _ => "") (nth 0 row PNone) <> key
          end.
Proof.
  apply (merged_rows_follow_raw_cells (fun _ => "") example_input "txid"
           example_keys "A" failure_keys example_store_rows 0).
  - reflexivity.
  - now left.
  - reflexivity.
Defined.

(** X21: Where the input column holds a text and the [txid] values read
    from the store are distinct, the merged output has one row for every
    row of the input, in the order of the input. *)
Theorem merged_output_one_row_per_input_row (render : pyval -> string)
    (input_csv : dataframe) (txid_column : string) (input_keys : list cell)
    (s : string) (header : list string) (rows : list (list pyval)) (j : nat) :
  assoc txid_column input_csv = Some input_keys ->
  In (Some s) input_keys ->
  index_of "txid" header = Some j ->
  NoDup (map (fun row => read_str_cell render (nth j row PNone)) rows) ->
  exists out,
    merged_output render input_csv txid_column (header, rows) = Ret out
    /\ map fst out = seq 0 (List.length input_keys).
Proof.
  intros Hc Hs Hj Hnd. eexists.
  split; [ exact (merged_output_defined _ _ _ _ _ _ _ _ Hc Hs Hj) | ].
  apply merge_left_one_each. now rewrite map_map.
Qed.

Lemma merged_output_one_row_per_input_row_witness :
  exists out,
    merged_output (fun _ => "") example_input "txid"
                  (failure_keys, example_store_rows) = Ret out
    /\ map fst out = seq 0 (List.length
                              example_keys).
Proof.
  apply (merged_output_one_row_per_input_row
           (fun _ => "") example_input "txid" example_keys "A" failure_keys
           example_store_rows 0).
  - reflexivity.
  - now left.
  - reflexivity.
  - repeat constructor; cbn; intuition discriminate.
Defined.

(** X22: The store holds keys in lower case and stripped, the merge compares
    them with the cells of the input as they stand: an input row whose
    cell is not already in that form is joined to no row of the store,
    even when its key was resolved and stored. *)
Theorem unnormalised_cells_join_nothing (render : pyval -> string)
    (input_csv : dataframe) (txid_column : string) (input_keys : list cell)
    (header : list string) (rows : list (list pyval)) (j i : nat)
    (s : string) :
  assoc txid_column input_csv = Some input_keys ->
  index_of "txid" header = Some j ->
  nth_error input_keys i = Some (Some s) ->
  str_lower (str_strip s) <> s ->
  (forall row t, In row rows ->
                 read_str_cell render (nth j row PNone) = Some t ->
                 str_lower (str_strip t) = t) ->
  exists out,
    merged_output render input_csv txid_column (header, rows) = Ret out
    /\ In (i, None) out
    /\ forall row, ~ In (i, Some row) out.
Proof.
  intros Hc Hj Hi Hs Hnorm. eexists.
  split; [ exact (merged_output_defined _ _ _ _ _ _ _ _ Hc
                    (nth_error_In _ _ Hi) Hj) | ].
  assert (Hno : forall row,
             ~ In (Some s, row)
                  (map (fun row => (read_str_cell render (nth j row PNone), row))
                       rows)).
  { intros row Hin. apply keyed_rows_In in Hin. destruct Hin as [Hin Heq].
    apply Hs. now apply (Hnorm row s). }
  split.
  - apply merge_left_rows. exists i, (Some s). auto.
  - intros row Hin. apply merge_left_rows in Hin.
    destruct Hin as (k & key & Hk & Hkey & Hrow). cbn in Hk. subst k.
    rewrite Hi in Hkey. inversion Hkey; subst key. now apply (Hno row).
Qed.

Lemma unnormalised_cells_join_nothing_witness :
  exists out,
    merged_output (fun _ => "") example_input "txid"
                  (failure_keys, example_store_rows) = Ret out
    /\ In (0%nat, None) out
    /\ forall row, ~ In (0%nat, Some row) out.
Proof.
  apply (unnormalised_cells_join_nothing
           (fun _ => "") example_input "txid" example_keys failure_keys
           example_store_rows 0 0 "A").
  - reflexivity.
  - reflexivity.
  - reflexivity.
  - discriminate.
  - intros row t [<- | [<- | []]] H; inversion H; reflexivity.
Defined.

(** ** Timestamps as text *)

Lemma all_from_spec (P : Z -> bool) (count : nat) :
  forall z, all_from P z count = true ->
            forall k, z <= k < z + Z.of_nat count -> P k = true.
Proof.
  induction count as [ | c IH ]; intros z Hall k Hk; [ lia | ].
  cbn [all_from] in Hall. apply andb_true_iff in Hall.
  destruct Hall as [Hz Hrest].
  destruct (Z.eq_dec k z) as [-> | Hne]; [ exact Hz | ].
  apply (IH (z + 1) Hrest). lia.
Qed.

Lemma pad4_decimal (z : Z) :
  0 <= z <= 9999 ->
  String.length (Datetime.pad4 z) = 4%nat /\ decimal (Datetime.pad4 z) = Some z.
Proof.
  intros Hz.
  assert (Hall : all_from
                   (fun z => Nat.eqb (String.length (Datetime.pad4 z)) 4
                             && match decimal (Datetime.pad4 z) with
                                | Some v => v =? z
                                | None => false
                                end)
                   0 (Z.to_nat 10000) = true)
    by (vm_compute; reflexivity).
  pose proof (all_from_spec _ _ _ Hall z) as H. cbv beta in H.
  assert (Hin : 0 <= z < 0 + Z.of_nat (Z.to_nat 10000)) by lia.
  specialize (H Hin).
  apply andb_true_iff in H. destruct H as [Hlen Hdec].
  apply Nat.eqb_eq in Hlen. split; [ exact Hlen | ].
  destruct (decimal (Datetime.pad4 z)) as [v | ]; [ | discriminate ].
  apply Z.eqb_eq in Hdec. now subst v.
Qed.

Lemma pad2_decimal (z : Z) :
  0 <= z <= 99 ->
  String.length (Datetime.pad2 z) = 2%nat /\ decimal (Datetime.pad2 z) = Some z.
Proof.
  intros Hz.
  assert (Hall : all_from
                   (fun z => Nat.eqb (String.length (Datetime.pad2 z)) 2
                             && match decimal (Datetime.pad2 z) with
                                | Some v => v =? z
                                | None => false
                                end)
                   0 (Z.to_nat 100) = true)
    by (vm_compute; reflexivity).
  pose proof (all_from_spec _ _ _ Hall z) as H. cbv beta in H.
  assert (Hin : 0 <= z < 0 + Z.of_nat (Z.to_nat 100)) by lia.
  specialize (H Hin).
  apply andb_true_iff in H. destruct H as [Hlen Hdec].
  apply Nat.eqb_eq in Hlen. split; [ exact Hlen | ].
  destruct (decimal (Datetime.pad2 z)) as [v | ]; [ | discriminate ].
  apply Z.eqb_eq in Hdec. now subst v.
Qed.

Lemma string_length_app (a b : string) :
  String.length (a ++ b) = (String.length a + String.length b)%nat.
Proof. induction a as [ | c a IH ]; cbn; [ reflexivity | now rewrite IH ]. Qed.

Lemma string_app_inj (a : string) :
  forall a' b b',
    String.length a = String.length a' ->
    (a ++ b = a' ++ b')%string -> a = a' /\ b = b'.
Proof.
  induction a as [ | c a IH ]; intros [ | c' a' ] b b' Hlen Heq;
    try discriminate.
  - now split.
  - cbn in Hlen, Heq. inversion Heq; subst c'.
    destruct (IH a' b b') as [-> ->]; [ lia | assumption | now split ].
Qed.

Lemma isoformat_length (dt : Datetime.datetime) :
  valid_datetime dt -> String.length (Datetime.isoformat dt) = 25%nat.
Proof.
  intros (Hy & Hmo & Hd & Hh & Hmi & Hs).
  pose proof (days_in_month_bound (Datetime.year dt) _ Hmo) as Hdim.
  unfold Datetime.isoformat.
  destruct (pad4_decimal (Datetime.year dt)) as [Ly _]; [ lia | ].
  destruct (pad2_decimal (Datetime.month dt)) as [Lmo _]; [ lia | ].
  destruct (pad2_decimal (Datetime.day dt)) as [Ld _]; [ lia | ].
  destruct (pad2_decimal (Datetime.hour dt)) as [Lh _]; [ lia | ].
  destruct (pad2_decimal (Datetime.minute dt)) as [Lmi _]; [ lia | ].
  destruct (pad2_decimal (Datetime.second dt)) as [Ls _]; [ lia | ].
  repeat (rewrite string_length_app
          || rewrite Ly || rewrite Lmo || rewrite Ld || rewrite Lh
          || rewrite Lmi || rewrite Ls).
  reflexivity.
Qed.

Lemma pad_inj (pad : Z -> string) (a b : Z) :
  decimal (pad a) = Some a -> decimal (pad b) = Some b ->
  pad a = pad b -> a = b.
Proof. intros Ha Hb Heq. rewrite Heq, Hb in Ha. now inversion Ha. Qed.

Lemma isoformat_inj (dt dt' : Datetime.datetime) :
  valid_datetime dt -> valid_datetime dt' ->
  Datetime.isoformat dt = Datetime.isoformat dt' -> dt = dt'.
Proof.
  intros (Hy & Hmo & Hd & Hh & Hmi & Hs) (Hy' & Hmo' & Hd' & Hh' & Hmi' & Hs').
  pose proof (days_in_month_bound (Datetime.year dt) _ Hmo) as Hdim.
  pose proof (days_in_month_bound (Datetime.year dt') _ Hmo') as Hdim'.
  destruct dt as [y mo d h mi s], dt' as [y' mo' d' h' mi' s'].
  cbn [Datetime.year Datetime.month Datetime.day Datetime.hour
       Datetime.minute Datetime.second] in *.
  unfold Datetime.isoformat.
  cbn [Datetime.year Datetime.month Datetime.day Datetime.hour
       Datetime.minute Datetime.second].
  destruct (pad4_decimal y) as [Ly Dy]; [ lia | ].
  destruct (pad4_decimal y') as [Ly' Dy']; [ lia | ].
  destruct (pad2_decimal mo) as [Lmo Dmo]; [ lia | ].
  destruct (pad2_decimal mo') as [Lmo' Dmo']; [ lia | ].
  destruct (pad2_decimal d) as [Ld Dd]; [ lia | ].
  destruct (pad2_decimal d') as [Ld' Dd']; [ lia | ].
  destruct (pad2_decimal h) as [Lh Dh]; [ lia | ].
  destruct (pad2_decimal h') as [Lh' Dh']; [ lia | ].
  destruct (pad2_decimal mi) as [Lmi Dmi]; [ lia | ].
  destruct (pad2_decimal mi') as [Lmi' Dmi']; [ lia | ].
  destruct (pad2_decimal s) as [Ls Ds]; [ lia | ].
  destruct (pad2_decimal s') as [Ls' Ds']; [ lia | ].
  intros H.
  apply string_app_inj in H; [ | congruence ]. destruct H as [Ey H].
  inversion H as [H1]; clear H.
  apply string_app_inj in H1; [ | congruence ]. destruct H1 as [Emo H].
  inversion H as [H1]; clear H.
  apply string_app_inj in H1; [ | congruence ]. destruct H1 as [Ed H].
  inversion H as [H1]; clear H.
  apply string_app_inj in H1; [ | congruence ]. destruct H1 as [Eh H].
  inversion H as [H1]; clear H.
  apply string_app_inj in H1; [ | congruence ]. destruct H1 as [Emi H].
  inversion H as [H1]; clear H.
  apply string_app_inj in H1; [ | congruence ]. destruct H1 as [Es _].
  rewrite (pad_inj Datetime.pad4 y y' Dy Dy' Ey).
  rewrite (pad_inj Datetime.pad2 mo mo' Dmo Dmo' Emo).
  rewrite (pad_inj Datetime.pad2 d d' Dd Dd' Ed).
  rewrite (pad_inj Datetime.pad2 h h' Dh Dh' Eh).
  rewrite (pad_inj Datetime.pad2 mi mi' Dmi Dmi' Emi).
  rewrite (pad_inj Datetime.pad2 s s' Ds Ds' Es).
  reflexivity.
Qed.

Lemma valid_timestamp_int (v : pyval) (n : Z) :
  valid_timestamp v = Some n ->
  Py.int v = Ret n
  /\ Datetime.MIN_TIMESTAMP <= n <= Datetime.MAX_TIMESTAMP.
Proof.
  unfold valid_timestamp. destruct (Py.int v) as [z | e]; [ | discriminate ].
  destruct ((Datetime.MIN_TIMESTAMP <=? z) && (z <=? Datetime.MAX_TIMESTAMP))
    eqn:Hr; [ | discriminate ].
  intros H; inversion H; subst z.
  apply andb_true_iff in Hr. destruct Hr as [Hlo Hhi].
  apply Z.leb_le in Hlo. apply Z.leb_le in Hhi. now split.
Qed.

Lemma iso_utc_of_valid (v : pyval) (n : Z) :
  valid_timestamp v = Some n ->
  exists dt,
    iso_utc v = Ret (Some (Datetime.isoformat dt))
    /\ valid_datetime dt /\ timestamp_of dt = n.
Proof.
  intros Hv.
  destruct (valid_timestamp_int v n Hv) as [Hint Hn].
  destruct (fromtimestamp_utc_valid n Hn) as (dt & Hdt & Hvalid & Hts).
  exists dt. split; [ | now split ].
  assert (Hconv : convert v = Ret (Some (Datetime.isoformat dt))).
  { unfold convert. rewrite Hint. cbn [Py.bind]. rewrite Hdt. reflexivity. }
  rewrite <- Hconv.
  destruct v as [ | b | z | [ | neg | q ] | s | l | d ];
    try reflexivity; discriminate Hv.
Qed.

(** X23: Whatever [int()] turns into a timestamp [n] of the years 1 to 9999,
    [iso_utc] returns for it a text of 25 characters that names a date
    and a time of day of the calendar, and the timestamp of that date
    and time, counted as [datetime] counts it, is [n]. *)
Theorem iso_utc_names_the_instant (v : pyval) (n : Z) :
  valid_timestamp v = Some n ->
  exists dt,
    iso_utc v = Ret (Some (Datetime.isoformat dt))
    /\ valid_datetime dt
    /\ timestamp_of dt = n
    /\ String.length (Datetime.isoformat dt) = 25%nat.
Proof.
  intros Hv.
  destruct (iso_utc_of_valid v n Hv) as (dt & Hiso & Hvalid & Hts).
  exists dt. repeat split; try assumption; try apply Hvalid.
  now apply isoformat_length.
Qed.

Lemma iso_utc_names_the_instant_witness :
  exists dt,
    iso_utc (PInt 1470150000) = Ret (Some (Datetime.isoformat dt))
    /\ valid_datetime dt
    /\ timestamp_of dt = 1470150000
    /\ String.length (Datetime.isoformat dt) = 25%nat.
Proof.
  apply (iso_utc_names_the_instant (PInt 1470150000) 1470150000).
  reflexivity.
Defined.

(** X24: The text determines the timestamp: two values that [iso_utc] turns
    into the same text stand for the same second. *)
Theorem iso_utc_text_determines_timestamp (v v' : pyval) (n n' : Z) :
  valid_timestamp v = Some n ->
  valid_timestamp v' = Some n' ->
  iso_utc v = iso_utc v' ->
  n = n'.
Proof.
  intros Hv Hv' Heq.
  destruct (iso_utc_of_valid v n Hv) as (dt & Hiso & Hvalid & Hts).
  destruct (iso_utc_of_valid v' n' Hv') as (dt' & Hiso' & Hvalid' & Hts').
  rewrite Hiso, Hiso' in Heq. inversion Heq as [Htext].
  apply (isoformat_inj dt dt' Hvalid Hvalid') in Htext.
  subst dt'. now rewrite <- Hts, <- Hts'.
Qed.

Lemma iso_utc_text_determines_timestamp_witness : 1470150000 = 1470150000.
Proof.
  apply (iso_utc_text_determines_timestamp
           (PInt 1470150000) (PStr " 1470150000 ")).
  - reflexivity.
  - reflexivity.
  - reflexivity.
Defined.
